(** * insta_posts_downloader.py: a shallow embedding and its properties

    The script is a thin orchestration layer over an external client
    (instaloader), the clock, the random source and the terminal.  The
    embedding keeps the script's own control flow and data and treats
    everything it calls as a capability of an abstract world:

    - Python [str] values are lists of Unicode code points;
    - Python [float] values are IEEE-754 binary64 numbers (Rocq's primitive
      floats), Python [int] values are [Z];
    - exceptions are an inductive type with the class tests the handlers use;
    - every external call takes a world state and returns an outcome and the
      next world state; the script's calls are recorded in a trace. *)

From Stdlib Require Import ZArith NArith List Bool Lia String Ascii Floats QArith
  DecimalString Lqa.
From Equations Require Import Equations.
Import ListNotations.

Set Implicit Arguments.
Local Open Scope Z_scope.

(** ** Python strings *)

Module PyStr.

Definition char := N.
Definition pystr := list char.

(** A literal written with ASCII characters only. *)
Definition lit (s : string) : pystr := List.map N_of_ascii (list_ascii_of_string s).

(** [str.isspace] on one code point: the characters CPython's
    [Py_UNICODE_ISSPACE] accepts. *)
Definition isspace (c : char) : bool :=
  (((9 <=? c) && (c <=? 13)) || ((28 <=? c) && (c <=? 32))
   || (c =? 133) || (c =? 160) || (c =? 5760)
   || ((8192 <=? c) && (c <=? 8202))
   || (c =? 8232) || (c =? 8233) || (c =? 8239) || (c =? 8287)
   || (c =? 12288))%N.

(** [str.lstrip()], [str.rstrip()] and [str.strip()] with no argument. *)
Fixpoint lstrip (s : pystr) : pystr :=
  match s with
  | [] => []
  | c :: t => if isspace c then lstrip t else s
  end.

Fixpoint rstrip (s : pystr) : pystr :=
  match s with
  | [] => []
  | c :: t =>
      match rstrip t with
      | [] => if isspace c then [] else [c]
      | r => c :: r
      end
  end.

Definition strip (s : pystr) : pystr := rstrip (lstrip s).

(** Membership in a regular-expression character class [[...]]. *)
Definition in_class (cls : list char) (c : char) : bool :=
  existsb (N.eqb c) cls.

(** [re.sub(r'[cls]', repl, s)]: a left-to-right scan; every match of a
    character class is one character long, so matches never overlap. *)
Fixpoint re_sub_class (cls : list char) (repl : pystr) (s : pystr) : pystr :=
  match s with
  | [] => []
  | c :: t =>
      if in_class cls c then repl ++ re_sub_class cls repl t
      else c :: re_sub_class cls repl t
  end.

(** [needle in haystack] as a proposition. *)
Definition contains (hay needle : pystr) : Prop :=
  exists pre post, hay = pre ++ needle ++ post.

Definition first_char (s : pystr) : option char := hd_error s.
Definition last_char (s : pystr) : option char := hd_error (rev s).

Definition not_space_opt (o : option char) : bool :=
  match o with
  | None => true
  | Some c => negb (isspace c)
  end.

End PyStr.
Import PyStr.

(** ** utilities: [sanitize_filename] *)

(** The character class of the pattern, as code points: less-than,
    greater-than, colon, double quote, slash, backslash, vertical bar,
    question mark, asterisk, line feed, carriage return, tab. *)
Definition unsafe_chars : list char :=
  [60; 62; 58; 34; 47; 92; 124; 63; 42; 10; 13; 9]%N.

Definition underscore : char := 95%N.

Definition is_unsafe (c : char) : bool := in_class unsafe_chars c.

Definition sanitize_filename (name : pystr) : pystr :=
  strip (re_sub_class unsafe_chars [underscore] name).

(** The replacement the specification describes, one character at a time. *)
Definition replace_unsafe (c : char) : char :=
  if is_unsafe c then underscore else c.

(** ** Exceptions

    The classes the script's handlers tell apart.  [OtherException] stands
    for any other subclass of [Exception], [OtherBaseException] for a
    [BaseException] that is neither an [Exception] nor one of the two named
    ones.  Each carries the text [str(e)] gives. *)

Inductive exn : Type :=
| KeyboardInterrupt
| SystemExit (code : Z)
| OtherBaseException (msg : pystr)
| ConnectionException (msg : pystr)
| QueryReturnedNotFoundException (msg : pystr)
| ProfileNotExistsException (msg : pystr)
| TwoFactorAuthRequiredException (msg : pystr)
| LoginException (msg : pystr)
| FileNotFoundError (msg : pystr)
| RuntimeError (msg : pystr)
| OverflowError (msg : pystr)
| OtherException (msg : pystr).

(** [isinstance(e, Exception)]. *)
Definition is_Exception (e : exn) : bool :=
  match e with
  | KeyboardInterrupt | SystemExit _ | OtherBaseException _ => false
  | _ => true
  end.

Definition is_KeyboardInterrupt (e : exn) : bool :=
  match e with KeyboardInterrupt => true | _ => false end.

(** instaloader derives [QueryReturnedNotFoundException] from
    [ConnectionException] and [TwoFactorAuthRequiredException] from
    [LoginException]. *)
Definition is_ConnectionException (e : exn) : bool :=
  match e with
  | ConnectionException _ | QueryReturnedNotFoundException _ => true
  | _ => false
  end.

Definition is_QueryReturnedNotFoundException (e : exn) : bool :=
  match e with QueryReturnedNotFoundException _ => true | _ => false end.

Definition is_ProfileNotExistsException (e : exn) : bool :=
  match e with ProfileNotExistsException _ => true | _ => false end.

Definition is_TwoFactorAuthRequiredException (e : exn) : bool :=
  match e with TwoFactorAuthRequiredException _ => true | _ => false end.

Definition is_LoginException (e : exn) : bool :=
  match e with
  | LoginException _ | TwoFactorAuthRequiredException _ => true
  | _ => false
  end.

Definition is_FileNotFoundError (e : exn) : bool :=
  match e with FileNotFoundError _ => true | _ => false end.

Definition is_RuntimeError (e : exn) : bool :=
  match e with RuntimeError _ => true | _ => false end.

(** [str(e)], as the f-strings interpolate it. *)
Definition exn_str (e : exn) : pystr :=
  match e with
  | KeyboardInterrupt => []
  | SystemExit _ => []
  | OtherBaseException m | ConnectionException m
  | QueryReturnedNotFoundException m | ProfileNotExistsException m
  | TwoFactorAuthRequiredException m | LoginException m
  | FileNotFoundError m | RuntimeError m | OverflowError m
  | OtherException m => m
  end.

(** The outcome of a call or of a piece of the script: a value or a raised
    exception. *)
Inductive result (A : Type) : Type :=
| Ok (a : A)
| Raise (e : exn).
Arguments Raise {A} e.

(** ** The world and the client *)

Record profile : Type := { username : pystr }.

Section Model.

Variable Post : Type.
Variable W : Type.

(** What [for post in profile.get_posts()] will see: the posts the lazy
    iterator yields, ending normally or with an exception raised while it
    fetches the next one. *)
Inductive post_iter : Type :=
| IterStop
| IterYield (p : Post) (rest : post_iter)
| IterRaise (e : exn).

(** The calls the script makes, in order; a wait and a download are
    recorded with their outcome. *)
Inductive event : Type :=
| EvPrint (text : pystr)
| EvLog (text : pystr)
| EvInput (prompt : pystr)
| EvGetpass (prompt : pystr)
| EvGethostbyname (host : pystr)
| EvRandom (u : float)
| EvSleep (seconds : float) (outcome : result unit)
| EvMakedirs (path : pystr)
| EvLoadSession (user : pystr)
| EvLogin (user passwd : pystr)
| EvTwoFactorLogin (code : pystr)
| EvSaveSession
| EvTestLogin
| EvFromUsername (handle : pystr)
| EvIsPrivate (p : profile)
| EvGetPosts (p : profile)
| EvDownloadPost (post : Post) (target : pystr) (outcome : result unit).

(** Everything outside the script.  Each call reads and advances the world;
    the pure entries are the interpreter's and the C library's parts the
    script relies on. *)
Record Client : Type := {
  (* terminal *)
  input : pystr -> W -> result pystr * W;
  getpass : pystr -> W -> result pystr * W;
  (* socket, time, random, os *)
  gethostbyname : pystr -> W -> result unit * W;
  sleep : float -> W -> result unit * W;
  random : W -> float * W;
  makedirs : pystr -> W -> result unit * W;
  (* instaloader *)
  load_session_from_file : pystr -> W -> result unit * W;
  login : pystr -> pystr -> W -> result unit * W;
  two_factor_login : pystr -> W -> result unit * W;
  save_session_to_file : W -> result unit * W;
  test_login : W -> result (option pystr) * W;
  from_username : pystr -> W -> result profile * W;
  is_private : profile -> W -> result bool * W;
  get_posts : profile -> W -> result post_iter * W;
  download_post : Post -> pystr -> W -> result unit * W;
  (* float ** int: the C library's pow, with the errors CPython raises *)
  float_pow : float -> Z -> result float;
  (* string conversions of the interpreter *)
  str_lower : pystr -> pystr;
  str_int : Z -> pystr;
  format_1f : float -> pystr
}.

Variable cl : Client.

(** ** The script's monad: world and trace, with exceptions *)

Record state : Type := { world : W; trace : list event }.

Definition M (A : Type) : Type := state -> result A * state.

Definition ret {A} (a : A) : M A := fun s => (Ok a, s).

Definition raise {A} (e : exn) : M A := fun s => (Raise e, s).

Definition bind {A B} (c : M A) (k : A -> M B) : M B :=
  fun s =>
    match c s with
    | (Ok a, s') => k a s'
    | (Raise e, s') => (Raise e, s')
    end.

(** [try: c  except ...: h e]; a handler that does not match re-raises. *)
Definition try_except {A} (c : M A) (h : exn -> M A) : M A :=
  fun s =>
    match c s with
    | (Raise e, s') => h e s'
    | r => r
    end.

Definition emit (ev : event) : M unit :=
  fun s => (Ok tt, {| world := world s; trace := trace s ++ [ev] |}).

Definition call {A} (ev : event) (f : W -> result A * W) : M A :=
  fun s =>
    let (r, w') := f (world s) in
    (r, {| world := w'; trace := trace s ++ [ev] |}).

(** A call whose outcome the trace records. *)
Definition call_r {A} (ev : result A -> event) (f : W -> result A * W) : M A :=
  fun s =>
    let (r, w') := f (world s) in
    (r, {| world := w'; trace := trace s ++ [ev r] |}).

Definition lift {A} (r : result A) : M A := fun s => (r, s).

Definition print (text : pystr) : M unit := emit (EvPrint text).

Definition sys_exit {A} (code : Z) : M A := raise (SystemExit code).

Notation "x <- c1 ;; c2" := (bind c1 (fun x => c2))
  (at level 61, c1 at next level, right associativity).
Notation "c1 ;; c2" := (bind c1 (fun _ => c2))
  (at level 61, right associativity).

Local Open Scope float_scope.

(** [random.uniform(a, b)], which CPython defines as
    [a + (b - a) * self.random()]. *)
Definition uniform_of (a b u : float) : float := a + (b - a) * u.

Definition uniform (a b : float) : M float :=
  u <- (fun s => let (u, w') := random cl (world s) in
                 (Ok u, {| world := w'; trace := trace s ++ [EvRandom u] |})) ;;
  ret (uniform_of a b u).

Definition py_sleep (seconds : float) : M unit :=
  call_r (EvSleep seconds) (sleep cl seconds).

Definition py_input (prompt : pystr) : M pystr :=
  call (EvInput prompt) (input cl prompt).

(** ** Downloading with delays and retries *)

(** Some of the code points the messages use. *)
Definition warning_sign : pystr := [9888; 65039]%N.
Definition check_mark : pystr := [9989]%N.
Definition cross_mark : pystr := [10060]%N.
Definition no_entry : pystr := [9940]%N.
Definition stopwatch : pystr := [9201]%N.
Definition inbox_tray : pystr := [128229]%N.
Definition newline : pystr := [10]%N.

Definition msg_interrupted : pystr :=
  newline ++ no_entry ++ lit " Interrupted by user. Exiting.".

Definition msg_retry_connection (e : exn) (attempt R : Z) (wait : float) : pystr :=
  warning_sign ++ lit " Connection error while downloading a post: "
  ++ exn_str e ++ lit ". Retry " ++ str_int cl attempt ++ lit "/"
  ++ str_int cl R ++ lit " after " ++ format_1f cl wait ++ lit "s".

Definition msg_retry_other (e : exn) (attempt R : Z) (wait : float) : pystr :=
  warning_sign ++ lit " Error downloading post (attempt "
  ++ str_int cl attempt ++ lit "/" ++ str_int cl R ++ lit "): "
  ++ exn_str e ++ lit ". Retry after " ++ format_1f cl wait ++ lit "s".

(** [wait = (backoff_base ** attempt) + random.uniform(0.5, 2.0)]: the
    power is evaluated first and may raise. *)
Definition backoff_wait (backoff_base : float) (attempt : Z) : M float :=
  p <- lift (float_pow cl backoff_base attempt) ;;
  j <- uniform 0.5 2 ;;
  ret (p + j).

(** How the [while] loop of one post ends: it runs out or breaks
    ([LoopEnd], with the counter), or the function returns from inside it. *)
Inductive loop_exit : Type :=
| LoopEnd (total : Z)
| FnReturn (total : Z).

(** The message of the handler that caught [e]. *)
Definition retry_message (e : exn) (attempt per_post_retries : Z)
    (wait : float) : pystr :=
  if is_ConnectionException e then
    msg_retry_connection e attempt per_post_retries wait
  else msg_retry_other e attempt per_post_retries wait.

(** The suite the two retrying handlers share (lines 128 to 132 and 136 to
    140), entered with the attempt counter already incremented: compute
    the wait, report it and sleep. *)
Definition retry_after (e : exn) (per_post_retries : Z)
    (backoff_base : float) (attempt : Z) : M unit :=
  wait <- backoff_wait backoff_base attempt ;;
  print (retry_message e attempt per_post_retries wait) ;;
  py_sleep wait.

Definition inspect {A} (a : A) : {b | a = b} := exist _ a eq_refl.

(** The [while attempt <= per_post_retries] loop for one post.  Every
    iteration that does not leave the loop adds one to [attempt], so
    [per_post_retries + 1 - attempt] decreases. *)
Equations? retry_loop (post : Post) (safe_name : pystr)
    (per_post_retries : Z) (backoff_base : float)
    (attempt total : Z) : M loop_exit
    by wf (Z.to_nat (per_post_retries + 1 - attempt)) lt :=
  retry_loop post safe_name per_post_retries backoff_base attempt total
    with inspect (attempt <=? per_post_retries)%Z := {
    | exist _ true Hle =>
        try_except
          (call_r (EvDownloadPost post safe_name)
             (download_post cl post safe_name) ;;
           ret (LoopEnd (total + 1)))
          (fun e =>
             if is_KeyboardInterrupt e then
               print msg_interrupted ;;
               ret (FnReturn total)
             else if is_ConnectionException e then
               retry_after e per_post_retries backoff_base (attempt + 1)%Z ;;
               retry_loop post safe_name per_post_retries backoff_base
                 (attempt + 1)%Z total
             else if is_Exception e then
               retry_after e per_post_retries backoff_base (attempt + 1)%Z ;;
               retry_loop post safe_name per_post_retries backoff_base
                 (attempt + 1)%Z total
             else raise e)
    | exist _ false _ => ret (LoopEnd total) }.
Proof. all: apply Z.leb_le in Hle; lia. Qed.

(** The pacing sleep after a post's loop: lines 144 to 148. *)
Definition pacing_sleep (min_delay max_delay : float) : M unit :=
  x <- uniform min_delay max_delay ;;
  y <- uniform 0 0x1.3333333333333p+0 ;;
  let sleep_time := x + y in
  print (stopwatch ++ lit " Sleeping " ++ format_1f cl sleep_time
         ++ lit "s before next post...") ;;
  py_sleep sleep_time.

(** The [for post in posts_iter] loop and what follows it. *)
Fixpoint for_posts (posts_iter : post_iter) (safe_name : pystr)
    (min_delay max_delay : float) (per_post_retries : Z)
    (backoff_base : float) (total : Z) : M Z :=
  match posts_iter with
  | IterStop =>
      print (check_mark ++ lit " Finished. Total posts downloaded: "
             ++ str_int cl total) ;;
      ret total
  | IterRaise e => raise e
  | IterYield post rest =>
      x <- retry_loop post safe_name per_post_retries backoff_base 0 total ;;
      match x with
      | FnReturn total => ret total
      | LoopEnd total =>
          pacing_sleep min_delay max_delay ;;
          for_posts rest safe_name min_delay max_delay per_post_retries
            backoff_base total
      end
  end.

Definition download_posts_with_delays (prof : profile)
    (min_delay max_delay : float) (per_post_retries : Z)
    (backoff_base : float) : M Z :=
  let safe_name := sanitize_filename (username prof) in
  call (EvMakedirs safe_name) (makedirs cl safe_name) ;;
  print (inbox_tray ++ lit " Starting download for @" ++ username prof
         ++ lit " into folder '" ++ safe_name ++ lit "'") ;;
  posts_iter <- call (EvGetPosts prof) (get_posts cl prof) ;;
  for_posts posts_iter safe_name min_delay max_delay per_post_retries
    backoff_base 0.

(** ** Utilities, login and session *)

(** [socket.setdefaulttimeout(timeout)] only stores the number for the
    sockets made later: with the default 5 it cannot raise and calls
    nothing, so the lookup is the one call of the [try] suite. *)
Definition check_dns (host : pystr) : M bool :=
  try_except
    (call (EvGethostbyname host) (gethostbyname cl host) ;;
     ret true)
    (fun e =>
       if is_Exception e then
         print (cross_mark ++ lit " DNS/Network check failed: " ++ exn_str e) ;;
         ret false
       else raise e).

Definition prompt_username : pystr := lit "Enter your Instagram username: ".

Definition get_credentials : M (pystr * pystr) :=
  u <- py_input prompt_username ;;
  let username := strip u in
  password <-
    try_except
      (p <- call (EvGetpass (lit "Enter your Instagram password: "))
              (getpass cl (lit "Enter your Instagram password: ")) ;;
       ret (strip p))
      (fun e =>
         if is_Exception e then
           p <- py_input (lit "Enter your Instagram password (visible): ") ;;
           ret (strip p)
         else raise e) ;;
  ret (username, password).

(** Truth value of an optional string: [None] and the empty string are
    false. *)
Definition truthy (o : option pystr) : bool :=
  match o with
  | Some (_ :: _) => true
  | _ => false
  end.

Definition msg_no_session : pystr :=
  lit "No session available and interactive login disabled.".

(** The inner [try] around [save_session_to_file] after a password login. *)
Definition save_after_login : M unit :=
  try_except
    (call EvSaveSession (save_session_to_file cl) ;;
     print (check_mark ++ lit " Login successful and session saved."))
    (fun e =>
       if is_Exception e then
         print (warning_sign
                ++ lit " Login successful but could not save session file.")
       else raise e).

(** The handler of [TwoFactorAuthRequiredException]. *)
Definition two_factor_path (user : pystr) : M pystr :=
  print (warning_sign ++ lit " Two-factor authentication required.") ;;
  c <- py_input (lit "Enter 2FA code (from your authenticator/SMS): ") ;;
  let code := strip c in
  try_except
    (call (EvTwoFactorLogin code) (two_factor_login cl code) ;;
     try_except
       (call EvSaveSession (save_session_to_file cl))
       (fun e => if is_Exception e then ret tt else raise e) ;;
     print (check_mark ++ lit " 2FA login successful and session saved.") ;;
     ret user)
    (fun e =>
       if is_Exception e then
         raise (RuntimeError (lit "2FA login failed: " ++ exn_str e))
       else raise e).

(** Lines 66 to 98: the interactive login flow. *)
Definition interactive_login : M pystr :=
  cred <- get_credentials ;;
  let (user, passwd) := cred in
  pause <- uniform 1.5 4 ;;
  py_sleep pause ;;
  try_except
    (emit (EvLog (lit "Attempting login...")) ;;
     call (EvLogin user passwd) (login cl user passwd) ;;
     save_after_login ;;
     ret user)
    (fun e =>
       if is_TwoFactorAuthRequiredException e then two_factor_path user
       else if is_LoginException e then
         raise (RuntimeError (lit "Login failed: " ++ exn_str e))
       else if is_ConnectionException e then
         raise (RuntimeError (lit "Connection error during login: "
                              ++ exn_str e))
       else raise e).

Definition msg_session_loaded : pystr :=
  check_mark ++ lit " Loaded session from file.".

(** [print] joins its two arguments with a space. *)
Definition msg_session_not_found (u : pystr) : pystr :=
  warning_sign ++ lit " Session file not found for user:" ++ lit " " ++ u.

(** The first [if] of [login_with_session]: [Some u] when the function
    returns [u] from inside it, [None] when control reaches line 63. *)
Definition try_saved_session (username : option pystr) : M (option pystr) :=
  match username with
  | Some ((_ :: _) as u) =>
      try_except
        (call (EvLoadSession u) (load_session_from_file cl u) ;;
         print msg_session_loaded ;;
         ret (Some u))
        (fun e =>
           if is_FileNotFoundError e then
             print (msg_session_not_found u) ;;
             ret None
           else raise e)
  | _ => ret None
  end.

Definition login_with_session (username : option pystr)
    (allow_interactive : bool) : M pystr :=
  r <- try_saved_session username ;;
  match r with
  | Some u => ret u
  | None =>
      if negb allow_interactive then raise (RuntimeError msg_no_session)
      else interactive_login
  end.

(** ** main *)

Definition msg_profile_not_exist (target_profile : pystr) : pystr :=
  cross_mark ++ lit " The profile '" ++ target_profile
  ++ lit "' does not exist.".

Definition msg_private (target_profile : pystr) : pystr :=
  cross_mark ++ lit " The profile '" ++ target_profile
  ++ lit "' is private. You must be logged in and follow them.".

Definition is_empty (s : pystr) : bool :=
  match s with [] => true | _ => false end.

Fixpoint pystr_eqb (a b : pystr) : bool :=
  match a, b with
  | [], [] => true
  | x :: a', y :: b' => (x =? y)%N && pystr_eqb a' b'
  | _, _ => false
  end.

(** Lines 174 to 183. *)
Definition login_phase (session_user : option pystr) : M (option pystr) :=
  try_except
    (u <- login_with_session session_user true ;;
     ret (Some u))
    (fun e =>
       if is_RuntimeError e then
         print (cross_mark ++ lit " Login/session error: " ++ exn_str e) ;;
         p <- py_input (lit "Continue without login? (yes/no): ") ;;
         let proceed := str_lower cl (strip p) in
         if negb (pystr_eqb proceed (lit "yes")) then sys_exit 1
         else ret None
       else raise e).

(** Lines 188 to 201. *)
Definition resolve_profile (target_profile : pystr) : M profile :=
  try_except
    (call (EvFromUsername target_profile) (from_username cl target_profile))
    (fun e =>
       if is_ProfileNotExistsException e then
         print (msg_profile_not_exist target_profile) ;;
         sys_exit 1
       else if is_QueryReturnedNotFoundException e then
         print (cross_mark ++ lit " Query returned not found. Instagram may have changed the API or blocked the request.") ;;
         sys_exit 1
       else if is_ConnectionException e then
         print (cross_mark ++ lit " Connection error when fetching profile: "
                ++ exn_str e) ;;
         sys_exit 1
       else if is_Exception e then
         print (cross_mark ++ lit " Unexpected error when fetching profile: "
                ++ exn_str e) ;;
         sys_exit 1
       else raise e).

(** Lines 204 to 212. *)
Definition private_check (prof : profile) (target_profile : pystr) : M unit :=
  try_except
    (priv <- call (EvIsPrivate prof) (is_private cl prof) ;;
     if (priv : bool) then
       t <- call EvTestLogin (test_login cl) ;;
       if negb (truthy t) then
         print (msg_private target_profile) ;;
         sys_exit 1
       else ret tt
     else ret tt)
    (fun e => if is_Exception e then ret tt else raise e).

Definition MIN_DELAY : float := 4.
Definition MAX_DELAY : float := 9.
Definition PER_POST_RETRIES : Z := 3.

(** Lines 219 to 231. *)
Definition download_phase (prof : profile) : M unit :=
  try_except
    (download_posts_with_delays prof MIN_DELAY MAX_DELAY PER_POST_RETRIES 2 ;;
     ret tt)
    (fun e =>
       if is_KeyboardInterrupt e then print msg_interrupted
       else if is_Exception e then
         print (cross_mark ++ lit " Unexpected error during download: "
                ++ exn_str e)
       else raise e).

Definition prompt_target : pystr :=
  lit "Enter the Instagram username to download posts from: ".

Definition prompt_session : pystr :=
  lit "If you have a saved Instaloader session username, enter it (or press Enter to skip): ".

Definition msg_check_connection : pystr :=
  lit "Please check your internet connection / DNS (try 8.8.8.8 or 1.1.1.1). Exiting.".

(** Lines 155 to 201 of [main]: from the preflight check to the resolved
    profile.  The value is the target handle and the profile. *)
Definition upto_profile : M (pystr * profile) :=
  dns_ok <- check_dns (lit "www.instagram.com") ;;
  if negb dns_ok then
    print msg_check_connection ;;
    sys_exit 1
  else
    t <- py_input prompt_target ;;
    let target_profile := strip t in
    if is_empty target_profile then
      print (lit "No username provided. Exiting.") ;;
      sys_exit 1
    else
      s <- py_input prompt_session ;;
      let session_user :=
        if is_empty (strip s) then None else Some (strip s) in
      login_phase session_user ;;
      pause <- uniform 1 3 ;;
      py_sleep pause ;;
      prof <- resolve_profile target_profile ;;
      ret (target_profile, prof).

Definition main : M unit :=
  tp <- upto_profile ;;
  let (target_profile, prof) := tp in
  private_check prof target_profile ;;
  download_phase prof.

(** The script run from the start of the world. *)
Definition run_main (w : W) : result unit * state :=
  main {| world := w; trace := [] |}.

End Model.

Arguments IterStop {Post}.
Arguments IterRaise {Post} e.
Arguments EvPrint {Post} text.
Arguments EvLog {Post} text.
Arguments EvInput {Post} prompt.
Arguments EvGetpass {Post} prompt.
Arguments EvGethostbyname {Post} host.
Arguments EvRandom {Post} u.
Arguments EvSleep {Post} seconds outcome.
Arguments EvMakedirs {Post} path.
Arguments EvLoadSession {Post} user.
Arguments EvLogin {Post} user passwd.
Arguments EvTwoFactorLogin {Post} code.
Arguments EvSaveSession {Post}.
Arguments EvTestLogin {Post}.
Arguments EvFromUsername {Post} handle.
Arguments EvIsPrivate {Post} p.
Arguments EvGetPosts {Post} p.

(** ** The process exit status

    What the operating system sees when [main()] is the whole program, on
    a POSIX system with a 64-bit C long: status 0 after a normal return;
    for [SystemExit] with an integer code the low byte of the code, the
    interpreter converting it to a C long (-1 when it does not fit) and
    the system keeping eight bits; status 1 when any other exception
    reaches the top level and the interpreter prints its traceback (an
    unhandled [KeyboardInterrupt] ends the process by the interrupt
    signal, which a shell reports as 130). *)
Definition fits_c_long (code : Z) : bool :=
  (- 2 ^ 63 <=? code) && (code <? 2 ^ 63).

Definition exit_status (r : result unit) : Z :=
  match r with
  | Ok _ => 0
  | Raise (SystemExit code) =>
      if fits_c_long code then code mod 256 else 255
  | Raise KeyboardInterrupt => 130
  | Raise _ => 1
  end.

(** ** A reference platform and scripted worlds

    Concrete instances of the client, used to run the model on examples.
    Posts are numbered.  A scripted world holds the outcomes of the calls
    that can repeat; the outcomes of the calls made at most once per run
    are fixed by the scenario. *)

Module Scripted.

Local Open Scope float_scope.

(** [float ** int] for a positive exponent by repeated multiplication,
    exact whenever every partial product is representable (all powers of
    two are); CPython raises [OverflowError] when the power of a finite
    base overflows. *)
Definition ref_float_pow (b : float) (n : Z) : result float :=
  match n with
  | Z0 => Ok 1
  | Zpos p =>
      let r := Pos.iter (fun x => x * b) 1 p in
      if is_finite b && is_infinity r then
        Raise (OverflowError (lit "(34, 'Numerical result out of range')"))
      else Ok r
  | Zneg p => Ok (1 / Pos.iter (fun x => x * b) 1 p)
  end.

(** [str.lower] on the ASCII letters. *)
Definition ascii_lower (s : pystr) : pystr :=
  List.map (fun c => if ((65 <=? c) && (c <=? 90))%N then (c + 32)%N else c) s.

Definition decimal (z : Z) : pystr :=
  lit (DecimalString.NilZero.string_of_int (Z.to_int z)).

(** [format(x, '.1f')]: the exact value rounded to one decimal, ties to
    even. *)
Definition ref_format_1f (x : float) : pystr :=
  match Prim2SF x with
  | S754_nan => lit "nan"
  | S754_infinity s => (if s then lit "-" else []) ++ lit "inf"
  | S754_zero s => (if s then lit "-" else []) ++ lit "0.0"
  | S754_finite s m e =>
      let num := (Zpos m * 10)%Z in
      let t :=
        match e with
        | Zneg k =>
            let den := Z.pow_pos 2 k in
            let q := (num / den)%Z in
            let r := (num mod den)%Z in
            match (2 * r ?= den)%Z with
            | Gt => (q + 1)%Z
            | Eq => if Z.odd q then (q + 1)%Z else q
            | Lt => q
            end
        | _ => (num * 2 ^ e)%Z
        end in
      (if s then lit "-" else []) ++ decimal (t / 10) ++ lit "."
      ++ decimal (t mod 10)
  end.

Record tape : Type := {
  inputs : list (result pystr);
  passwords : list (result pystr);
  sleeps : list (result unit);
  randoms : list float;
  downloads : list (result unit)
}.

(** The outcomes of the calls a run makes at most once, and what a repeated
    call answers once its list is used up. *)
Record scenario : Type := {
  dns : result unit;
  mkdir : result unit;
  session_load : result unit;
  login_outcome : result unit;
  two_factor : result unit;
  session_save : result unit;
  login_valid : result (option pystr);
  lookup : result profile;
  private : result bool;
  posts : result (post_iter nat);
  download_default : result unit
}.

Definition next {A} (d : A) (l : list A) : A * list A :=
  match l with
  | [] => (d, [])
  | x :: t => (x, t)
  end.

Definition fixed {A W} (r : result A) (w : W) : result A * W := (r, w).

Definition client (sc : scenario) : Client nat tape := {|
  input := fun _ w =>
    let (r, l) := next (Ok []) (inputs w) in
    (r, {| inputs := l; passwords := passwords w; sleeps := sleeps w;
           randoms := randoms w; downloads := downloads w |});
  getpass := fun _ w =>
    let (r, l) := next (Ok []) (passwords w) in
    (r, {| inputs := inputs w; passwords := l; sleeps := sleeps w;
           randoms := randoms w; downloads := downloads w |});
  gethostbyname := fun _ => fixed (dns sc);
  sleep := fun _ w =>
    let (r, l) := next (Ok tt) (sleeps w) in
    (r, {| inputs := inputs w; passwords := passwords w; sleeps := l;
           randoms := randoms w; downloads := downloads w |});
  random := fun w =>
    let (u, l) := next 0 (randoms w) in
    (u, {| inputs := inputs w; passwords := passwords w; sleeps := sleeps w;
           randoms := l; downloads := downloads w |});
  makedirs := fun _ => fixed (mkdir sc);
  load_session_from_file := fun _ => fixed (session_load sc);
  login := fun _ _ => fixed (login_outcome sc);
  two_factor_login := fun _ => fixed (two_factor sc);
  save_session_to_file := fixed (session_save sc);
  test_login := fixed (login_valid sc);
  from_username := fun _ => fixed (lookup sc);
  is_private := fun _ => fixed (private sc);
  get_posts := fun _ => fixed (posts sc);
  download_post := fun _ _ w =>
    let (r, l) := next (download_default sc) (downloads w) in
    (r, {| inputs := inputs w; passwords := passwords w; sleeps := sleeps w;
           randoms := randoms w; downloads := l |});
  float_pow := ref_float_pow;
  str_lower := ascii_lower;
  str_int := decimal;
  format_1f := ref_format_1f
|}.

(** The client whose repeated calls always answer the same: every prompt
    is answered by [answer], every wait completes, every draw is [draw] and
    every download ends as the scenario's default. *)
Definition steady (sc : scenario) (answer : pystr) (draw : float)
  : Client nat unit := {|
  input := fun _ => fixed (Ok answer);
  getpass := fun _ => fixed (Ok answer);
  gethostbyname := fun _ => fixed (dns sc);
  sleep := fun _ => fixed (Ok tt);
  random := fun w => (draw, w);
  makedirs := fun _ => fixed (mkdir sc);
  load_session_from_file := fun _ => fixed (session_load sc);
  login := fun _ _ => fixed (login_outcome sc);
  two_factor_login := fun _ => fixed (two_factor sc);
  save_session_to_file := fixed (session_save sc);
  test_login := fixed (login_valid sc);
  from_username := fun _ => fixed (lookup sc);
  is_private := fun _ => fixed (private sc);
  get_posts := fun _ => fixed (posts sc);
  download_post := fun _ _ => fixed (download_default sc);
  float_pow := ref_float_pow;
  str_lower := ascii_lower;
  str_int := decimal;
  format_1f := ref_format_1f
|}.

(** [time.sleep] as far as its argument goes: it rejects a NaN and a
    negative duration with ValueError and a duration of more than 2^63
    nanoseconds with OverflowError, and returns otherwise. *)
Definition ref_sleep (seconds : float) : result unit :=
  if is_nan seconds then
    Raise (OtherException (lit "Invalid value NaN (not a number)"))
  else if seconds <? 0 then
    Raise (OtherException (lit "sleep length must be non-negative"))
  else if 0x1p+63 <? seconds * 1e9 then
    Raise (OverflowError
             (lit "timestamp too large to convert to C _PyTime_t"))
  else Ok tt.

(** The steady client with that clock. *)
Definition clocked (sc : scenario) (answer : pystr) (draw : float)
  : Client nat unit := {|
  input := fun _ => fixed (Ok answer);
  getpass := fun _ => fixed (Ok answer);
  gethostbyname := fun _ => fixed (dns sc);
  sleep := fun d => fixed (ref_sleep d);
  random := fun w => (draw, w);
  makedirs := fun _ => fixed (mkdir sc);
  load_session_from_file := fun _ => fixed (session_load sc);
  login := fun _ _ => fixed (login_outcome sc);
  two_factor_login := fun _ => fixed (two_factor sc);
  save_session_to_file := fixed (session_save sc);
  test_login := fixed (login_valid sc);
  from_username := fun _ => fixed (lookup sc);
  is_private := fun _ => fixed (private sc);
  get_posts := fun _ => fixed (posts sc);
  download_post := fun _ _ => fixed (download_default sc);
  float_pow := ref_float_pow;
  str_lower := ascii_lower;
  str_int := decimal;
  format_1f := ref_format_1f
|}.

Definition begin : state nat unit := {| world := tt; trace := [] |}.

(** A world in which nothing is scripted: every repeated call gives its
    default. *)
Definition quiet : tape :=
  {| inputs := []; passwords := []; sleeps := []; randoms := [];
     downloads := [] |}.

(** A scenario in which every call succeeds on a public profile with the
    given posts. *)
Definition all_fine (name : pystr) (it : post_iter nat) : scenario :=
  {| dns := Ok tt; mkdir := Ok tt; session_load := Ok tt;
     login_outcome := Ok tt; two_factor := Ok tt; session_save := Ok tt;
     login_valid := Ok (Some name);
     lookup := Ok {| username := name |};
     private := Ok false; posts := Ok it; download_default := Ok tt |}.

Definition start (w : tape) : state nat tape := {| world := w; trace := [] |}.

(** The largest value [random.random()] returns: 1 - 2^-53. *)
Definition random_max : float := 0x1.fffffffffffffp-1.

End Scripted.

(** * Runs, traces and verdicts

    The definitions the properties are stated with: what a run of each
    loop of the downloader can be, as relations between the world before,
    the outcome, the world after and the calls made; readings of a trace;
    and the exits of [main] that the specification lists. *)

(** ** The retry loop, as a relation *)

Section LoopRunDefinitions.

Context {Post W : Type}.
Variable cl : Client Post W.
Variables (post : Post) (safe_name : pystr).
Variables (per_post_retries : Z) (backoff_base : float).

Local Open Scope float_scope.

(** The state after more calls. *)
Definition log (s : state Post W) (w : W) (evs : list (event Post))
  : state Post W :=
  {| world := w; trace := trace s ++ evs |}.

(** The wait before a retry, from the power and the random draw. *)
Definition wait_of (p u : float) : float := p + uniform_of 0.5 2 u.

(** What a retrying handler adds to the trace after the failed download. *)
Definition retry_events (e : exn) (attempt : Z) (p u : float)
    (r : result unit) : list (event Post) :=
  [EvRandom u;
   EvPrint (retry_message cl e attempt per_post_retries (wait_of p u));
   EvSleep (wait_of p u) r].

(** One run of the loop from a given attempt counter and world: how the
    code leaves it, the world it leaves and the calls it made. *)
Inductive loop_run :
  Z -> Z -> W -> result loop_exit -> W -> list (event Post) -> Prop :=
| run_exhausted attempt total w :
    (per_post_retries < attempt)%Z ->
    loop_run attempt total w (Ok (LoopEnd total)) w []
| run_success attempt total w a w1 :
    (attempt <= per_post_retries)%Z ->
    download_post cl post safe_name w = (Ok a, w1) ->
    loop_run attempt total w (Ok (LoopEnd (total + 1))) w1
      [EvDownloadPost post safe_name (Ok a)]
| run_interrupt attempt total w w1 :
    (attempt <= per_post_retries)%Z ->
    download_post cl post safe_name w = (Raise KeyboardInterrupt, w1) ->
    loop_run attempt total w (Ok (FnReturn total)) w1
      [EvDownloadPost post safe_name (Raise KeyboardInterrupt);
       EvPrint msg_interrupted]
| run_escape attempt total w e w1 :
    (attempt <= per_post_retries)%Z ->
    download_post cl post safe_name w = (Raise e, w1) ->
    is_KeyboardInterrupt e = false ->
    is_Exception e = false ->
    loop_run attempt total w (Raise e) w1
      [EvDownloadPost post safe_name (Raise e)]
| run_pow_error attempt total w e w1 x :
    (attempt <= per_post_retries)%Z ->
    download_post cl post safe_name w = (Raise e, w1) ->
    is_Exception e = true ->
    float_pow cl backoff_base (attempt + 1) = Raise x ->
    loop_run attempt total w (Raise x) w1
      [EvDownloadPost post safe_name (Raise e)]
| run_sleep_error attempt total w e w1 p u w2 x w3 :
    (attempt <= per_post_retries)%Z ->
    download_post cl post safe_name w = (Raise e, w1) ->
    is_Exception e = true ->
    float_pow cl backoff_base (attempt + 1) = Ok p ->
    random cl w1 = (u, w2) ->
    sleep cl (wait_of p u) w2 = (Raise x, w3) ->
    loop_run attempt total w (Raise x) w3
      (EvDownloadPost post safe_name (Raise e)
       :: retry_events e (attempt + 1) p u (Raise x))
| run_retry attempt total w e w1 p u w2 a w3 r w' evs :
    (attempt <= per_post_retries)%Z ->
    download_post cl post safe_name w = (Raise e, w1) ->
    is_Exception e = true ->
    float_pow cl backoff_base (attempt + 1) = Ok p ->
    random cl w1 = (u, w2) ->
    sleep cl (wait_of p u) w2 = (Ok a, w3) ->
    loop_run (attempt + 1) total w3 r w' evs ->
    loop_run attempt total w r w'
      ((EvDownloadPost post safe_name (Raise e)
        :: retry_events e (attempt + 1) p u (Ok a)) ++ evs).

End LoopRunDefinitions.

(** ** The loop over the posts, as a relation *)

Section PostsRunDefinitions.

Context {Post W : Type}.
Variable cl : Client Post W.
Variable safe_name : pystr.
Variables (min_delay max_delay : float).
Variables (per_post_retries : Z) (backoff_base : float).

Local Open Scope float_scope.

(** The pacing interval, from the two random draws. *)
Definition pacing_time (u1 u2 : float) : float :=
  uniform_of min_delay max_delay u1 + uniform_of 0 0x1.3333333333333p+0 u2.

(** What the pacing sleep adds to the trace. *)
Definition pacing_events (u1 u2 : float) (r : result unit)
  : list (event Post) :=
  [EvRandom u1; EvRandom u2;
   EvPrint (stopwatch ++ lit " Sleeping " ++ format_1f cl (pacing_time u1 u2)
            ++ lit "s before next post...");
   EvSleep (pacing_time u1 u2) r].

(** The pacing intervals made from consecutive pairs of draws. *)
Fixpoint pacing_of_draws (us : list float) : list float :=
  match us with
  | u1 :: u2 :: rest =>
      pacing_time u1 u2 :: pacing_of_draws rest
  | _ => []
  end.

Definition finished_message (total : Z) : pystr :=
  check_mark ++ lit " Finished. Total posts downloaded: " ++ str_int cl total.

(** One run of the [for] loop from a given counter and world. *)
Inductive posts_run :
  post_iter Post -> Z -> W -> result Z -> W -> list (event Post) -> Prop :=
| posts_stop total w :
    posts_run IterStop total w (Ok total) w
      [EvPrint (finished_message total)]
| posts_iter_raise e total w :
    posts_run (IterRaise e) total w (Raise e) w []
| posts_return post rest total w t w1 evs :
    loop_run cl post safe_name per_post_retries backoff_base
      0 total w (Ok (FnReturn t)) w1 evs ->
    posts_run (IterYield post rest) total w (Ok t) w1 evs
| posts_loop_raise post rest total w e w1 evs :
    loop_run cl post safe_name per_post_retries backoff_base
      0 total w (Raise e) w1 evs ->
    posts_run (IterYield post rest) total w (Raise e) w1 evs
| posts_pacing_raise post rest total w t w1 evs u1 w2 u2 w3 x w4 :
    loop_run cl post safe_name per_post_retries backoff_base
      0 total w (Ok (LoopEnd t)) w1 evs ->
    random cl w1 = (u1, w2) ->
    random cl w2 = (u2, w3) ->
    sleep cl (pacing_time u1 u2) w3 = (Raise x, w4) ->
    posts_run (IterYield post rest) total w (Raise x) w4
      (evs ++ pacing_events u1 u2 (Raise x))
| posts_next post rest total w t w1 evs u1 w2 u2 w3 a w4 r w' evs' :
    loop_run cl post safe_name per_post_retries backoff_base
      0 total w (Ok (LoopEnd t)) w1 evs ->
    random cl w1 = (u1, w2) ->
    random cl w2 = (u2, w3) ->
    sleep cl (pacing_time u1 u2) w3 = (Ok a, w4) ->
    posts_run rest t w4 r w' evs' ->
    posts_run (IterYield post rest) total w r w'
      (evs ++ pacing_events u1 u2 (Ok a) ++ evs').

End PostsRunDefinitions.

(** ** The whole downloader, as a relation *)

Section DownloadRunDefinitions.

Context {Post W : Type}.
Variable cl : Client Post W.
Variable prof : profile.
Variables (min_delay max_delay : float).
Variables (per_post_retries : Z) (backoff_base : float).

Definition start_message : pystr :=
  inbox_tray ++ lit " Starting download for @" ++ username prof
  ++ lit " into folder '" ++ sanitize_filename (username prof) ++ lit "'".

Definition setup_events : list (event Post) :=
  [EvMakedirs (sanitize_filename (username prof)); EvPrint start_message;
   EvGetPosts prof].

Inductive download_run :
  W -> result Z -> W -> list (event Post) -> Prop :=
| download_mkdir_raise w x w1 :
    makedirs cl (sanitize_filename (username prof)) w = (Raise x, w1) ->
    download_run w (Raise x) w1
      [EvMakedirs (sanitize_filename (username prof))]
| download_listing_raise w a w1 x w2 :
    makedirs cl (sanitize_filename (username prof)) w = (Ok a, w1) ->
    get_posts cl prof w1 = (Raise x, w2) ->
    download_run w (Raise x) w2 setup_events
| download_posts w a w1 it w2 r w' evs :
    makedirs cl (sanitize_filename (username prof)) w = (Ok a, w1) ->
    get_posts cl prof w1 = (Ok it, w2) ->
    posts_run cl (sanitize_filename (username prof)) min_delay max_delay
      per_post_retries backoff_base it 0 w2 r w' evs ->
    download_run w r w' (setup_events ++ evs).

End DownloadRunDefinitions.

(** ** Reading a trace *)

Section TraceReadings.

Context {Post : Type}.

Definition is_download (ev : event Post) : bool :=
  match ev with EvDownloadPost _ _ _ => true | _ => false end.

Definition is_success (ev : event Post) : bool :=
  match ev with EvDownloadPost _ _ (Ok _) => true | _ => false end.

(** A download that a user interrupt cut short, and a wait that raised. *)
Definition is_interrupted_download (ev : event Post) : bool :=
  match ev with
  | EvDownloadPost _ _ (Raise KeyboardInterrupt) => true
  | _ => false
  end.

Definition is_broken_wait (ev : event Post) : bool :=
  match ev with EvSleep _ (Raise _) => true | _ => false end.

Definition aborting (ev : event Post) : bool :=
  is_interrupted_download ev || is_broken_wait ev.

Definition attempts (evs : list (event Post)) : nat :=
  List.length (filter is_download evs).

Definition successes (evs : list (event Post)) : Z :=
  Z.of_nat (List.length (filter is_success evs)).

(** The durations passed to [time.sleep] and the values [random.random()]
    returned, in order. *)
Definition waits (evs : list (event Post)) : list float :=
  flat_map (fun ev => match ev with EvSleep d _ => [d] | _ => [] end) evs.

Definition draws (evs : list (event Post)) : list float :=
  flat_map (fun ev => match ev with EvRandom u => [u] | _ => [] end) evs.

(** No interrupted download and no wait that raised. *)
Definition calm (evs : list (event Post)) : bool :=
  forallb (fun ev => negb (is_interrupted_download ev || is_broken_wait ev))
    evs.

(** The three ways a run can go with respect to interrupts: no aborting
    event, the counter being the successes so far; an interrupted download
    as the last call, followed by the message, the function returning the
    counter; a wait that raised as the last call, its exception raised. *)
Inductive ending (total : Z) : result Z -> list (event Post) -> Prop :=
| ending_calm_ok evs :
    calm evs = true ->
    ending total (Ok (total + successes evs)) evs
| ending_calm_raise x evs :
    calm evs = true ->
    ending total (Raise x) evs
| ending_interrupted pre p n :
    calm pre = true ->
    ending total (Ok (total + successes pre))
      (pre ++ [EvDownloadPost p n (Raise KeyboardInterrupt);
               EvPrint msg_interrupted])
| ending_broken_wait pre d x :
    calm pre = true ->
    ending total (Raise x) (pre ++ [EvSleep d (Raise x)]).

Definition exit_result (r : result loop_exit) : result Z :=
  match r with
  | Ok (LoopEnd t) => Ok t
  | Ok (FnReturn t) => Ok t
  | Raise x => Raise x
  end.

(** The posts of an iterator that ends normally. *)
Fixpoint yields (posts : list Post) : post_iter Post :=
  match posts with
  | [] => IterStop
  | p :: rest => IterYield p (yields rest)
  end.

(** The calls of the download phase. *)
Definition is_download_phase {Post} (ev : event Post) : bool :=
  match ev with
  | EvMakedirs _ | EvGetPosts _ | EvDownloadPost _ _ _ => true
  | _ => false
  end.

Definition before_download {Post} (ev : event Post) : bool :=
  negb (is_download_phase ev).

End TraceReadings.

Section EmitsDefinition.

Context {Post W : Type}.
Variable P : event Post -> bool.

(** [c] only appends to the trace, and only events accepted by [P]. *)
Definition emits {A} (c : M Post W A) : Prop :=
  forall s, exists evs,
    trace (snd (c s)) = trace s ++ evs /\ forallb P evs = true.

End EmitsDefinition.

(** ** Where exceptions come from *)

Section RaisesDefinitions.

Context {Post : Type}.
Variable Q : exn -> Prop.

(** Every exception the iterator raises satisfies [Q]. *)
Fixpoint iter_raises (it : post_iter Post) : Prop :=
  match it with
  | IterStop => True
  | IterYield _ rest => iter_raises rest
  | IterRaise e => Q e
  end.

Definition raises_only {A} (r : result A) : Prop :=
  match r with
  | Ok _ => True
  | Raise x => Q x
  end.

End RaisesDefinitions.

(** ** Exact arithmetic *)

(** The formula of [random.uniform] without rounding. *)
Definition exact_uniform (a b u : Q) : Q := a + (b - a) * u.

(** ** The exits of [main]

    [main] once more, following the specification's list of terminal
    conditions: every place where the script calls [sys.exit(1)] gives the
    condition's name as a value instead, and a run that reaches the end
    gives [Completes]. *)

Inductive exit_reason : Type :=
| DnsCheckFailed
| EmptyTargetHandle
| DeclinedAfterLoginFailure
| TargetDoesNotExist (target_profile : pystr)
| LookupNotFound
| LookupConnectionFailure
| LookupUnexpectedError
| PrivateWithoutValidAccess.

Inductive verdict : Type :=
| Exits (why : exit_reason)
| Completes.

Section Verdict.

Context {Post W : Type}.
Variable cl : Client Post W.

Notation "x <- c1 ;; c2" := (bind c1 (fun x => c2))
  (at level 61, c1 at next level, right associativity).
Notation "c1 ;; c2" := (bind c1 (fun _ => c2))
  (at level 61, right associativity).

(** The user declines to continue after a login failure. *)
Definition login_verdict (session_user : option pystr)
  : M Post W (option exit_reason) :=
  try_except
    (u <- login_with_session cl session_user true ;;
     ret None)
    (fun e =>
       if is_RuntimeError e then
         print (cross_mark ++ lit " Login/session error: " ++ exn_str e) ;;
         p <- py_input cl (lit "Continue without login? (yes/no): ") ;;
         if negb (pystr_eqb (str_lower cl (strip p)) (lit "yes")) then
           ret (Some DeclinedAfterLoginFailure)
         else ret None
       else raise e).

(** The four failures of the profile lookup. *)
Definition resolve_verdict (target_profile : pystr)
  : M Post W (exit_reason + profile) :=
  try_except
    (prof <- call (EvFromUsername target_profile)
               (from_username cl target_profile) ;;
     ret (inr prof))
    (fun e =>
       if is_ProfileNotExistsException e then
         print (msg_profile_not_exist target_profile) ;;
         ret (inl (TargetDoesNotExist target_profile))
       else if is_QueryReturnedNotFoundException e then
         print (cross_mark ++ lit " Query returned not found. Instagram may have changed the API or blocked the request.") ;;
         ret (inl LookupNotFound)
       else if is_ConnectionException e then
         print (cross_mark ++ lit " Connection error when fetching profile: "
                ++ exn_str e) ;;
         ret (inl LookupConnectionFailure)
       else if is_Exception e then
         print (cross_mark ++ lit " Unexpected error when fetching profile: "
                ++ exn_str e) ;;
         ret (inl LookupUnexpectedError)
       else raise e).

(** A private profile without a valid authenticated session. *)
Definition private_verdict (prof : profile) (target_profile : pystr)
  : M Post W (option exit_reason) :=
  try_except
    (priv <- call (EvIsPrivate prof) (is_private cl prof) ;;
     if (priv : bool) then
       t <- call EvTestLogin (test_login cl) ;;
       if negb (truthy t) then
         print (msg_private target_profile) ;;
         ret (Some PrivateWithoutValidAccess)
       else ret None
     else ret None)
    (fun e => if is_Exception e then ret None else raise e).

Definition main_verdict : M Post W verdict :=
  dns_ok <- check_dns cl (lit "www.instagram.com") ;;
  if negb dns_ok then
    print msg_check_connection ;;
    ret (Exits DnsCheckFailed)
  else
    t <- py_input cl prompt_target ;;
    let target_profile := strip t in
    if is_empty target_profile then
      print (lit "No username provided. Exiting.") ;;
      ret (Exits EmptyTargetHandle)
    else
      s <- py_input cl prompt_session ;;
      let session_user :=
        if is_empty (strip s) then None else Some (strip s) in
      declined <- login_verdict session_user ;;
      match declined with
      | Some why => ret (Exits why)
      | None =>
          pause <- uniform cl 1 3 ;;
          py_sleep cl pause ;;
          resolved <- resolve_verdict target_profile ;;
          match resolved with
          | inl why => ret (Exits why)
          | inr prof =>
              denied <- private_verdict prof target_profile ;;
              match denied with
              | Some why => ret (Exits why)
              | None =>
                  download_phase cl prof ;;
                  ret Completes
              end
          end
      end.

(** How a run of [main] ends, for a verdict: [sys.exit(1)], a normal
    return, or the exception that escaped. *)
Definition ends_as {A} (v : result verdict * state Post W)
    (r : result A * state Post W) : Prop :=
  snd r = snd v /\
  match fst v with
  | Ok (Exits _) => fst r = Raise (SystemExit 1)
  | Ok Completes => exists a, fst r = Ok a
  | Raise e => fst r = Raise e
  end.

End Verdict.

(** ** Scenarios for concrete runs *)

Module Runs.
Import Scripted.
Local Open Scope float_scope.

(** A profile with two posts whose downloads always fail with a
    connection error; nothing else fails. *)
Definition failing : scenario :=
  {| dns := Ok tt; mkdir := Ok tt; session_load := Ok tt;
     login_outcome := Ok tt; two_factor := Ok tt; session_save := Ok tt;
     login_valid := Ok (Some (lit "me"));
     lookup := Ok {| username := lit "a" |};
     private := Ok false;
     posts := Ok (IterYield 1%nat (IterYield 2%nat IterStop));
     download_default := Raise (ConnectionException (lit "timed out")) |}.

(** A world in which the first two downloads fail, with a connection
    error and with another error, and everything else succeeds. *)
Definition twice_failing : tape :=
  {| inputs := []; passwords := []; sleeps := []; randoms := [];
     downloads := [Raise (ConnectionException (lit "timed out"));
                   Raise (OtherException (lit "bad response"))] |}.

Definition is_download_of (n : nat) (ev : event nat) : bool :=
  match ev with
  | EvDownloadPost m _ _ => Nat.eqb m n
  | _ => false
  end.

End Runs.

Module PrivateRun.
Import Scripted.

(** A private profile and no valid session; every prompt is answered
    with the same name. *)
Definition private_profile : scenario :=
  {| dns := Ok tt; mkdir := Ok tt; session_load := Ok tt;
     login_outcome := Ok tt; two_factor := Ok tt; session_save := Ok tt;
     login_valid := Ok None;
     lookup := Ok {| username := lit "bob" |};
     private := Ok true;
     posts := Ok (IterYield 1%nat IterStop);
     download_default := Ok tt |}.

Definition cl : Client nat unit := steady private_profile (lit "bob") 0.5.

End PrivateRun.

Module MissingSession.
Import Scripted.

(** No session file for the preferred identifier. *)
Definition missing : scenario :=
  {| dns := Ok tt; mkdir := Ok tt;
     session_load := Raise (FileNotFoundError (lit "No such file"));
     login_outcome := Ok tt; two_factor := Ok tt; session_save := Ok tt;
     login_valid := Ok (Some (lit "bob"));
     lookup := Ok {| username := lit "bob" |};
     private := Ok false;
     posts := Ok (IterYield 1%nat IterStop);
     download_default := Ok tt |}.

Definition cl : Client nat unit := steady missing (lit "bob") 0.5.

End MissingSession.

Module UnreadableSession.
Import Scripted.

(** The session file of the preferred identifier exists but cannot be
    read: loading it raises an error that is not FileNotFoundError. *)
Definition unreadable : scenario :=
  {| dns := Ok tt; mkdir := Ok tt;
     session_load := Raise (OtherException (lit "Permission denied"));
     login_outcome := Ok tt; two_factor := Ok tt; session_save := Ok tt;
     login_valid := Ok (Some (lit "bob"));
     lookup := Ok {| username := lit "bob" |};
     private := Ok false;
     posts := Ok (IterYield 1%nat IterStop);
     download_default := Ok tt |}.

Definition cl : Client nat unit := steady unreadable (lit "bob") 0.5.

End UnreadableSession.

Module EchoedPassword.
Import Scripted.

(** [getpass] cannot read from the terminal, and the answers to the two
    prompts of [input] carry white space. *)
Definition answers : tape :=
  {| inputs := [Ok (lit " alice "); Ok (lit "secret ")];
     passwords := [Raise (OtherException (lit "no terminal"))];
     sleeps := []; randoms := []; downloads := [] |}.

Definition cl : Client nat tape := client (all_fine (lit "alice") IterStop).

End EchoedPassword.

Module RejectedLogin.
Import Scripted.

(** The login is rejected; nothing else fails. *)
Definition rejected : scenario :=
  {| dns := Ok tt; mkdir := Ok tt; session_load := Ok tt;
     login_outcome := Raise (LoginException (lit "bad password"));
     two_factor := Ok tt; session_save := Ok tt;
     login_valid := Ok None;
     lookup := Ok {| username := lit "bob" |};
     private := Ok false;
     posts := Ok (IterYield 1%nat IterStop);
     download_default := Ok tt |}.

Definition cl : Client nat unit := steady rejected (lit "bob") 0.5.

End RejectedLogin.

Module FailedPreflight.
Import Scripted.

(** The name of the site does not resolve. *)
Definition offline : scenario :=
  {| dns := Raise (OtherException (lit "Name or service not known"));
     mkdir := Ok tt; session_load := Ok tt;
     login_outcome := Ok tt; two_factor := Ok tt; session_save := Ok tt;
     login_valid := Ok None;
     lookup := Ok {| username := lit "bob" |};
     private := Ok false;
     posts := Ok (IterYield 1%nat IterStop);
     download_default := Ok tt |}.

Definition cl : Client nat unit := steady offline (lit "bob") 0.5.

End FailedPreflight.

Module BlankAnswers.
Import Scripted.

(** Every prompt is answered with two spaces. *)
Definition cl : Client nat unit :=
  steady (all_fine (lit "bob") IterStop) (lit "  ") 0.5.

End BlankAnswers.

(** ** The calls of one computation *)

Section Calls.

Context {Post W : Type}.

(** What [c] adds to the trace when it runs from [s]. *)
Definition calls {A} (c : M Post W A) (s : state Post W)
  : list (event Post) :=
  skipn (List.length (trace s)) (trace (snd (c s))).

(** The posts an iterator yields before it stops or raises. *)
Fixpoint iter_posts (it : post_iter Post) : list Post :=
  match it with
  | IterYield p rest => p :: iter_posts rest
  | _ => []
  end.

(** The posts the downloader loops over when it starts in [s]: those of
    the iterator that [profile.get_posts()] returns once the directory is
    made; none when one of the two calls raises. *)
Definition listed_posts (cl : Client Post W) (prof : profile)
    (s : state Post W) : list Post :=
  match makedirs cl (sanitize_filename (username prof)) (world s) with
  | (Ok _, w1) =>
      match get_posts cl prof w1 with
      | (Ok it, _) => iter_posts it
      | (Raise _, _) => []
      end
  | (Raise _, _) => []
  end.

(** The posts of the download calls that succeeded, and the targets of
    all download calls, in order. *)
Definition downloaded (evs : list (event Post)) : list Post :=
  flat_map
    (fun ev => match ev with EvDownloadPost p _ (Ok _) => [p] | _ => [] end)
    evs.

Definition targets (evs : list (event Post)) : list pystr :=
  flat_map
    (fun ev => match ev with EvDownloadPost _ n _ => [n] | _ => [] end)
    evs.

(** The posts of all download calls, in order. *)
Definition attempted (evs : list (event Post)) : list Post :=
  flat_map
    (fun ev => match ev with EvDownloadPost p _ _ => [p] | _ => [] end)
    evs.

(** What happened to the download calls and to the waits of a trace:
    every download call failed with an exception of class Exception;
    every download call succeeded; every download call succeeded or
    failed with an exception of class Exception; every [time.sleep]
    returned. *)
Definition every_download_failed (evs : list (event Post)) : bool :=
  forallb
    (fun ev =>
       match ev with
       | EvDownloadPost _ _ (Raise e) => is_Exception e
       | EvDownloadPost _ _ (Ok _) => false
       | _ => true
       end)
    evs.

Definition every_download_succeeded (evs : list (event Post)) : bool :=
  forallb
    (fun ev =>
       match ev with
       | EvDownloadPost _ _ (Raise _) => false
       | _ => true
       end)
    evs.

Definition no_download_escaped (evs : list (event Post)) : bool :=
  forallb
    (fun ev =>
       match ev with
       | EvDownloadPost _ _ (Raise e) => is_Exception e
       | _ => true
       end)
    evs.

Definition every_wait_completed (evs : list (event Post)) : bool :=
  forallb (fun ev => negb (is_broken_wait ev)) evs.

(** [k] calls for each post, for the posts that have a count. *)
Definition calls_per_post (posts : list Post) (counts : list nat)
  : list Post :=
  flat_map (fun pk => repeat (fst pk) (snd pk)) (combine posts counts).

(** [paced slept evs]: every download call in [evs] comes after a wait
    that completed since the download call before it; [slept] says whether
    one has completed before [evs]. *)
Fixpoint paced (slept : bool) (evs : list (event Post)) : bool :=
  match evs with
  | [] => true
  | EvDownloadPost _ _ _ :: rest => slept && paced false rest
  | EvSleep _ (Ok _) :: rest => paced true rest
  | _ :: rest => paced slept rest
  end.

(** The calls [download_posts_with_delays] can make. *)
Definition is_downloader_call (ev : event Post) : bool :=
  match ev with
  | EvMakedirs _ | EvGetPosts _ | EvDownloadPost _ _ _
  | EvRandom _ | EvSleep _ _ | EvPrint _ => true
  | _ => false
  end.

Definition is_load_session (ev : event Post) : bool :=
  match ev with EvLoadSession _ => true | _ => false end.

Definition is_lookup (ev : event Post) : bool :=
  match ev with EvFromUsername _ => true | _ => false end.

(** [l1] is [l2] with some elements left out. *)
Inductive subseq {A : Type} : list A -> list A -> Prop :=
| subseq_nil : subseq [] []
| subseq_skip l1 x l2 : subseq l1 l2 -> subseq l1 (x :: l2)
| subseq_keep x l1 l2 : subseq l1 l2 -> subseq (x :: l1) (x :: l2).

End Calls.

(** ** Exits and pauses in a trace *)

Section ExitsAndPauses.

Context {Post W : Type}.

(** [c] only appends to the trace, and when its verdict is an exit every
    call it made comes before the download phase. *)
Definition exits_early (c : M Post W verdict) : Prop :=
  forall s, exists evs,
    trace (snd (c s)) = trace s ++ evs
    /\ forall why, fst (c s) = Ok (Exits why) ->
         forallb before_download evs = true.

Definition is_login (ev : event Post) : bool :=
  match ev with EvLogin _ _ => true | _ => false end.

Variable target : event Post -> bool.
Variables a b : float.
Variable between : list (event Post).

(** At most one call of [evs] is a [target], and it comes right after a
    draw, a completed wait of [uniform(a, b)] seconds and the calls
    [between]. *)
Definition paused_once (evs : list (event Post)) : Prop :=
  exists evs1,
    forallb (fun ev => negb (target ev)) evs1 = true
    /\ (evs = evs1
        \/ exists u r ev evs2,
             target ev = true
             /\ forallb (fun ev => negb (target ev)) evs2 = true
             /\ evs
                = evs1
                  ++ [EvRandom u; EvSleep (uniform_of a b u) (Ok r)]
                  ++ between ++ ev :: evs2).

(** [c] only appends to the trace, and what it appends is [paused_once]. *)
Definition pauses_once {A} (c : M Post W A) : Prop :=
  forall s, exists evs,
    trace (snd (c s)) = trace s ++ evs /\ paused_once evs.

End ExitsAndPauses.

(** [c] only appends to the trace: first the calls [pre], then calls
    accepted by [P]. *)
Definition starts_with {Post W A} (pre : list (event Post))
    (P : event Post -> bool) (c : M Post W A) : Prop :=
  forall s, exists evs,
    trace (snd (c s)) = trace s ++ pre ++ evs /\ forallb P evs = true.

(** * Properties *)

(** ** Strings *)

Section StripFacts.

Lemma lstrip_decomp (s : pystr) :
  exists pre, s = pre ++ lstrip s /\ forallb isspace pre = true.
Proof.
  induction s as [|c t [pre [Ht Hpre]]]; simpl.
  - exists []; auto.
  - destruct (isspace c) eqn:Hc.
    + exists (c :: pre); simpl. rewrite Hc, Hpre. split; [congruence | reflexivity].
    + exists []; auto.
Qed.

Lemma lstrip_first (s : pystr) :
  not_space_opt (first_char (lstrip s)) = true.
Proof.
  induction s as [|c t IH]; simpl; auto.
  destruct (isspace c) eqn:Hc; auto.
  simpl. now rewrite Hc.
Qed.

Lemma lstrip_fixed (s : pystr) :
  not_space_opt (first_char s) = true -> lstrip s = s.
Proof.
  destruct s as [|c t]; simpl; auto.
  destruct (isspace c); simpl; congruence.
Qed.

Lemma rstrip_decomp (s : pystr) :
  exists post, s = rstrip s ++ post /\ forallb isspace post = true.
Proof.
  induction s as [|c t [post [Ht Hpost]]]; simpl.
  - exists []; auto.
  - destruct (rstrip t) as [|x r] eqn:Hr; simpl in Ht.
    + destruct (isspace c) eqn:Hc.
      * exists (c :: post); simpl. rewrite Hc, Hpost.
        split; [congruence | reflexivity].
      * exists post; simpl. split; [congruence | assumption].
    + exists post. split; [simpl; congruence | assumption].
Qed.

(** The shape of a right-stripped string: empty, or ending in a character
    that is not white space. *)
Lemma rstrip_shape (s : pystr) :
  rstrip s = [] \/
  exists l c, rstrip s = l ++ [c] /\ isspace c = false.
Proof.
  induction s as [|c t IH]; simpl; auto.
  destruct (rstrip t) as [|x r] eqn:Hr.
  - destruct (isspace c) eqn:Hc; auto.
    right. exists [], c. auto.
  - right. destruct IH as [IH | [l [d [Hl Hd]]]]; [discriminate|].
    exists (c :: l), d. rewrite Hl. auto.
Qed.

Lemma rstrip_snoc (l : pystr) (c : char) :
  isspace c = false -> rstrip (l ++ [c]) = l ++ [c].
Proof.
  intros Hc. induction l as [|x l IH]; simpl.
  - now rewrite Hc.
  - rewrite IH. destruct l; reflexivity.
Qed.

Lemma rstrip_idem (s : pystr) : rstrip (rstrip s) = rstrip s.
Proof.
  destruct (rstrip_shape s) as [H | [l [c [H Hc]]]]; rewrite H.
  - reflexivity.
  - now apply rstrip_snoc.
Qed.

Lemma rstrip_last (s : pystr) :
  not_space_opt (last_char (rstrip s)) = true.
Proof.
  destruct (rstrip_shape s) as [H | [l [c [H Hc]]]]; rewrite H.
  - reflexivity.
  - unfold last_char. rewrite rev_app_distr. simpl. now rewrite Hc.
Qed.

(** Right-stripping keeps the first character of what it leaves. *)
Lemma rstrip_first (s : pystr) :
  not_space_opt (first_char s) = true ->
  not_space_opt (first_char (rstrip s)) = true.
Proof.
  destruct s as [|c t]; simpl; auto.
  destruct (rstrip t); [destruct (isspace c) eqn:Hc|]; simpl; auto.
  now rewrite Hc.
Qed.

Lemma strip_decomp (s : pystr) :
  exists pre post,
    s = pre ++ strip s ++ post
    /\ forallb isspace pre = true /\ forallb isspace post = true.
Proof.
  destruct (lstrip_decomp s) as [pre [Hs Hpre]].
  destruct (rstrip_decomp (lstrip s)) as [post [Hl Hpost]].
  exists pre, post. unfold strip. rewrite <- Hl. auto.
Qed.

Lemma strip_first (s : pystr) :
  not_space_opt (first_char (strip s)) = true.
Proof. apply rstrip_first, lstrip_first. Qed.

Lemma strip_last (s : pystr) :
  not_space_opt (last_char (strip s)) = true.
Proof. apply rstrip_last. Qed.

Lemma strip_idem (s : pystr) : strip (strip s) = strip s.
Proof.
  unfold strip at 1. rewrite (lstrip_fixed (strip s) (strip_first s)).
  apply rstrip_idem.
Qed.

End StripFacts.

(** ** [sanitize_filename] *)

Lemma re_sub_unsafe_map (s : pystr) :
  re_sub_class unsafe_chars [underscore] s = List.map replace_unsafe s.
Proof.
  induction s as [|c t IH]; [reflexivity|].
  cbn [re_sub_class List.map]. rewrite IH.
  unfold replace_unsafe, is_unsafe.
  destruct (in_class unsafe_chars c); reflexivity.
Qed.

Lemma replace_unsafe_safe (c : char) : is_unsafe (replace_unsafe c) = false.
Proof.
  unfold replace_unsafe. destruct (is_unsafe c) eqn:Hc; auto.
Qed.

Lemma replace_unsafe_fixed (s : pystr) :
  forallb (fun c => negb (is_unsafe c)) s = true ->
  List.map replace_unsafe s = s.
Proof.
  induction s as [|c t IH]; [reflexivity|].
  cbn [forallb List.map]. intros H. apply andb_true_iff in H as [Hc Ht].
  unfold replace_unsafe at 1.
  apply negb_true_iff in Hc. rewrite Hc, IH; auto.
Qed.

Lemma sanitize_filename_safe (name : pystr) :
  forallb (fun c => negb (is_unsafe c)) (sanitize_filename name) = true.
Proof.
  unfold sanitize_filename. rewrite re_sub_unsafe_map.
  destruct (strip_decomp (List.map replace_unsafe name))
    as [pre [post [Hm _]]].
  assert (Hall : forallb (fun c => negb (is_unsafe c))
                   (List.map replace_unsafe name) = true).
  { rewrite forallb_forall. intros c Hin.
    apply in_map_iff in Hin as [d [<- _]].
    now rewrite replace_unsafe_safe. }
  rewrite Hm in Hall at 1.
  rewrite !forallb_app in Hall.
  apply andb_true_iff in Hall as [_ Hall].
  now apply andb_true_iff in Hall as [Hall _].
Qed.

(** C1: the destination name is the handle with every unsafe character
    replaced by an underscore and the surrounding white space removed: the
    replaced handle is the result between two runs of white space, the result
    holds no unsafe character, it neither starts nor ends with white space,
    and the handle a/b:c gives a_b_c. *)
Theorem sanitize_filename_spec : forall name : pystr,
  (exists pre post,
      List.map replace_unsafe name = pre ++ sanitize_filename name ++ post
      /\ forallb isspace pre = true /\ forallb isspace post = true)
  /\ forallb (fun c => negb (is_unsafe c)) (sanitize_filename name) = true
  /\ not_space_opt (first_char (sanitize_filename name)) = true
  /\ not_space_opt (last_char (sanitize_filename name)) = true
  /\ sanitize_filename (lit "a/b:c") = lit "a_b_c".
Proof.
  intros name. repeat split.
  - unfold sanitize_filename. rewrite re_sub_unsafe_map. apply strip_decomp.
  - apply sanitize_filename_safe.
  - apply strip_first.
  - apply strip_last.
Qed.

(** C10: sanitizing a sanitized name changes nothing. *)
Theorem sanitize_filename_idempotent : forall s : pystr,
  sanitize_filename (sanitize_filename s) = sanitize_filename s.
Proof.
  intros s. unfold sanitize_filename at 1.
  rewrite re_sub_unsafe_map.
  rewrite (replace_unsafe_fixed _ (sanitize_filename_safe s)).
  apply strip_idem.
Qed.


(** ** The retry loop, as a relation *)

Section LoopRuns.

Context {Post W : Type}.
Variable cl : Client Post W.
Variables (post : Post) (safe_name : pystr).
Variables (per_post_retries : Z) (backoff_base : float).

Local Open Scope float_scope.

Local Abbreviation retry_events := (retry_events cl per_post_retries).
Local Abbreviation loop_run :=
  (loop_run cl post safe_name per_post_retries backoff_base).

Lemma log_log (s : state Post W) w1 evs1 w2 evs2 :
  log (log s w1 evs1) w2 evs2 = log s w2 (evs1 ++ evs2).
Proof. unfold log; simpl. now rewrite app_assoc. Qed.

Lemma log_nil (s : state Post W) : log s (world s) [] = s.
Proof. destruct s; unfold log; simpl. now rewrite app_nil_r. Qed.

(** The body of the loop when the condition holds, and the loop in terms
    of it. *)
Lemma retry_loop_body attempt total :
  retry_loop cl post safe_name per_post_retries backoff_base attempt total =
  if (attempt <=? per_post_retries)%Z then
    try_except
      (bind (call_r (EvDownloadPost post safe_name)
               (download_post cl post safe_name))
         (fun _ => ret (LoopEnd (total + 1))))
      (fun e =>
         if is_KeyboardInterrupt e then
           bind (print msg_interrupted) (fun _ => ret (FnReturn total))
         else if is_ConnectionException e then
           bind (retry_after cl e per_post_retries backoff_base (attempt + 1)%Z)
             (fun _ => retry_loop cl post safe_name per_post_retries
                         backoff_base (attempt + 1)%Z total)
         else if is_Exception e then
           bind (retry_after cl e per_post_retries backoff_base (attempt + 1)%Z)
             (fun _ => retry_loop cl post safe_name per_post_retries
                         backoff_base (attempt + 1)%Z total)
         else raise e)
  else ret (LoopEnd total).
Proof.
  rewrite retry_loop_equation_1.
  change (attempt <=? per_post_retries)%Z
    with (proj1_sig (inspect (attempt <=? per_post_retries)%Z)) at 2.
  destruct (inspect (attempt <=? per_post_retries)%Z) as [[|] H];
    reflexivity.
Qed.

Lemma retry_after_run e attempt s :
  retry_after cl e per_post_retries backoff_base attempt s =
  match float_pow cl backoff_base attempt with
  | Raise x => (Raise x, s)
  | Ok p =>
      let (u, w2) := random cl (world s) in
      let (r, w3) := sleep cl (wait_of p u) w2 in
      (r, log s w3 (retry_events e attempt p u r))
  end.
Proof.
  unfold retry_after, backoff_wait, uniform, bind, lift, ret, print, emit,
    py_sleep, call_r.
  destruct (float_pow cl backoff_base attempt) as [p|x]; [|reflexivity].
  destruct (random cl (world s)) as [u w2]. simpl.
  fold (wait_of p u).
  destruct (sleep cl (wait_of p u) w2) as [r w3].
  unfold log, retry_events. simpl. rewrite <- !app_assoc. reflexivity.
Qed.

Lemma download_step (total : Z) s :
  bind (call_r (EvDownloadPost post safe_name)
          (download_post cl post safe_name))
    (fun _ => ret (LoopEnd (total + 1))) s =
  match download_post cl post safe_name (world s) with
  | (Ok a, w1) =>
      (Ok (LoopEnd (total + 1)),
       log s w1 [EvDownloadPost post safe_name (Ok a)])
  | (Raise e, w1) =>
      (Raise e, log s w1 [EvDownloadPost post safe_name (Raise e)])
  end.
Proof.
  unfold bind, call_r, ret.
  destruct (download_post cl post safe_name (world s)) as [[a|e] w1];
    reflexivity.
Qed.

Lemma connection_is_exception e :
  is_ConnectionException e = true -> is_Exception e = true.
Proof. destruct e; simpl; congruence. Qed.

Lemma exception_not_interrupt e :
  is_Exception e = true -> is_KeyboardInterrupt e = false.
Proof. destruct e; simpl; congruence. Qed.

(** The handler chain of the loop, by the class of the exception. *)
Lemma retry_handler_cases e :
  e = KeyboardInterrupt \/
  (is_KeyboardInterrupt e = false /\ is_Exception e = true) \/
  (is_KeyboardInterrupt e = false /\ is_Exception e = false
   /\ is_ConnectionException e = false).
Proof. destruct e; simpl; auto. Qed.

(** The loop of the model runs as the relation says: it always ends, in
    one of the seven ways. *)
Lemma retry_loop_run attempt total s :
  exists r w' evs,
    retry_loop cl post safe_name per_post_retries backoff_base
      attempt total s = (r, log s w' evs)
    /\ loop_run attempt total (world s) r w' evs.
Proof.
  remember (Z.to_nat (per_post_retries + 1 - attempt)) as n eqn:Hn.
  revert attempt total s Hn.
  induction n as [n IH] using lt_wf_ind. intros attempt total s Hn.
  rewrite retry_loop_body.
  destruct (attempt <=? per_post_retries)%Z eqn:Hle.
  2:{ apply Z.leb_gt in Hle. exists (Ok (LoopEnd total)), (world s), [].
      rewrite log_nil. split; [reflexivity | now apply run_exhausted]. }
  apply Z.leb_le in Hle.
  unfold try_except. rewrite download_step.
  destruct (download_post cl post safe_name (world s)) as [[a|e] w1] eqn:Hd.
  - do 3 eexists. split; [reflexivity | now apply run_success].
  - cbn iota beta.
    assert (Hretry : is_Exception e = true ->
      exists r w' evs,
        bind (retry_after cl e per_post_retries backoff_base (attempt + 1))
          (fun _ => retry_loop cl post safe_name per_post_retries
                      backoff_base (attempt + 1) total)
          (log s w1 [EvDownloadPost post safe_name (Raise e)])
        = (r, log s w' evs)
        /\ loop_run attempt total (world s) r w' evs).
    { intros He. unfold bind. rewrite retry_after_run.
      destruct (float_pow cl backoff_base (attempt + 1)) as [p|x] eqn:Hp.
      2:{ do 3 eexists. split; [reflexivity|]. eapply run_pow_error; eauto. }
      change (world (log s w1 [EvDownloadPost post safe_name (Raise e)]))
        with w1.
      destruct (random cl w1) as [u w2] eqn:Hu.
      destruct (sleep cl (wait_of p u) w2) as [[a|x] w3] eqn:Hs.
      - rewrite log_log.
        destruct (IH (Z.to_nat (per_post_retries + 1 - (attempt + 1)))
                    ltac:(lia) (attempt + 1)%Z total
                    (log s w3 ([EvDownloadPost post safe_name (Raise e)]
                               ++ retry_events e (attempt + 1) p u (Ok a)))
                    eq_refl) as [r [w' [evs [Hrun Hrel]]]].
        rewrite Hrun, log_log. do 3 eexists. split; [reflexivity|].
        eapply run_retry; eauto.
      - rewrite log_log. do 3 eexists. split; [reflexivity|].
        eapply run_sleep_error; eauto. }
    destruct (retry_handler_cases e) as [-> | [[Hk He] | [Hk [He Hc]]]].
    + cbn. do 3 eexists. unfold log at 1; simpl. rewrite <- app_assoc.
      split; [reflexivity | now apply run_interrupt].
    + rewrite Hk.
      destruct (is_ConnectionException e); [|rewrite He]; now apply Hretry.
    + rewrite Hk, Hc, He. do 3 eexists.
      split; [reflexivity | now apply run_escape].
Qed.

End LoopRuns.

(** ** The loop over the posts, as a relation *)

Section PostsRuns.

Context {Post W : Type}.
Variable cl : Client Post W.
Variable safe_name : pystr.
Variables (min_delay max_delay : float).
Variables (per_post_retries : Z) (backoff_base : float).

Local Open Scope float_scope.

Local Abbreviation pacing_time := (pacing_time min_delay max_delay).
Local Abbreviation pacing_events := (pacing_events cl min_delay max_delay).
Local Abbreviation posts_run :=
  (posts_run cl safe_name min_delay max_delay per_post_retries backoff_base).

Lemma pacing_sleep_run s :
  pacing_sleep cl min_delay max_delay s =
  let (u1, w1) := random cl (world s) in
  let (u2, w2) := random cl w1 in
  let (r, w3) := sleep cl (pacing_time u1 u2) w2 in
  (r, log s w3 (pacing_events u1 u2 r)).
Proof.
  unfold pacing_sleep, uniform, bind, ret, print, emit, py_sleep, call_r.
  destruct (random cl (world s)) as [u1 w1]. simpl.
  destruct (random cl w1) as [u2 w2]. simpl.
  fold (pacing_time u1 u2).
  destruct (sleep cl (pacing_time u1 u2) w2) as [r w3].
  unfold log, pacing_events. simpl. rewrite <- !app_assoc. reflexivity.
Qed.

Lemma for_posts_run it total s :
  exists r w' evs,
    for_posts cl it safe_name min_delay max_delay per_post_retries
      backoff_base total s = (r, log s w' evs)
    /\ posts_run it total (world s) r w' evs.
Proof.
  revert total s. induction it as [|post rest IH|e]; intros total s.
  - do 3 eexists. split; [reflexivity | apply posts_stop].
  - cbn [for_posts]. unfold bind at 1.
    destruct (retry_loop_run cl post safe_name per_post_retries backoff_base
                0 total s) as [r [w1 [evs [Hrun Hrel]]]].
    rewrite Hrun.
    destruct r as [[t|t]|e].
    + unfold bind. rewrite pacing_sleep_run.
      change (world (log s w1 evs)) with w1.
      destruct (random cl w1) as [u1 w2] eqn:Hu1.
      destruct (random cl w2) as [u2 w3] eqn:Hu2.
      destruct (sleep cl (pacing_time u1 u2) w3) as [[a|x] w4] eqn:Hs.
      * rewrite log_log.
        destruct (IH t (log s w4 (evs ++ pacing_events u1 u2 (Ok a))))
          as [r [w' [evs' [Hrun' Hrel']]]].
        rewrite Hrun', log_log, <- app_assoc.
        do 3 eexists. split; [reflexivity|].
        eapply posts_next; eauto.
      * rewrite log_log. do 3 eexists. split; [reflexivity|].
        eapply posts_pacing_raise; eauto.
    + do 3 eexists. split; [reflexivity|]. now apply posts_return.
    + do 3 eexists. split; [reflexivity|]. now apply posts_loop_raise.
  - exists (Raise e), (world s), []. rewrite log_nil.
    split; [reflexivity | apply posts_iter_raise].
Qed.

End PostsRuns.

(** ** The whole downloader, as a relation *)

Section DownloadRuns.

Context {Post W : Type}.
Variable cl : Client Post W.
Variable prof : profile.
Variables (min_delay max_delay : float).
Variables (per_post_retries : Z) (backoff_base : float).

Local Abbreviation start_message := (start_message prof).
Local Abbreviation setup_events := (@setup_events Post prof).
Local Abbreviation download_run :=
  (download_run cl prof min_delay max_delay per_post_retries backoff_base).

Lemma download_posts_with_delays_run s :
  exists r w' evs,
    download_posts_with_delays cl prof min_delay max_delay per_post_retries
      backoff_base s = (r, log s w' evs)
    /\ download_run (world s) r w' evs.
Proof.
  unfold download_posts_with_delays, bind, call, print, emit.
  destruct (makedirs cl (sanitize_filename (username prof)) (world s))
    as [[a|x] w1] eqn:Hm.
  2:{ do 3 eexists. split; [reflexivity|]. now apply download_mkdir_raise. }
  cbn [world trace].
  destruct (get_posts cl prof w1) as [[it|x] w2] eqn:Hg.
  2:{ exists (Raise x), w2, setup_events. split.
      - unfold log, setup_events, start_message. simpl.
        rewrite <- !app_assoc. reflexivity.
      - eapply download_listing_raise; eauto. }
  destruct (for_posts_run cl (sanitize_filename (username prof)) min_delay
              max_delay per_post_retries backoff_base it 0
              (log s w2 setup_events)) as [r [w' [evs [Hrun Hrel]]]].
  exists r, w', (setup_events ++ evs). split.
  - rewrite <- (log_log s w2 setup_events w' evs), <- Hrun. f_equal.
    unfold log, setup_events, start_message. simpl.
    rewrite <- !app_assoc. reflexivity.
  - eapply download_posts; eauto.
Qed.

End DownloadRuns.

(** ** Reading a trace *)

Section TraceFacts.

Context {Post : Type}.

Lemma attempts_app (l1 l2 : list (event Post)) :
  attempts (l1 ++ l2) = (attempts l1 + attempts l2)%nat.
Proof. unfold attempts. now rewrite filter_app, length_app. Qed.

Lemma successes_app (l1 l2 : list (event Post)) :
  successes (l1 ++ l2) = successes l1 + successes l2.
Proof. unfold successes. rewrite filter_app, length_app. lia. Qed.

Lemma waits_app (l1 l2 : list (event Post)) :
  waits (l1 ++ l2) = waits l1 ++ waits l2.
Proof. unfold waits. now rewrite flat_map_app. Qed.

Lemma draws_app (l1 l2 : list (event Post)) :
  draws (l1 ++ l2) = draws l1 ++ draws l2.
Proof. unfold draws. now rewrite flat_map_app. Qed.

Lemma calm_app (l1 l2 : list (event Post)) :
  calm (l1 ++ l2) = calm l1 && calm l2.
Proof. unfold calm. now rewrite forallb_app. Qed.

End TraceFacts.

(** The calls of one computation, and what the readings make of an
    appended trace. *)

Section CallsFacts.

Context {Post W : Type}.

Lemma calls_log {A} (c : M Post W A) (s : state Post W) r w evs :
  c s = (r, log s w evs) -> calls c s = evs.
Proof.
  intros H. unfold calls. rewrite H. simpl.
  rewrite skipn_app, skipn_all, Nat.sub_diag. reflexivity.
Qed.

Lemma calls_trace {A} (c : M Post W A) (s : state Post W) evs :
  trace (snd (c s)) = trace s ++ evs -> calls c s = evs.
Proof.
  intros H. unfold calls. rewrite H.
  rewrite skipn_app, skipn_all, Nat.sub_diag. reflexivity.
Qed.

Lemma calls_emits {A} P (c : M Post W A) (s : state Post W) :
  emits P c -> forallb P (calls c s) = true.
Proof.
  intros H. destruct (H s) as [evs [Ht Hp]]. now rewrite (@calls_trace A c s evs Ht).
Qed.

Lemma targets_app (l1 l2 : list (event Post)) :
  targets (l1 ++ l2) = targets l1 ++ targets l2.
Proof. apply flat_map_app. Qed.

Lemma downloaded_app (l1 l2 : list (event Post)) :
  downloaded (l1 ++ l2) = downloaded l1 ++ downloaded l2.
Proof. apply flat_map_app. Qed.

Lemma attempted_app (l1 l2 : list (event Post)) :
  attempted (l1 ++ l2) = attempted l1 ++ attempted l2.
Proof. apply flat_map_app. Qed.

Lemma successes_downloaded (evs : list (event Post)) :
  successes evs = Z.of_nat (List.length (downloaded evs)).
Proof.
  unfold successes. f_equal.
  induction evs as [|ev evs IH]; [reflexivity|].
  destruct ev as [| | | | | | | | | | | | | | | |p n [a|e]]; simpl; auto.
Qed.

(** A wait that completed lets the next download call through. *)
Lemma paced_sleep b (l1 : list (event Post)) d a l2 :
  paced b (l1 ++ EvSleep d (Ok a) :: l2) = paced b l1 && paced true l2.
Proof.
  revert b. induction l1 as [|ev l1 IH]; intros b; [reflexivity|].
  destruct ev as [| | | | | |d' [a'|e]| | | | | | | | | |p n o]; simpl; auto.
  rewrite IH. now rewrite andb_assoc.
Qed.

Lemma paced_quiet b (l1 l2 : list (event Post)) :
  forallb (fun ev => negb (is_download ev)) l2 = true ->
  paced b (l1 ++ l2) = paced b l1.
Proof.
  intros H. revert b. induction l1 as [|ev l1 IH]; intros b.
  - simpl. revert b. induction l2 as [|ev l2 IH2]; intros b; [reflexivity|].
    simpl in H. apply andb_true_iff in H as [Hev Hl2].
    destruct ev as [| | | | | |d' [a'|e]| | | | | | | | | |p n o]; simpl; auto.
    discriminate Hev.
  - destruct ev as [| | | | | |d' [a'|e]| | | | | | | | | |p n o]; simpl; auto.
    now rewrite IH.
Qed.

Lemma paced_suffix b (l1 l2 : list (event Post)) :
  paced b (l1 ++ l2) = true -> exists b', paced b' l2 = true.
Proof.
  revert b. induction l1 as [|ev l1 IH]; intros b H; [eauto|].
  destruct ev as [| | | | | |d' [a'|e]| | | | | | | | | |p n o];
    simpl in H; eauto.
  apply andb_true_iff in H as [_ H]. eauto.
Qed.

(** Between a download call and the next one a wait has completed. *)
Lemma paced_between (mid : list (event Post)) p n o l2 :
  paced false (mid ++ EvDownloadPost p n o :: l2) = true ->
  exists d a, In (EvSleep d (Ok a)) mid.
Proof.
  induction mid as [|ev mid IH]; simpl; [discriminate|].
  destruct ev as [| | | | | |d' [a'|e]| | | | | | | | | |p' n' o'];
    intros H;
    try (destruct (IH H) as [d [a Hin]]; exists d, a; now right).
  - exists d', a'. now left.
  - discriminate H.
Qed.

Lemma subseq_app {A} (l1 l2 m1 m2 : list A) :
  subseq l1 m1 -> subseq l2 m2 -> subseq (l1 ++ l2) (m1 ++ m2).
Proof.
  induction 1; simpl; intros H2; auto.
  - now apply subseq_skip, IHsubseq.
  - now apply subseq_keep, IHsubseq.
Qed.

Lemma subseq_nil_l {A} (l : list A) : subseq [] l.
Proof. induction l; [apply subseq_nil | now apply subseq_skip]. Qed.

Lemma subseq_extend {A} (l m1 m2 : list A) :
  subseq l m1 -> subseq l (m1 ++ m2).
Proof.
  intros H. rewrite <- (app_nil_r l).
  exact (subseq_app H (subseq_nil_l m2)).
Qed.

Lemma subseq_length {A} (l1 l2 : list A) :
  subseq l1 l2 -> (List.length l1 <= List.length l2)%nat.
Proof. induction 1; simpl; lia. Qed.

End CallsFacts.

(** ** Retry exhaustion *)

Section Exhaustion.

Context {Post W : Type}.
Variable cl : Client Post W.
Variables (post : Post) (safe_name : pystr).
Variables (per_post_retries : Z) (backoff_base : float).

Hypothesis powers_finite : forall a,
  1 <= a <= per_post_retries + 1 ->
  exists p, float_pow cl backoff_base a = Ok p.

(** A run of the loop in which every download failed with an Exception
    and every wait completed uses up all the attempts that are left. *)
Lemma loop_run_exhausts attempt total w r w' evs :
  loop_run cl post safe_name per_post_retries backoff_base
    attempt total w r w' evs ->
  0 <= attempt ->
  every_download_failed evs = true ->
  every_wait_completed evs = true ->
  r = Ok (LoopEnd total)
  /\ attempts evs = Z.to_nat (per_post_retries + 1 - attempt)
  /\ successes evs = 0.
Proof.
  induction 1 as
    [attempt total w Hgt
    |attempt total w a w1 Hle Hd
    |attempt total w w1 Hle Hd
    |attempt total w e w1 Hle Hd Hk He
    |attempt total w e w1 x Hle Hd He Hp
    |attempt total w e w1 p u w2 x w3 Hle Hd He Hp Hu Hs
    |attempt total w e w1 p u w2 a w3 r w' evs Hle Hd He Hp Hu Hs Hrun IH];
    intros Hpos Hfail Hwait.
  - repeat split. unfold attempts. simpl. lia.
  - discriminate Hfail.
  - discriminate Hfail.
  - simpl in Hfail. rewrite He in Hfail. discriminate Hfail.
  - destruct (@powers_finite (attempt + 1)) as [p Hp']; [lia | congruence].
  - simpl in Hwait. discriminate Hwait.
  - simpl in Hfail, Hwait. rewrite He in Hfail.
    destruct IH as [-> [Ha Hs0]]; [lia | exact Hfail | exact Hwait |].
    repeat split.
    + rewrite attempts_app, Ha. unfold attempts. simpl. lia.
    + rewrite successes_app, Hs0. reflexivity.
Qed.

End Exhaustion.




(** The same faults under a clock that rejects what [time.sleep] rejects.
    With 40 retries and base 2.0 the wait after the 34th failure, more
    than 2^63 nanoseconds, is refused with OverflowError; with base -3.0
    the first wait is negative and refused with ValueError.  Either error
    is raised inside the handler and leaves the downloader, and the second
    post is never attempted. *)
Example failing_post_rejected_wait :
  let cl := Scripted.clocked Runs.failing (lit "") 0.5 in
  let long :=
    download_posts_with_delays cl {| username := lit "a" |} 4 9 40 2
      Scripted.begin in
  let negative :=
    download_posts_with_delays cl {| username := lit "a" |} 4 9 3 (-3)
      Scripted.begin in
  fst long
  = Raise (OverflowError
             (lit "timestamp too large to convert to C _PyTime_t"))
  /\ attempts (trace (snd long)) = 34%nat
  /\ existsb (Runs.is_download_of 2) (trace (snd long)) = false
  /\ fst negative
     = Raise (OtherException (lit "sleep length must be non-negative"))
  /\ attempts (trace (snd negative)) = 1%nat
  /\ existsb (Runs.is_download_of 2) (trace (snd negative)) = false.
Proof. vm_compute. repeat split. Qed.

(** ** Where an exception that leaves the downloader comes from *)

Section Provenance.

Context {Post W : Type}.
Variable cl : Client Post W.
Variable Q : exn -> Prop.
Variables (per_post_retries : Z) (backoff_base : float).

Local Abbreviation iter_raises := (iter_raises Q).
Local Abbreviation raises_only := (raises_only Q).

Hypothesis wait_raises : forall d w x w1,
  sleep cl d w = (Raise x, w1) -> Q x.
Hypothesis power_raises : forall a x,
  1 <= a <= per_post_retries + 1 ->
  float_pow cl backoff_base a = Raise x -> Q x.
Hypothesis base_exception_raises : forall p n w x w1,
  download_post cl p n w = (Raise x, w1) ->
  is_Exception x = false -> is_KeyboardInterrupt x = false -> Q x.

Lemma loop_run_raises post safe_name attempt total w r w' evs :
  loop_run cl post safe_name per_post_retries backoff_base
    attempt total w r w' evs ->
  0 <= attempt -> raises_only r.
Proof.
  induction 1; simpl; intros Hpos; eauto.
  - eapply power_raises; [|eassumption]. lia.
  - apply IHloop_run. lia.
Qed.

Lemma posts_run_raises safe_name mn mx it total w r w' evs :
  posts_run cl safe_name mn mx per_post_retries backoff_base
    it total w r w' evs ->
  iter_raises it -> raises_only r.
Proof.
  induction 1; simpl; intros Hit; eauto.
  - refine (loop_run_raises H _). lia.
Qed.

End Provenance.

Section HandledFailures.

Context {Post W : Type}.
Variable cl : Client Post W.
Variables (post : Post) (safe_name : pystr).
Variables (per_post_retries : Z) (backoff_base : float).

Hypothesis powers_finite : forall a,
  1 <= a <= per_post_retries + 1 ->
  exists p, float_pow cl backoff_base a = Ok p.

(** A run of the loop in which no download raised anything but an
    Exception and every wait completed: the loop ends without raising,
    having waited once after every failure, either at the first success
    or with all the attempts that were left used up. *)
Lemma loop_run_handled attempt total w r w' evs :
  loop_run cl post safe_name per_post_retries backoff_base
    attempt total w r w' evs ->
  0 <= attempt ->
  no_download_escaped evs = true ->
  every_wait_completed evs = true ->
  exists t,
    r = Ok (LoopEnd t)
    /\ (List.length (waits evs) + List.length (downloaded evs))%nat
       = attempts evs
    /\ ((t = total + 1
         /\ (attempts evs <= Z.to_nat (per_post_retries + 1 - attempt))%nat
         /\ exists pre a,
              evs = pre ++ [EvDownloadPost post safe_name (Ok a)]
              /\ every_download_failed pre = true)
        \/ (t = total
            /\ attempts evs = Z.to_nat (per_post_retries + 1 - attempt)
            /\ every_download_failed evs = true)).
Proof.
  induction 1 as
    [attempt total w Hgt
    |attempt total w a w1 Hle Hd
    |attempt total w w1 Hle Hd
    |attempt total w e w1 Hle Hd Hk He
    |attempt total w e w1 x Hle Hd He Hp
    |attempt total w e w1 p u w2 x w3 Hle Hd He Hp Hu Hs
    |attempt total w e w1 p u w2 a w3 r w' evs Hle Hd He Hp Hu Hs Hrun IH];
    intros Hpos Hesc Hwait.
  - exists total. repeat split. right. repeat split.
    unfold attempts. simpl. lia.
  - exists (total + 1). repeat split. left. repeat split.
    + unfold attempts. simpl. lia.
    + exists [], a. auto.
  - discriminate Hesc.
  - simpl in Hesc. rewrite He in Hesc. discriminate Hesc.
  - destruct (@powers_finite (attempt + 1)) as [p Hp']; [lia | congruence].
  - simpl in Hwait. discriminate Hwait.
  - simpl in Hesc, Hwait. rewrite He in Hesc.
    destruct IH as [t [-> [Hcount Hcases]]];
      [lia | exact Hesc | exact Hwait |].
    exists t. split; [reflexivity|]. split.
    + rewrite waits_app, downloaded_app, attempts_app, !length_app.
      unfold attempts in *. simpl. lia.
    + destruct Hcases as [[-> [Ha [pre [a' [-> Hpre]]]]] | [-> [Ha Hall]]].
      * left. repeat split.
        -- rewrite attempts_app. unfold attempts in *. simpl. lia.
        -- exists ((EvDownloadPost post safe_name (Raise e)
                    :: retry_events cl per_post_retries e (attempt + 1) p u
                         (Ok a)) ++ pre), a'.
           split; [now rewrite <- app_assoc|].
           unfold every_download_failed. rewrite forallb_app.
           simpl. rewrite He. exact Hpre.
      * right. repeat split.
        -- rewrite attempts_app, Ha. unfold attempts. simpl. lia.
        -- unfold every_download_failed. rewrite forallb_app.
           simpl. rewrite He. exact Hall.
Qed.

End HandledFailures.

(** C6, as amended: a download failure of class Exception never leaves
    the paced downloader, and the loop handles it by retrying.  First,
    whatever the downloads raise, an exception leaves the downloader only
    if a wait, the power, the creation of the directory or the listing of
    the posts raised it, or if a download raised something that is
    neither an Exception nor a KeyboardInterrupt: for any property Q of
    all those (the powers being backoff_base ** 1 .. ** (R + 1)), the
    downloader returns a count or raises an exception with Q.  Second, in
    a run of a post's retry loop in which no download raised anything but
    an Exception and every wait completed, the powers being finite, the
    loop ends without raising, it has waited once after every failed
    download, and either its last call is the first download that
    succeeded, made at the latest as the (R + 1)-th attempt and counted,
    or all R + 1 attempts failed and the counter is unchanged; either
    way the loop over the posts goes on with the pacing sleep and the
    next post. *)
Theorem download_failures_never_propagate :
  forall (Post W : Type) (cl : Client Post W) (Q : exn -> Prop)
    (prof : profile) (min_delay max_delay : float) (per_post_retries : Z)
    (backoff_base : float) (s : state Post W),
  ((forall d w x w1, sleep cl d w = (Raise x, w1) -> Q x) ->
   (forall a x, 1 <= a <= per_post_retries + 1 ->
      float_pow cl backoff_base a = Raise x -> Q x) ->
   (forall n w x w1, makedirs cl n w = (Raise x, w1) -> Q x) ->
   (forall w x w1, get_posts cl prof w = (Raise x, w1) -> Q x) ->
   (forall w it w1, get_posts cl prof w = (Ok it, w1) -> iter_raises Q it) ->
   (forall p n w x w1,
       download_post cl p n w = (Raise x, w1) ->
       is_Exception x = false -> is_KeyboardInterrupt x = false -> Q x) ->
   raises_only Q
     (fst (download_posts_with_delays cl prof min_delay max_delay
             per_post_retries backoff_base s)))
  /\ (forall (post : Post) (rest : post_iter Post) (safe_name : pystr)
        (total : Z) (s0 : state Post W),
      let run :=
        retry_loop cl post safe_name per_post_retries backoff_base 0 total in
      0 <= per_post_retries ->
      no_download_escaped (calls run s0) = true ->
      every_wait_completed (calls run s0) = true ->
      (forall a, 1 <= a <= per_post_retries + 1 ->
         exists p, float_pow cl backoff_base a = Ok p) ->
      exists t,
        fst (run s0) = Ok (LoopEnd t)
        /\ (List.length (waits (calls run s0))
            + List.length (downloaded (calls run s0)))%nat
           = attempts (calls run s0)
        /\ ((t = total + 1
             /\ (attempts (calls run s0)
                 <= Z.to_nat (per_post_retries + 1))%nat
             /\ exists pre a,
                  calls run s0
                  = pre ++ [EvDownloadPost post safe_name (Ok a)]
                  /\ every_download_failed pre = true)
            \/ (t = total
                /\ attempts (calls run s0) = Z.to_nat (per_post_retries + 1)
                /\ every_download_failed (calls run s0) = true))
        /\ for_posts cl (IterYield post rest) safe_name min_delay max_delay
             per_post_retries backoff_base total s0
           = bind (pacing_sleep cl min_delay max_delay)
               (fun _ => for_posts cl rest safe_name min_delay max_delay
                           per_post_retries backoff_base t)
               (snd (run s0))).
Proof.
  intros Post W cl Q prof mn mx R b s. split.
  - intros Hwait Hpow Hmk Hget Hit Hdl.
    destruct (download_posts_with_delays_run cl prof mn mx R b s)
      as [r [w' [evs [Hrun Hrel]]]].
    rewrite Hrun. simpl.
    inversion Hrel; subst; simpl; eauto.
    eapply posts_run_raises; eauto.
  - intros post rest safe_name total s0 run. subst run.
    destruct (retry_loop_run cl post safe_name R b 0 total s0)
      as [r [w' [evs [Hrun Hrel]]]].
    rewrite (calls_log _ Hrun). intros HR Hesc Hwait Hpow.
    destruct (loop_run_handled Hpow Hrel) as [t [-> [Hcount Hcases]]];
      [lia | assumption | assumption |].
    rewrite Z.sub_0_r in Hcases.
    exists t. rewrite Hrun. cbn [fst snd].
    split; [reflexivity|]. split; [exact Hcount|]. split; [exact Hcases|].
    cbn [for_posts]. unfold bind at 1. rewrite Hrun. reflexivity.
Qed.

Lemma download_failures_never_propagate_witness :
  raises_only (fun _ => False)
    (fst (download_posts_with_delays
            (Scripted.steady Runs.failing (lit "") 0.5)
            {| username := lit "a" |} 4 9 3 2 Scripted.begin))
  /\ let cl := Scripted.client (Scripted.all_fine (lit "a") IterStop) in
     let run := retry_loop cl 1%nat (lit "a") 3 2 0 0 in
     let s0 := Scripted.start Runs.twice_failing in
     exists t,
       fst (run s0) = Ok (LoopEnd t)
       /\ (List.length (waits (calls run s0))
           + List.length (downloaded (calls run s0)))%nat
          = attempts (calls run s0)
       /\ ((t = 0 + 1
            /\ (attempts (calls run s0) <= Z.to_nat (3 + 1))%nat
            /\ exists pre a,
                 calls run s0 = pre ++ [EvDownloadPost 1%nat (lit "a") (Ok a)]
                 /\ every_download_failed pre = true)
           \/ (t = 0
               /\ attempts (calls run s0) = Z.to_nat (3 + 1)
               /\ every_download_failed (calls run s0) = true))
       /\ for_posts cl (IterYield 1%nat (IterYield 2%nat IterStop)) (lit "a")
            4 9 3 2 0 s0
          = bind (pacing_sleep cl 4 9)
              (fun _ => for_posts cl (IterYield 2%nat IterStop) (lit "a")
                          4 9 3 2 t)
              (snd (run s0)).
Proof.
  split.
  - apply (proj1 (@download_failures_never_propagate nat unit
                    (Scripted.steady Runs.failing (lit "") 0.5)
                    (fun _ => False) {| username := lit "a" |} 4 9 3 2
                    Scripted.begin)).
    + intros d w x w1 H. discriminate H.
    + intros a x Ha H.
      assert (a = 1 \/ a = 2 \/ a = 3 \/ a = 4) as [->|[->|[->| ->]]] by lia;
        discriminate H.
    + intros n w x w1 H. discriminate H.
    + intros w x w1 H. discriminate H.
    + intros w it w1 H. injection H as <- _. exact I.
    + intros p n w x w1 H. injection H as <- _. discriminate.
  - apply (proj2 (@download_failures_never_propagate nat Scripted.tape
                    (Scripted.client (Scripted.all_fine (lit "a") IterStop))
                    (fun _ => False) {| username := lit "a" |} 4 9 3 2
                    (Scripted.start Runs.twice_failing))
             1%nat (IterYield 2%nat IterStop) (lit "a") 0
             (Scripted.start Runs.twice_failing)).
    + lia.
    + vm_compute. reflexivity.
    + vm_compute. reflexivity.
    + intros a Ha.
      assert (a = 1 \/ a = 2 \/ a = 3 \/ a = 4) as [->|[->|[->| ->]]] by lia;
        eexists; reflexivity.
Defined.

(** Two download failures that are not interrupts and leave the
    downloader.  In the first run the download of the first post raises
    an exception that is not of class Exception (such as GeneratorExit):
    no handler of the loop matches, so it leaves after one attempt.  In
    the second the download fails with a connection error and the wait
    of the handler is refused, the backoff base being negative: the
    error of the wait leaves.  The second post is attempted in neither. *)
Lemma download_failure_leaves_the_downloader :
  let prof := {| username := lit "a" |} in
  let posts := IterYield 1%nat (IterYield 2%nat IterStop) in
  let unhandled :=
    download_posts_with_delays
      (Scripted.client (Scripted.all_fine (lit "a") posts)) prof 4 9 3 2
      (Scripted.start
         {| Scripted.inputs := []; Scripted.passwords := [];
            Scripted.sleeps := []; Scripted.randoms := [];
            Scripted.downloads :=
              [Raise (OtherBaseException (lit "GeneratorExit"))] |}) in
  let refused :=
    download_posts_with_delays
      (Scripted.clocked Runs.failing (lit "") 0.5) prof 4 9 3 (-3)
      Scripted.begin in
  fst unhandled = Raise (OtherBaseException (lit "GeneratorExit"))
  /\ attempts (trace (snd unhandled)) = 1%nat
  /\ existsb (Runs.is_download_of 2) (trace (snd unhandled)) = false
  /\ fst refused
     = Raise (OtherException (lit "sleep length must be non-negative"))
  /\ attempts (trace (snd refused)) = 1%nat
  /\ existsb (Runs.is_download_of 2) (trace (snd refused)) = false.
Proof. vm_compute. repeat split. Qed.

(** ** Interrupts *)

Section Interrupts.

Context {Post W : Type}.
Variable cl : Client Post W.

(** Where the first aborting event of a trace is. *)
Lemma first_abort (pre : list (event Post)) a tl pre' a' tl' :
  calm pre = true -> aborting a = true -> calm tl = true ->
  pre ++ a :: tl = pre' ++ a' :: tl' -> aborting a' = true ->
  pre' = pre /\ a' = a /\ tl' = tl.
Proof.
  revert pre'. induction pre as [|x pre IH]; intros [|y pre'] Hc Ha Ht Heq Ha';
    simpl in Heq; injection Heq as Hh Htl; subst.
  - auto.
  - exfalso. rewrite calm_app in Ht. apply andb_true_iff in Ht as [_ Ht].
    simpl in Ht. unfold aborting in Ha'. now rewrite Ha' in Ht.
  - exfalso. simpl in Hc. unfold aborting in Ha'. now rewrite Ha' in Hc.
  - simpl in Hc. apply andb_true_iff in Hc as [_ Hc].
    destruct (IH pre' Hc Ha Ht Htl Ha') as [-> [-> ->]]. auto.
Qed.

Lemma calm_no_abort (evs : list (event Post)) pre a tl :
  calm evs = true -> evs = pre ++ a :: tl -> aborting a = false.
Proof.
  intros Hc ->. rewrite calm_app in Hc. apply andb_true_iff in Hc as [_ Hc].
  simpl in Hc. apply andb_true_iff in Hc as [Hc _].
  now apply negb_true_iff in Hc.
Qed.

Lemma ending_prepend total (pre : list (event Post)) r evs :
  calm pre = true ->
  ending (total + successes pre) r evs ->
  ending total r (pre ++ evs).
Proof.
  intros Hpre H. inversion H; subst.
  - replace (total + successes pre + successes evs)
      with (total + successes (pre ++ evs))
      by (rewrite successes_app; lia).
    apply ending_calm_ok. rewrite calm_app. now rewrite Hpre.
  - apply ending_calm_raise. rewrite calm_app. now rewrite Hpre.
  - replace (total + successes pre + successes pre0)
      with (total + successes (pre ++ pre0))
      by (rewrite successes_app; lia).
    rewrite app_assoc. apply ending_interrupted.
    rewrite calm_app. now rewrite Hpre.
  - rewrite app_assoc. apply ending_broken_wait.
    rewrite calm_app. now rewrite Hpre.
Qed.

Lemma loop_run_ending post safe_name R b attempt total w r w' evs :
  loop_run cl post safe_name R b attempt total w r w' evs ->
  ending total (exit_result r) evs
  /\ (forall t, r = Ok (LoopEnd t) ->
        calm evs = true /\ t = total + successes evs).
Proof.
  induction 1 as
    [attempt total w Hgt
    |attempt total w a w1 Hle Hd
    |attempt total w w1 Hle Hd
    |attempt total w e w1 Hle Hd Hk He
    |attempt total w e w1 x Hle Hd He Hp
    |attempt total w e w1 p u w2 x w3 Hle Hd He Hp Hu Hs
    |attempt total w e w1 p u w2 a w3 r w' evs Hle Hd He Hp Hu Hs Hrun IH].
  - split.
    + replace total with (total + successes (@nil (event Post))) at 2
        by (unfold successes; simpl; lia).
      now apply ending_calm_ok.
    + intros t Ht. injection Ht as <-. split; [reflexivity|].
      unfold successes; simpl; lia.
  - split.
    + apply (ending_calm_ok total [EvDownloadPost post safe_name (Ok a)]).
      reflexivity.
    + intros t Ht. injection Ht as <-. split; reflexivity.
  - split; [|discriminate].
    replace total with (total + successes (@nil (event Post))) at 2
      by (unfold successes; simpl; lia).
    apply (ending_interrupted total []). reflexivity.
  - split; [|discriminate].
    apply ending_calm_raise. simpl. destruct e; try discriminate; reflexivity.
  - split; [|discriminate].
    apply ending_calm_raise. simpl. destruct e; try discriminate; reflexivity.
  - split; [|discriminate].
    apply (ending_broken_wait total
             [EvDownloadPost post safe_name (Raise e); EvRandom u;
              EvPrint (retry_message cl e (attempt + 1) R (wait_of p u))]).
    simpl. destruct e; try discriminate; reflexivity.
  - assert (Hpre : calm (EvDownloadPost post safe_name (Raise e)
                         :: retry_events cl R e (attempt + 1) p u (Ok a))
                   = true).
    { simpl. destruct e; try discriminate; reflexivity. }
    assert (Hsucc : successes (EvDownloadPost post safe_name (Raise e)
                         :: retry_events cl R e (attempt + 1) p u (Ok a))
                    = 0) by reflexivity.
    destruct IH as [IH1 IH2]. split.
    + apply ending_prepend; [assumption|]. rewrite Hsucc, Z.add_0_r.
      assumption.
    + intros t Ht. destruct (IH2 t Ht) as [Hc ->]. split.
      * rewrite calm_app, Hpre, Hc. reflexivity.
      * rewrite successes_app, Hsucc. lia.
Qed.

Lemma posts_run_ending safe_name mn mx R b it total w r w' evs :
  posts_run cl safe_name mn mx R b it total w r w' evs ->
  ending total r evs.
Proof.
  induction 1 as
    [total w
    |e total w
    |post rest total w t w1 evs Hloop
    |post rest total w e w1 evs Hloop
    |post rest total w t w1 evs u1 w2 u2 w3 x w4 Hloop Hu1 Hu2 Hs
    |post rest total w t w1 evs u1 w2 u2 w3 a w4 r w' evs' Hloop Hu1 Hu2 Hs
       Hrest IH].
  - replace total
      with (total + @successes Post [EvPrint (finished_message cl total)])
      at 2 by (unfold successes; simpl; lia).
    now apply ending_calm_ok.
  - now apply ending_calm_raise.
  - exact (proj1 (loop_run_ending Hloop)).
  - exact (proj1 (loop_run_ending Hloop)).
  - destruct (proj2 (loop_run_ending Hloop) t eq_refl) as [Hc ->].
    apply ending_prepend; [assumption|].
    apply (ending_broken_wait _
             [EvRandom u1; EvRandom u2;
              EvPrint (stopwatch ++ lit " Sleeping "
                       ++ format_1f cl (pacing_time mn mx u1 u2)
                       ++ lit "s before next post...")]).
    reflexivity.
  - destruct (proj2 (loop_run_ending Hloop) t eq_refl) as [Hc ->].
    apply ending_prepend; [assumption|].
    apply ending_prepend; [reflexivity|].
    replace (successes (pacing_events cl mn mx u1 u2 (Ok a))) with 0
      by reflexivity.
    rewrite Z.add_0_r. assumption.
Qed.

Lemma download_run_ending prof mn mx R b w r w' evs :
  download_run cl prof mn mx R b w r w' evs ->
  ending 0 r evs.
Proof.
  inversion 1; subst.
  - now apply ending_calm_raise.
  - now apply ending_calm_raise.
  - apply ending_prepend; [reflexivity|].
    eapply posts_run_ending; eauto.
Qed.

End Interrupts.

(** C5, as amended: an interrupt raised during a post's download ends the
    paced downloader at once: the interrupted download is its last call,
    only the message follows, and it returns the number of downloads that
    had succeeded.  An interrupt (or any exception) raised during a wait,
    backoff or pacing, is not caught there: the wait is the downloader's
    last call and the exception leaves it, so no count is returned; no
    further post is attempted in either case. *)
Theorem interrupt_ends_the_downloader :
  forall (Post W : Type) (cl : Client Post W) (prof : profile)
    (min_delay max_delay : float) (per_post_retries : Z)
    (backoff_base : float) (s : state Post W),
  exists r w' evs,
    download_posts_with_delays cl prof min_delay max_delay per_post_retries
      backoff_base s = (r, log s w' evs)
    /\ (forall pre p n tl,
          evs = pre ++ EvDownloadPost p n (Raise KeyboardInterrupt) :: tl ->
          tl = [EvPrint msg_interrupted] /\ r = Ok (successes pre))
    /\ (forall pre d x tl,
          evs = pre ++ EvSleep d (Raise x) :: tl ->
          tl = [] /\ r = Raise x).
Proof.
  intros Post W cl prof mn mx R b s.
  destruct (download_posts_with_delays_run cl prof mn mx R b s)
    as [r [w' [evs [Hrun Hrel]]]].
  exists r, w', evs. split; [assumption|].
  apply download_run_ending in Hrel.
  inversion Hrel as [evs0 Hc | x0 evs0 Hc | pre0 p0 n0 Hc | pre0 d0 x0 Hc];
    subst; split.
  - intros pre p n tl Heq. discriminate (calm_no_abort _ _ _ Hc Heq).
  - intros pre d x tl Heq. discriminate (calm_no_abort _ _ _ Hc Heq).
  - intros pre p n tl Heq. discriminate (calm_no_abort _ _ _ Hc Heq).
  - intros pre d x tl Heq. discriminate (calm_no_abort _ _ _ Hc Heq).
  - intros pre p n tl Heq.
    destruct (first_abort pre0
                (EvDownloadPost p0 n0 (Raise KeyboardInterrupt))
                [EvPrint msg_interrupted] pre
                (EvDownloadPost p n (Raise KeyboardInterrupt)) tl
                Hc eq_refl eq_refl Heq eq_refl) as [-> [_ ->]].
    split; reflexivity.
  - intros pre d x tl Heq.
    destruct (first_abort pre0
                (EvDownloadPost p0 n0 (Raise KeyboardInterrupt))
                [EvPrint msg_interrupted] pre (EvSleep d (Raise x)) tl
                Hc eq_refl eq_refl Heq eq_refl) as [_ [Hev _]].
    discriminate Hev.
  - intros pre p n tl Heq.
    destruct (first_abort pre0 (EvSleep d0 (Raise x0)) [] pre
                (EvDownloadPost p n (Raise KeyboardInterrupt)) tl
                Hc eq_refl eq_refl Heq eq_refl) as [_ [Hev _]].
    discriminate Hev.
  - intros pre d x tl Heq.
    destruct (first_abort pre0 (EvSleep d0 (Raise x0)) [] pre
                (EvSleep d (Raise x)) tl
                Hc eq_refl eq_refl Heq eq_refl) as [-> [Hev ->]].
    injection Hev as _ ->. split; reflexivity.
Qed.

(** Two runs on a profile with two posts whose downloads succeed.  In the
    first the pacing sleep after the first post is interrupted, in the
    second the first download fails once and the backoff sleep is
    interrupted: each time the downloader raises KeyboardInterrupt and
    returns no count, although one download (none in the second run) had
    succeeded. *)
Lemma interrupted_wait_returns_no_count :
  let prof := {| username := lit "a" |} in
  let posts := IterYield 1%nat (IterYield 2%nat IterStop) in
  let cl := Scripted.client (Scripted.all_fine (lit "a") posts) in
  let pacing :=
    download_posts_with_delays cl prof 4 9 3 2
      (Scripted.start
         {| Scripted.inputs := []; Scripted.passwords := [];
            Scripted.sleeps := [Raise KeyboardInterrupt];
            Scripted.randoms := []; Scripted.downloads := [] |}) in
  let backoff :=
    download_posts_with_delays cl prof 4 9 3 2
      (Scripted.start
         {| Scripted.inputs := []; Scripted.passwords := [];
            Scripted.sleeps := [Raise KeyboardInterrupt];
            Scripted.randoms := [];
            Scripted.downloads :=
              [Raise (ConnectionException (lit "reset"))] |}) in
  fst pacing = Raise KeyboardInterrupt
  /\ successes (trace (snd pacing)) = 1
  /\ attempts (trace (snd pacing)) = 1%nat
  /\ fst backoff = Raise KeyboardInterrupt
  /\ attempts (trace (snd backoff)) = 1%nat.
Proof. vm_compute. repeat split. Qed.

(** The second of three downloads is interrupted: the downloader returns
    the one success counted so far and the third post is not attempted. *)
Example interrupted_download_returns_count :
  let posts := IterYield 1%nat (IterYield 2%nat (IterYield 3%nat IterStop)) in
  let run :=
    download_posts_with_delays
      (Scripted.client (Scripted.all_fine (lit "a") posts))
      {| username := lit "a" |} 4 9 3 2
      (Scripted.start
         {| Scripted.inputs := []; Scripted.passwords := [];
            Scripted.sleeps := []; Scripted.randoms := [];
            Scripted.downloads := [Ok tt; Raise KeyboardInterrupt] |}) in
  fst run = Ok 1
  /\ attempts (trace (snd run)) = 2%nat
  /\ existsb (Runs.is_download_of 3) (trace (snd run)) = false.
Proof. vm_compute. repeat split. Qed.

(** ** The backoff waits *)

Lemma exact_uniform_bounds (a b u : Q) :
  (a <= b -> 0 <= u -> u < 1 ->
   a <= exact_uniform a b u /\ exact_uniform a b u <= b
   /\ (a < b -> exact_uniform a b u < b))%Q.
Proof.
  unfold exact_uniform. intros Hab Hu0 Hu1. repeat split.
  - nra.
  - nra.
  - intros Hlt. nra.
Qed.

Section BackoffWaits.

Context {Post W : Type}.
Variable cl : Client Post W.
Variables (post : Post) (safe_name : pystr).
Variables (per_post_retries : Z) (backoff_base : float).

(** The [k]-th wait of a run of the loop entered with counter [attempt]
    is the power with exponent [attempt + 1 + k] plus the jitter made
    from the [k]-th draw. *)
Lemma loop_run_waits attempt total w r w' evs :
  loop_run cl post safe_name per_post_retries backoff_base
    attempt total w r w' evs ->
  forall k d, nth_error (waits evs) k = Some d ->
  exists p u,
    float_pow cl backoff_base (attempt + 1 + Z.of_nat k) = Ok p
    /\ nth_error (draws evs) k = Some u
    /\ d = wait_of p u.
Proof.
  induction 1 as
    [attempt total w Hgt
    |attempt total w a w1 Hle Hd
    |attempt total w w1 Hle Hd
    |attempt total w e w1 Hle Hd Hk He
    |attempt total w e w1 x Hle Hd He Hp
    |attempt total w e w1 p u w2 x w3 Hle Hd He Hp Hu Hs
    |attempt total w e w1 p u w2 a w3 r w' evs Hle Hd He Hp Hu Hs Hrun IH];
    intros k d Hk'; simpl in Hk';
    try (destruct k; discriminate Hk').
  - destruct k as [|k]; [|destruct k; discriminate Hk'].
    injection Hk' as <-. exists p, u.
    rewrite Z.add_0_r. auto.
  - destruct k as [|k].
    + injection Hk' as <-. exists p, u. rewrite Z.add_0_r. auto.
    + change (nth_error (waits evs) k = Some d) in Hk'.
      destruct (IH k d Hk') as [p' [u' [Hp' [Hu' ->]]]].
      exists p', u'. repeat split; [|assumption].
      rewrite <- Hp'. f_equal. lia.
Qed.

End BackoffWaits.

(** C3, as amended: in every run of a post's retry loop the wait slept
    before retry attempt a (the a-th wait, a >= 1) is the double-precision
    sum of backoff_base ** a and random.uniform(0.5, 2.0), the jitter
    being 0.5 + (2.0 - 0.5) * random().  Without rounding that sum lies in
    [b^a + 0.5, b^a + 2.0) for a draw in [0, 1); the rounded sum can reach
    the right end-point. *)
Theorem backoff_wait_is_power_plus_jitter :
  forall (Post W : Type) (cl : Client Post W) (post : Post)
    (safe_name : pystr) (per_post_retries : Z) (backoff_base : float)
    (total : Z) (s : state Post W),
  exists r w' evs,
    retry_loop cl post safe_name per_post_retries backoff_base 0 total s
    = (r, log s w' evs)
    /\ (forall k d, nth_error (waits evs) k = Some d ->
        exists p u,
          float_pow cl backoff_base (Z.of_nat k + 1) = Ok p
          /\ nth_error (draws evs) k = Some u
          /\ d = (p + uniform_of 0.5 2 u)%float)
    /\ (forall P u : Q, 0 <= u -> u < 1 ->
          P + (1 # 2) <= P + exact_uniform (1 # 2) 2 u
          /\ P + exact_uniform (1 # 2) 2 u < P + 2)%Q.
Proof.
  intros Post W cl post safe_name R b total s.
  destruct (retry_loop_run cl post safe_name R b 0 total s)
    as [r [w' [evs [Hrun Hrel]]]].
  exists r, w', evs. split; [assumption|]. split.
  - intros k d Hk.
    destruct (loop_run_waits Hrel k Hk) as [p [u [Hp [Hu ->]]]].
    exists p, u. repeat split; try assumption.
    rewrite <- Hp. f_equal. lia.
  - intros P u Hu0 Hu1.
    destruct (@exact_uniform_bounds (1 # 2) 2 u) as [H1 [H2 H3]];
      try assumption; [unfold Qle; simpl; lia|].
    assert (H4 : (exact_uniform (1 # 2) 2 u < 2)%Q)
      by (apply H3; unfold Qlt; simpl; lia).
    split.
    + now apply Qplus_le_r.
    + now apply Qplus_lt_r.
Qed.

(** The first retry of a post with base 2.0 when [random()] returns its
    largest value 1 - 2^-53: the jitter is 1.9999999999999998 and the wait
    2.0 ** 1 + 1.9999999999999998 rounds to 4.0 = 2.0 ** 1 + 2.0, which is
    not below the right end-point. *)
Lemma backoff_wait_reaches_end_point :
  let cl := Scripted.client Runs.failing in
  let run :=
    retry_loop cl 1%nat (lit "a") 3 2 0 0
      (Scripted.start
         {| Scripted.inputs := []; Scripted.passwords := [];
            Scripted.sleeps := [];
            Scripted.randoms := [Scripted.random_max];
            Scripted.downloads :=
              [Raise (ConnectionException (lit "reset")); Ok tt] |}) in
  fst run = Ok (LoopEnd 1)
  /\ float_pow cl 2 1 = Ok 2%float
  /\ waits (trace (snd run)) = [4%float]
  /\ (4 <? 2 + 2)%float = false
  /\ (4 =? 2 + 2)%float = true.
Proof. vm_compute. repeat split. Qed.

(** ** The pacing sleeps *)

Section Pacing.

Context {Post W : Type}.
Variable cl : Client Post W.
Variable safe_name : pystr.
Variables (min_delay max_delay : float).
Variables (per_post_retries : Z) (backoff_base : float).

Local Abbreviation pacing_of_draws := (pacing_of_draws min_delay max_delay).

(** The loop over the posts, one step: the retry loop of the first post,
    then, unless the function returned or an exception was raised, two
    draws, one sleep of the pacing interval made from them, and the rest
    of the posts. *)
Lemma for_posts_step post rest total s :
  exists r w1 evs,
    retry_loop cl post safe_name per_post_retries backoff_base 0 total s
    = (r, log s w1 evs)
    /\ forall t, r = Ok (LoopEnd t) ->
       for_posts cl (IterYield post rest) safe_name min_delay max_delay
         per_post_retries backoff_base total s =
       let (u1, w2) := random cl w1 in
       let (u2, w3) := random cl w2 in
       let (o, w4) := sleep cl (pacing_time min_delay max_delay u1 u2) w3 in
       let s' :=
         log s w4 (evs ++ pacing_events cl min_delay max_delay u1 u2 o) in
       match o with
       | Ok _ =>
           for_posts cl rest safe_name min_delay max_delay per_post_retries
             backoff_base t s'
       | Raise x => (Raise x, s')
       end.
Proof.
  destruct (retry_loop_run cl post safe_name per_post_retries backoff_base
              0 total s) as [r [w1 [evs [Hrun Hrel]]]].
  exists r, w1, evs. split; [assumption|].
  intros t ->. cbn [for_posts]. unfold bind at 1. rewrite Hrun.
  unfold bind. rewrite pacing_sleep_run.
  change (world (log s w1 evs)) with w1.
  destruct (random cl w1) as [u1 w2].
  destruct (random cl w2) as [u2 w3].
  destruct (sleep cl (pacing_time min_delay max_delay u1 u2) w3)
    as [[a|x] w4]; rewrite log_log; reflexivity.
Qed.

(** A loop whose downloads all succeeded made one download. *)
Lemma loop_run_first_try post total w r w' evs :
  loop_run cl post safe_name per_post_retries backoff_base
    0 total w r w' evs ->
  0 <= per_post_retries ->
  every_download_succeeded evs = true ->
  r = Ok (LoopEnd (total + 1)) /\ attempts evs = 1%nat /\ waits evs = []
  /\ draws evs = [].
Proof.
  intros Hrun HR Hok.
  inversion Hrun; subst; try discriminate Hok; try lia.
  repeat split.
Qed.

Lemma posts_run_all_succeed posts total w r w' evs :
  posts_run cl safe_name min_delay max_delay per_post_retries backoff_base
    (yields posts) total w r w' evs ->
  0 <= per_post_retries ->
  every_download_succeeded evs = true ->
  every_wait_completed evs = true ->
  r = Ok (total + Z.of_nat (List.length posts))
  /\ attempts evs = List.length posts
  /\ List.length (draws evs) = (2 * List.length posts)%nat
  /\ waits evs = pacing_of_draws (draws evs).
Proof.
  revert total w r w' evs.
  induction posts as [|p posts IH]; intros total w r w' evs Hrun HR Hok Hwait;
    simpl in Hrun.
  - inversion Hrun; subst. simpl. rewrite Z.add_0_r. auto.
  - unfold every_download_succeeded, every_wait_completed in *.
    inversion Hrun as
      [ | | post' rest' total' w0 t w1 evs0 Hloop
      | post' rest' total' w0 e w1 evs0 Hloop
      | post' rest' total' w0 t w1 evs0 u1 w2 u2 w3 x w4 Hloop Hu1 Hu2 Hs
      | post' rest' total' w0 t w1 evs0 u1 w2 u2 w3 a w4 r0 w'0 evs'
          Hloop Hu1 Hu2 Hs Hrest]; subst;
      rewrite ?forallb_app in Hok, Hwait.
    + destruct (loop_run_first_try Hloop HR Hok) as [Hr _]. discriminate Hr.
    + destruct (loop_run_first_try Hloop HR Hok) as [Hr _]. discriminate Hr.
    + apply andb_true_iff in Hwait as [_ Hwait]. discriminate Hwait.
    + apply andb_true_iff in Hok as [Hok1 Hok].
      apply andb_true_iff in Hok as [_ Hok2].
      apply andb_true_iff in Hwait as [_ Hwait].
      apply andb_true_iff in Hwait as [_ Hwait2].
      destruct (loop_run_first_try Hloop HR Hok1) as [Hr [Ha1 [Hw1 Hd1]]].
      injection Hr as ->.
      destruct (IH _ _ _ _ _ Hrest HR Hok2 Hwait2) as [-> [Ha [Hd Hw]]].
      repeat split.
      * f_equal. cbn [List.length]. lia.
      * rewrite !attempts_app, Ha1, Ha. reflexivity.
      * rewrite !draws_app, Hd1. cbn [List.length app draws flat_map
                                       pacing_events].
        simpl. lia.
      * rewrite !waits_app, !draws_app, Hw1, Hd1. simpl. now rewrite Hw.
Qed.

End Pacing.

Lemma exact_pacing_bounds (mn mx u1 u2 : Q) :
  (mn <= mx -> 0 <= u1 -> u1 < 1 -> 0 <= u2 -> u2 < 1 ->
   mn <= exact_uniform mn mx u1 + exact_uniform 0 (6 # 5) u2
   /\ exact_uniform mn mx u1 + exact_uniform 0 (6 # 5) u2 < mx + (6 # 5))%Q.
Proof.
  intros Hm Hu1 Hu1' Hu2 Hu2'.
  destruct (@exact_uniform_bounds mn mx u1 Hm Hu1 Hu1') as [Ha [Hb _]].
  destruct (@exact_uniform_bounds 0 (6 # 5) u2) as [Hc [_ Hd]];
    try assumption; [unfold Qle; simpl; lia|].
  assert (He : (exact_uniform 0 (6 # 5) u2 < 6 # 5)%Q)
    by (apply Hd; unfold Qlt; simpl; lia).
  split; lra.
Qed.



(** The pacing sleep after retry exhaustion: two posts whose downloads
    always fail, with one retry each.  Every post is attempted twice,
    each failure is followed by its backoff wait, and after the second
    wait the post is given up and the pacing sleep follows, here
    4.0 + 5.0 * 0.5 + 1.2 * 0.5 seconds. *)
Example pacing_sleep_after_exhaustion :
  let cl := Scripted.steady Runs.failing (lit "") 0.5 in
  let run :=
    for_posts cl (IterYield 1%nat (IterYield 2%nat IterStop)) (lit "a")
      4 9 1 2 0 in
  fst (run Scripted.begin) = Ok 0
  /\ attempted (calls run Scripted.begin) = [1; 1; 2; 2]%nat
  /\ waits (calls run Scripted.begin)
     = [wait_of 2 0.5; wait_of 4 0.5; pacing_time 4 9 0.5 0.5;
        wait_of 2 0.5; wait_of 4 0.5; pacing_time 4 9 0.5 0.5]
  /\ pacing_time 4 9 0.5 0.5 = 0x1.c666666666666p+2%float.
Proof. vm_compute. repeat split. Qed.


(** ** What a piece of the script adds to the trace *)

Section Emits.

Context {Post W : Type}.
Variable cl : Client Post W.
Variable P : event Post -> bool.

Local Abbreviation emits := (emits (W := W) P).

Lemma emits_ret {A} (a : A) : emits (ret a).
Proof. intros s. exists []. simpl. now rewrite app_nil_r. Qed.

Lemma emits_raise {A} (e : exn) : emits (@raise Post W A e).
Proof. intros s. exists []. simpl. now rewrite app_nil_r. Qed.

Lemma emits_lift {A} (r : result A) : emits (@lift Post W A r).
Proof. intros s. exists []. simpl. now rewrite app_nil_r. Qed.

Lemma emits_emit ev : P ev = true -> emits (emit (W := W) ev).
Proof. intros H s. exists [ev]. simpl. now rewrite H. Qed.

Lemma emits_call {A} ev (f : W -> result A * W) :
  P ev = true -> emits (call ev f).
Proof.
  intros H s. exists [ev]. unfold call. destruct (f (world s)).
  simpl. now rewrite H.
Qed.

Lemma emits_call_r {A} (ev : result A -> event Post) (f : W -> result A * W) :
  (forall r, P (ev r) = true) -> emits (call_r ev f).
Proof.
  intros H s. unfold call_r. destruct (f (world s)) as [r w].
  exists [ev r]. simpl. now rewrite H.
Qed.

Lemma emits_bind {A B} (c : M Post W A) (k : A -> M Post W B) :
  emits c -> (forall a, emits (k a)) -> emits (bind c k).
Proof.
  intros Hc Hk s. unfold bind. destruct (Hc s) as [evs [Ht Hp]].
  destruct (c s) as [[a|e] s1]; simpl in Ht.
  - destruct (Hk a s1) as [evs' [Ht' Hp']].
    exists (evs ++ evs'). rewrite Ht', Ht, app_assoc, forallb_app, Hp, Hp'.
    auto.
  - exists evs. auto.
Qed.

Lemma emits_try_except {A} (c : M Post W A) (h : exn -> M Post W A) :
  emits c -> (forall e, emits (h e)) -> emits (try_except c h).
Proof.
  intros Hc Hh s. unfold try_except. destruct (Hc s) as [evs [Ht Hp]].
  destruct (c s) as [[a|e] s1]; simpl in Ht.
  - exists evs. auto.
  - destruct (Hh e s1) as [evs' [Ht' Hp']].
    exists (evs ++ evs'). rewrite Ht', Ht, app_assoc, forallb_app, Hp, Hp'.
    auto.
Qed.

Hypothesis accepts_random : forall u, P (EvRandom u) = true.

Lemma emits_uniform a b : emits (uniform cl a b).
Proof.
  unfold uniform. apply emits_bind; [|intros; apply emits_ret].
  intros s. destruct (random cl (world s)) as [u w].
  exists [EvRandom u]. simpl. now rewrite accepts_random.
Qed.

End Emits.

Ltac emits_step :=
  first
    [ apply emits_ret | apply emits_raise | apply emits_lift
    | apply emits_uniform; reflexivity
    | apply emits_emit; reflexivity
    | apply emits_call; reflexivity
    | apply emits_call_r; intros; reflexivity
    | apply emits_bind; [|intros]
    | apply emits_try_except; [|intros]
    | match goal with
      | |- emits _ (if ?b then _ else _) => destruct b
      | |- emits _ (let (_, _) := ?x in _) => destruct x
      | |- emits _ (match ?x with _ => _ end) => destruct x
      end ].

Section BeforeDownload.

Context {Post W : Type}.
Variable cl : Client Post W.

Lemma login_with_session_emits username allow :
  emits (@before_download Post) (login_with_session cl username allow).
Proof.
  unfold login_with_session, try_saved_session, interactive_login,
    get_credentials, save_after_login, two_factor_path, py_input, py_sleep,
    print, sys_exit.
  repeat emits_step.
Qed.

Lemma upto_profile_emits :
  emits (@before_download Post) (upto_profile cl).
Proof.
  unfold upto_profile, check_dns, login_phase, resolve_profile, py_input,
    py_sleep, print, sys_exit.
  repeat first [apply login_with_session_emits | emits_step].
Qed.

Lemma private_check_emits prof target :
  emits (@before_download Post) (private_check cl prof target).
Proof.
  unfold private_check, print, sys_exit. repeat emits_step.
Qed.

End BeforeDownload.

(** ** The session resolver *)

Section InteractivePath.

Context {Post W : Type}.
Variable cl : Client Post W.

Lemma bind_assoc {A B C} (c : M Post W A) (k1 : A -> M Post W B)
    (k2 : B -> M Post W C) s :
  bind (bind c k1) k2 s = bind c (fun a => bind (k1 a) k2) s.
Proof. unfold bind. destruct (c s) as [[a|e] s1]; reflexivity. Qed.

Lemma first_call {A B} ev (f : W -> result A * W) (k : A -> M Post W B) s :
  (forall a, emits (fun _ => true) (k a)) ->
  exists evs, trace (snd (bind (call ev f) k s)) = trace s ++ ev :: evs.
Proof.
  intros Hk. unfold bind, call.
  destruct (f (world s)) as [[a|e] w1].
  - destruct (Hk a {| world := w1; trace := trace s ++ [ev] |})
      as [evs [Ht _]].
    exists evs. rewrite Ht. simpl. now rewrite <- app_assoc.
  - exists []. reflexivity.
Qed.

(** The interactive login starts by asking for the user name. *)
Lemma interactive_login_prompts_first s :
  exists evs,
    trace (snd (interactive_login cl s))
    = trace s ++ EvInput prompt_username :: evs.
Proof.
  unfold interactive_login, get_credentials, py_input at 1.
  rewrite !bind_assoc. apply first_call. intros u.
  unfold save_after_login, two_factor_path, py_input, py_sleep, print.
  repeat emits_step.
Qed.

End InteractivePath.

(** C7: with a non-empty preferred identifier, if its persisted session
    loads the resolver returns the identifier, having only loaded the
    session and printed a message (no prompt, no login call); if the
    session file is not found the error is not raised: with interactive
    login allowed the resolver continues as the interactive login, whose
    first call is the prompt for the user name, and otherwise it raises
    RuntimeError at once.  Any other error of the load is raised as it
    is. *)
Theorem session_resolver_paths :
  forall (Post W : Type) (cl : Client Post W) (c : char) (u' : pystr)
    (allow_interactive : bool) (s : state Post W),
  let u := c :: u' in
  match load_session_from_file cl u (world s) with
  | (Ok _, w1) =>
      login_with_session cl (Some u) allow_interactive s
      = (Ok u, log s w1 [EvLoadSession u; EvPrint msg_session_loaded])
  | (Raise e, w1) =>
      if is_FileNotFoundError e then
        let s1 :=
          log s w1 [EvLoadSession u; EvPrint (msg_session_not_found u)] in
        if allow_interactive then
          login_with_session cl (Some u) allow_interactive s
          = interactive_login cl s1
          /\ exists evs,
               trace (snd (login_with_session cl (Some u)
                             allow_interactive s))
               = trace s1 ++ EvInput prompt_username :: evs
        else
          login_with_session cl (Some u) allow_interactive s
          = (Raise (RuntimeError msg_no_session), s1)
      else
        login_with_session cl (Some u) allow_interactive s
        = (Raise e, log s w1 [EvLoadSession u])
  end.
Proof.
  intros Post W cl c u' allow s u.
  subst u.
  assert (Hprompt := interactive_login_prompts_first cl).
  revert Hprompt.
  cbv beta iota delta [login_with_session try_saved_session bind try_except
                       call print emit ret raise].
  intros Hprompt.
  destruct (load_session_from_file cl (c :: u') (world s)) as [[a|e] w1].
  - unfold log. simpl. rewrite <- app_assoc. reflexivity.
  - destruct (is_FileNotFoundError e) eqn:He.
    + unfold log. simpl. rewrite <- app_assoc. simpl.
      destruct allow; [|reflexivity].
      split; [reflexivity | apply Hprompt].
    + reflexivity.
Qed.

(** The scenario of the specification: an identifier is given, its
    session file does not exist, and the interactive login succeeds. *)
Example missing_session_falls_through :
  let run :=
    login_with_session MissingSession.cl (Some (lit "bob")) true
      Scripted.begin in
  fst run = Ok (lit "bob")
  /\ trace (snd run)
     = [EvLoadSession (lit "bob");
        EvPrint (msg_session_not_found (lit "bob"));
        EvInput prompt_username;
        EvGetpass (lit "Enter your Instagram password: ");
        EvRandom 0.5%float; EvSleep 2.75%float (Ok tt);
        EvLog (lit "Attempting login...");
        EvLogin (lit "bob") (lit "bob"); EvSaveSession;
        EvPrint (check_mark ++ lit " Login successful and session saved.")].
Proof. vm_compute. split; reflexivity. Qed.

(** ** The check of a private profile *)

(** C8: once the profile is resolved, if it is private and the login test
    reports no valid session, [main] exits with status 1 and its trace
    holds no call of the download phase; if reading the privacy flag or
    the login test raises an Exception, [main] goes on with the download
    phase, as it does for a public profile and for a valid session. *)
Theorem private_profile_check :
  forall (Post W : Type) (cl : Client Post W) (s : state Post W)
    (target_profile : pystr) (prof : profile) (s1 : state Post W),
  upto_profile cl s = (Ok (target_profile, prof), s1) ->
  match is_private cl prof (world s1) with
  | (Ok true, w2) =>
      match test_login cl w2 with
      | (Ok t, w3) =>
          if truthy t then
            main cl s
            = download_phase cl prof
                (log s1 w3 [EvIsPrivate prof; EvTestLogin])
          else
            fst (main cl s) = Raise (SystemExit 1)
            /\ exit_status (fst (main cl s)) = 1
            /\ exists evs,
                 trace (snd (main cl s)) = trace s ++ evs
                 /\ forallb before_download evs = true
      | (Raise e, w3) =>
          if is_Exception e then
            main cl s
            = download_phase cl prof
                (log s1 w3 [EvIsPrivate prof; EvTestLogin])
          else fst (main cl s) = Raise e
      end
  | (Ok false, w2) =>
      main cl s = download_phase cl prof (log s1 w2 [EvIsPrivate prof])
  | (Raise e, w2) =>
      if is_Exception e then
        main cl s = download_phase cl prof (log s1 w2 [EvIsPrivate prof])
      else fst (main cl s) = Raise e
  end.
Proof.
  intros Post W cl s target prof s1 Hup.
  assert (Hmain : main cl s
                  = bind (private_check cl prof target)
                      (fun _ => download_phase cl prof) s1).
  { unfold main. unfold bind at 1. rewrite Hup. reflexivity. }
  assert (Htrace : fst (private_check cl prof target s1)
                   = Raise (SystemExit 1) ->
            fst (main cl s) = Raise (SystemExit 1)
            /\ exit_status (fst (main cl s)) = 1
            /\ exists evs,
                 trace (snd (main cl s)) = trace s ++ evs
                 /\ forallb before_download evs = true).
  { intros Hx. rewrite Hmain. unfold bind.
    destruct (upto_profile_emits cl s) as [evs1 [Ht1 Hp1]].
    destruct (private_check_emits cl prof target s1) as [evs2 [Ht2 Hp2]].
    rewrite Hup in Ht1. simpl in Ht1.
    destruct (private_check cl prof target s1) as [r s2].
    simpl in Hx, Ht2. subst r. simpl. repeat split.
    exists (evs1 ++ evs2).
    rewrite Ht2, Ht1, app_assoc, forallb_app, Hp1, Hp2. auto. }
  revert Hmain Htrace.
  unfold private_check, bind, try_except, call, print, emit, sys_exit,
    raise, ret.
  destruct (is_private cl prof (world s1)) as [[[|]|e] w2]; cbn [world trace].
  - destruct (test_login cl w2) as [[t|e] w3]; cbn [world trace fst snd].
    + destruct (truthy t); cbn.
      * intros -> _. unfold log. simpl. now rewrite <- app_assoc.
      * intros _ H. now apply H.
    + destruct (is_Exception e) eqn:He; cbn.
      * intros -> _. unfold log. simpl. now rewrite <- app_assoc.
      * intros -> _. reflexivity.
  - cbn. intros -> _. reflexivity.
  - destruct (is_Exception e) eqn:He; cbn.
    + intros -> _. reflexivity.
    + intros -> _. reflexivity.
Qed.

Lemma private_profile_check_witness :
  fst (main PrivateRun.cl Scripted.begin) = Raise (SystemExit 1)
  /\ exit_status (fst (main PrivateRun.cl Scripted.begin)) = 1
  /\ exists evs,
       trace (snd (main PrivateRun.cl Scripted.begin))
       = trace Scripted.begin ++ evs
       /\ forallb before_download evs = true.
Proof.
  exact (@private_profile_check nat unit PrivateRun.cl Scripted.begin
           (lit "bob") {| username := lit "bob" |}
           (snd (upto_profile PrivateRun.cl Scripted.begin)) eq_refl).
Defined.

Section VerdictFacts.

Context {Post W : Type}.
Variable cl : Client Post W.

Lemma login_agree session_user s :
  match login_verdict cl session_user s with
  | (Ok None, s') => exists u, login_phase cl session_user s = (Ok u, s')
  | (Ok (Some _), s') =>
      login_phase cl session_user s = (Raise (SystemExit 1), s')
  | (Raise e, s') => login_phase cl session_user s = (Raise e, s')
  end.
Proof.
  unfold login_verdict, login_phase, try_except, bind, print, emit,
    py_input, call, sys_exit, raise, ret.
  destruct (login_with_session cl session_user true s) as [[u|e] s1];
    cbv beta iota.
  - eexists. reflexivity.
  - destruct (is_RuntimeError e); [|reflexivity].
    cbn [world trace].
    destruct (input cl (lit "Continue without login? (yes/no): ") (world s1))
      as [[p|e'] w2]; [|reflexivity].
    destruct (negb (pystr_eqb (str_lower cl (strip p)) (lit "yes")));
      [reflexivity | eexists; reflexivity].
Qed.

Lemma resolve_agree target_profile s :
  match resolve_verdict cl target_profile s with
  | (Ok (inr prof), s') =>
      resolve_profile cl target_profile s = (Ok prof, s')
  | (Ok (inl _), s') =>
      resolve_profile cl target_profile s = (Raise (SystemExit 1), s')
  | (Raise e, s') => resolve_profile cl target_profile s = (Raise e, s')
  end.
Proof.
  unfold resolve_verdict, resolve_profile, try_except, bind, call, print,
    emit, sys_exit, raise, ret.
  destruct (from_username cl target_profile (world s)) as [[prof|e] w1];
    [reflexivity|].
  destruct (is_ProfileNotExistsException e); [reflexivity|].
  destruct (is_QueryReturnedNotFoundException e); [reflexivity|].
  destruct (is_ConnectionException e); [reflexivity|].
  destruct (is_Exception e); reflexivity.
Qed.

Lemma private_agree prof target_profile s :
  match private_verdict cl prof target_profile s with
  | (Ok None, s') => private_check cl prof target_profile s = (Ok tt, s')
  | (Ok (Some _), s') =>
      private_check cl prof target_profile s = (Raise (SystemExit 1), s')
  | (Raise e, s') => private_check cl prof target_profile s = (Raise e, s')
  end.
Proof.
  unfold private_verdict, private_check, try_except, bind, call, print,
    emit, sys_exit, raise, ret.
  destruct (is_private cl prof (world s)) as [[[|]|e] w1]; cbn [world trace].
  - destruct (test_login cl w1) as [[t|e] w2]; cbn [world trace].
    + destruct (truthy t); reflexivity.
    + destruct (is_Exception e); reflexivity.
  - reflexivity.
  - destruct (is_Exception e); reflexivity.
Qed.

(** [main] ends as its verdict says, in the same state. *)
Lemma main_ends_as_verdict s : ends_as (main_verdict cl s) (main cl s).
Proof.
  unfold ends_as, main, upto_profile, main_verdict.
  unfold bind, print, emit, sys_exit, raise, ret, py_input, call.
  destruct (check_dns cl (lit "www.instagram.com") s) as [[[|]|e] s1];
    cbv beta iota delta [negb fst snd]; [| auto | auto].
  destruct (input cl prompt_target (world s1)) as [[t|e] w2];
    cbv beta iota delta [fst snd]; [|auto].
  destruct (is_empty (strip t)); cbv beta iota delta [fst snd]; [auto|].
  cbn [world trace].
  destruct (input cl prompt_session w2) as [[ss|e] w3];
    cbv beta iota delta [fst snd]; [|auto].
  match goal with
  | |- context [login_verdict cl ?su ?st] =>
      pose proof (login_agree su st) as Hl;
      destruct (login_verdict cl su st) as [[[why|]|e] s4];
      [ rewrite Hl; cbn; auto
      | destruct Hl as [u Hl]; rewrite Hl
      | rewrite Hl; cbn; auto ]
  end.
  cbv beta iota delta [fst snd].
  destruct (uniform cl 1 3 s4) as [[pause|e] s5];
    cbv beta iota delta [fst snd]; [|auto].
  destruct (py_sleep cl pause s5) as [[[]|e] s6];
    cbv beta iota delta [fst snd]; [|auto].
  match goal with
  | |- context [resolve_verdict cl ?t ?st] =>
      pose proof (resolve_agree t st) as Hr;
      destruct (resolve_verdict cl t st) as [[[why|prof]|e] s7];
      rewrite Hr; cbv beta iota delta [fst snd]; [auto| |auto]
  end.
  match goal with
  | |- context [private_verdict cl ?q ?t ?st] =>
      pose proof (private_agree q t st) as Hp;
      destruct (private_verdict cl q t st) as [[[why|]|e] s8];
      rewrite Hp; cbv beta iota delta [fst snd]; [auto| |auto]
  end.
  destruct (download_phase cl prof s8) as [[[]|e] s9];
    cbv beta iota delta [fst snd]; eauto.
Qed.

Lemma login_verdict_reason session_user s why s' :
  login_verdict cl session_user s = (Ok (Some why), s') ->
  why = DeclinedAfterLoginFailure.
Proof.
  unfold login_verdict, try_except, bind, print, emit, py_input, call,
    raise, ret.
  destruct (login_with_session cl session_user true s) as [[u|e] s1];
    cbv beta iota; [discriminate|].
  destruct (is_RuntimeError e); [|discriminate].
  cbn [world trace].
  destruct (input cl (lit "Continue without login? (yes/no): ") (world s1))
    as [[p|e'] w2]; [|discriminate].
  destruct (negb (pystr_eqb (str_lower cl (strip p)) (lit "yes")));
    congruence.
Qed.

Lemma private_verdict_reason prof target_profile s why s' :
  private_verdict cl prof target_profile s = (Ok (Some why), s') ->
  why = PrivateWithoutValidAccess.
Proof.
  unfold private_verdict, try_except, bind, call, print, emit, raise, ret.
  destruct (is_private cl prof (world s)) as [[[|]|e] w1]; cbn [world trace].
  - destruct (test_login cl w1) as [[t|e] w2]; cbn [world trace].
    + destruct (truthy t); cbn; congruence.
    + destruct (is_Exception e); discriminate.
  - discriminate.
  - destruct (is_Exception e); discriminate.
Qed.

Lemma resolve_verdict_not_exist target_profile s t s' :
  resolve_verdict cl target_profile s = (Ok (inl (TargetDoesNotExist t)), s') ->
  t = target_profile
  /\ s' = log s (world s')
            [EvFromUsername target_profile;
             EvPrint (msg_profile_not_exist target_profile)].
Proof.
  unfold resolve_verdict, try_except, bind, call, print, emit, raise, ret.
  destruct (from_username cl target_profile (world s)) as [[prof|e] w1];
    [discriminate|].
  destruct (is_ProfileNotExistsException e).
  { intros H. injection H as <- <-. split; [reflexivity|].
    unfold log. simpl. now rewrite <- app_assoc. }
  destruct (is_QueryReturnedNotFoundException e); [discriminate|].
  destruct (is_ConnectionException e); [discriminate|].
  destruct (is_Exception e); discriminate.
Qed.

Lemma message_names_the_handle (target_profile : pystr) :
  contains (msg_profile_not_exist target_profile) target_profile.
Proof.
  exists (cross_mark ++ lit " The profile '"), (lit "' does not exist.").
  unfold msg_profile_not_exist. now rewrite <- app_assoc.
Qed.

(** When the verdict is that the target does not exist, the last thing
    printed is the message with the handle that was looked up. *)
Lemma main_verdict_not_exist s t s' :
  main_verdict cl s = (Ok (Exits (TargetDoesNotExist t)), s') ->
  exists evs, trace s' = evs ++ [EvPrint (msg_profile_not_exist t)].
Proof.
  unfold main_verdict.
  unfold bind, print, emit, raise, ret, py_input, call.
  destruct (check_dns cl (lit "www.instagram.com") s) as [[[|]|e] s1];
    cbv beta iota delta [negb]; [|discriminate|discriminate].
  destruct (input cl prompt_target (world s1)) as [[tt'|e] w2];
    cbv beta iota; [|discriminate].
  destruct (is_empty (strip tt')); cbv beta iota; [discriminate|].
  cbn [world trace].
  destruct (input cl prompt_session w2) as [[ss|e] w3];
    cbv beta iota; [|discriminate].
  match goal with
  | |- context [login_verdict cl ?su ?st] =>
      pose proof (@login_verdict_reason su st) as Hl;
      destruct (login_verdict cl su st) as [[[why|]|e] s4];
      cbv beta iota; [|idtac|discriminate]
  end.
  { intros H. injection H as H _. now rewrite (Hl _ _ eq_refl) in H. }
  destruct (uniform cl 1 3 s4) as [[pause|e] s5];
    cbv beta iota; [|discriminate].
  destruct (py_sleep cl pause s5) as [[[]|e] s6];
    cbv beta iota; [|discriminate].
  match goal with
  | |- context [resolve_verdict cl ?tp ?st] =>
      pose proof (@resolve_verdict_not_exist tp st) as Hr;
      destruct (resolve_verdict cl tp st) as [[[why|prof]|e] s7];
      cbv beta iota; [|idtac|discriminate]
  end.
  { intros H. injection H as -> <-.
    destruct (Hr _ _ eq_refl) as [-> ->]. unfold log. simpl.
    eexists (trace s6 ++ [_]). rewrite <- app_assoc. reflexivity. }
  match goal with
  | |- context [private_verdict cl ?q ?tp ?st] =>
      pose proof (@private_verdict_reason q tp st) as Hp;
      destruct (private_verdict cl q tp st) as [[[why|]|e] s8];
      cbv beta iota; [|idtac|discriminate]
  end.
  { intros H. injection H as H _. now rewrite (Hp _ _ eq_refl) in H. }
  destruct (download_phase cl prof s8) as [[[]|e] s9]; discriminate.
Qed.

Lemma download_phase_run prof s :
  download_phase cl prof s =
  match download_posts_with_delays cl prof MIN_DELAY MAX_DELAY
          PER_POST_RETRIES 2 s with
  | (Ok _, s') => (Ok tt, s')
  | (Raise e, s') =>
      if is_KeyboardInterrupt e then
        (Ok tt, log s' (world s') [EvPrint msg_interrupted])
      else if is_Exception e then
        (Ok tt, log s' (world s')
                  [EvPrint (cross_mark
                            ++ lit " Unexpected error during download: "
                            ++ exn_str e)])
      else (Raise e, s')
  end.
Proof.
  unfold download_phase, try_except, bind, ret, print, emit, raise.
  destruct (download_posts_with_delays cl prof MIN_DELAY MAX_DELAY
              PER_POST_RETRIES 2 s) as [[n|e] s'];
    [reflexivity|].
  destruct (is_KeyboardInterrupt e); [reflexivity|].
  destruct (is_Exception e); reflexivity.
Qed.

End VerdictFacts.

(** C9, as amended: the process ends with status 0 when [main] returns,
    which includes a download phase that was interrupted by the user or
    that raised any Exception; [main] calls [sys.exit] only with 1 and
    exactly on the eight listed conditions (failed preflight check, empty
    target handle, user declining after a login failure, target does not
    exist, lookup not found, connection failure in the lookup, unexpected
    lookup error, private profile without valid access), where the status
    is 1; an exception that escapes [main] ends the process with the
    interpreter's status for it, which is 1 as well for every exception
    of class Exception, so that status 1 also occurs outside the eight
    conditions.  In the does-not-exist case the last message printed
    contains the handle. *)
Theorem exit_status_of_main :
  forall (Post W : Type) (cl : Client Post W) (s : state Post W),
  snd (main cl s) = snd (main_verdict cl s)
  /\ exit_status (fst (main cl s))
     = match fst (main_verdict cl s) with
       | Ok (Exits _) => 1
       | Ok Completes => 0
       | Raise e => exit_status (Raise e)
       end
  /\ (forall e, fst (main cl s) = Raise e -> is_Exception e = true ->
        exit_status (fst (main cl s)) = 1
        /\ fst (main_verdict cl s) = Raise e)
  /\ (forall code, fst (main cl s) = Raise (SystemExit code) ->
        (code = 1 /\ exists why, fst (main_verdict cl s) = Ok (Exits why))
        \/ fst (main_verdict cl s) = Raise (SystemExit code))
  /\ (forall target_profile prof s1 s2,
        upto_profile cl s = (Ok (target_profile, prof), s1) ->
        private_check cl prof target_profile s1 = (Ok tt, s2) ->
        match fst (download_posts_with_delays cl prof MIN_DELAY MAX_DELAY
                     PER_POST_RETRIES 2 s2) with
        | Ok _ => exit_status (fst (main cl s)) = 0
        | Raise e =>
            if is_KeyboardInterrupt e || is_Exception e
            then exit_status (fst (main cl s)) = 0
            else fst (main cl s) = Raise e
        end)
  /\ (forall target_profile s',
        main_verdict cl s
        = (Ok (Exits (TargetDoesNotExist target_profile)), s') ->
        (exists evs,
            trace (snd (main cl s))
            = evs ++ [EvPrint (msg_profile_not_exist target_profile)])
        /\ contains (msg_profile_not_exist target_profile) target_profile).
Proof.
  intros Post W cl s.
  destruct (main_ends_as_verdict cl s) as [Hstate Hres].
  split; [assumption|]. split; [|split; [|split; [|split]]].
  - destruct (fst (main_verdict cl s)) as [[why|]|e].
    + now rewrite Hres.
    + destruct Hres as [a ->]. reflexivity.
    + now rewrite Hres.
  - intros e He Hclass. split.
    + rewrite He. destruct e; try discriminate Hclass; reflexivity.
    + destruct (fst (main_verdict cl s)) as [[why|]|e'].
      * rewrite Hres in He. injection He as <-. discriminate Hclass.
      * destruct Hres as [a Ha]. congruence.
      * congruence.
  - intros code Hc.
    destruct (fst (main_verdict cl s)) as [[why|]|e].
    + rewrite Hres in Hc. injection Hc as <-. left. eauto.
    + destruct Hres as [a Ha]. congruence.
    + right. congruence.
  - intros target prof s1 s2 Hup Hpriv.
    assert (Hmain : main cl s = download_phase cl prof s2).
    { unfold main. unfold bind at 1. rewrite Hup.
      unfold bind. now rewrite Hpriv. }
    rewrite Hmain, download_phase_run.
    destruct (download_posts_with_delays cl prof MIN_DELAY MAX_DELAY
                PER_POST_RETRIES 2 s2) as [[n|e] s3]; [reflexivity|].
    cbn [fst]. destruct (is_KeyboardInterrupt e); [reflexivity|].
    destruct (is_Exception e); reflexivity.
  - intros target s' Hv. split.
    + rewrite Hstate, Hv. simpl. now apply (main_verdict_not_exist cl s).
    + apply message_names_the_handle.
Qed.

(** An unreadable session file: the error of the load is not a
    RuntimeError, so it escapes [main]; the process ends with status 1
    although none of the eight conditions holds (the verdict is the
    escaping exception, and [main] never called [sys.exit]). *)
Lemma unreadable_session_exits_with_1 :
  fst (main UnreadableSession.cl Scripted.begin)
  = Raise (OtherException (lit "Permission denied"))
  /\ exit_status (fst (main UnreadableSession.cl Scripted.begin)) = 1
  /\ fst (main_verdict UnreadableSession.cl Scripted.begin)
     = Raise (OtherException (lit "Permission denied"))
  /\ trace (snd (main UnreadableSession.cl Scripted.begin))
     = [EvGethostbyname (lit "www.instagram.com"); EvInput prompt_target;
        EvInput prompt_session; EvLoadSession (lit "bob")].
Proof. vm_compute. repeat split. Qed.

(** A whole run in which the pacing sleep after the first post is
    interrupted: the interrupt leaves the downloader, [main] catches it
    and the process ends with status 0. *)
Example interrupted_wait_exits_with_0 :
  let posts := IterYield 1%nat (IterYield 2%nat IterStop) in
  let run :=
    main (Scripted.client (Scripted.all_fine (lit "bob") posts))
      (Scripted.start
         {| Scripted.inputs := [Ok (lit "bob"); Ok (lit "bob")];
            Scripted.passwords := [];
            Scripted.sleeps := [Ok tt; Raise KeyboardInterrupt];
            Scripted.randoms := [];
            Scripted.downloads := [] |}) in
  fst run = Ok tt
  /\ exit_status (fst run) = 0
  /\ attempts (trace (snd run)) = 1%nat
  /\ last (trace (snd run)) (EvPrint []) = EvPrint msg_interrupted.
Proof. vm_compute. repeat split. Qed.
(** * Further properties *)

(** ** [sanitize_filename]: empty results, fixed points, collisions *)

Lemma lstrip_all_space (s : pystr) :
  forallb isspace s = true -> lstrip s = [].
Proof.
  induction s as [|c t IH]; simpl; [reflexivity|].
  intros H. apply andb_true_iff in H as [Hc Ht]. rewrite Hc. auto.
Qed.

Lemma strip_nil_iff (s : pystr) :
  strip s = [] <-> forallb isspace s = true.
Proof.
  split.
  - intros H. destruct (strip_decomp s) as [pre [post [Hs [Hpre Hpost]]]].
    rewrite H in Hs. rewrite Hs. simpl. rewrite forallb_app, Hpre, Hpost.
    reflexivity.
  - intros H. unfold strip. now rewrite lstrip_all_space.
Qed.

Lemma rstrip_fixed (s : pystr) :
  not_space_opt (last_char s) = true -> rstrip s = s.
Proof.
  destruct s as [|c l] using rev_ind; [reflexivity|].
  unfold last_char. rewrite rev_app_distr. simpl. intros H.
  apply rstrip_snoc. now apply negb_true_iff in H.
Qed.

Lemma isspace_replace_unsafe (c : char) :
  isspace (replace_unsafe c) = isspace c && negb (is_unsafe c).
Proof.
  unfold replace_unsafe. destruct (is_unsafe c); simpl.
  - now rewrite andb_false_r.
  - now rewrite andb_true_r.
Qed.

(** The directory name is empty exactly when the handle is made only of
    white space that the pattern does not replace: a line feed, a carriage
    return or a tab becomes an underscore before the stripping and so
    stays. *)
Theorem sanitize_filename_empty_iff : forall name : pystr,
  sanitize_filename name = []
  <-> forallb (fun c => isspace c && negb (is_unsafe c)) name = true.
Proof.
  intros name. unfold sanitize_filename.
  rewrite re_sub_unsafe_map, strip_nil_iff.
  assert (H : forall l,
             forallb isspace (List.map replace_unsafe l)
             = forallb (fun c => isspace c && negb (is_unsafe c)) l).
  { induction l as [|c t IH]; simpl; [reflexivity|].
    now rewrite IH, isspace_replace_unsafe. }
  rewrite H. reflexivity.
Qed.

(** A handle is its own directory name exactly when it holds no unsafe
    character and neither starts nor ends with white space. *)
Theorem sanitize_filename_fixed_iff : forall name : pystr,
  sanitize_filename name = name
  <-> forallb (fun c => negb (is_unsafe c)) name = true
      /\ not_space_opt (first_char name) = true
      /\ not_space_opt (last_char name) = true.
Proof.
  intros name. split.
  - intros H. rewrite <- H. repeat split.
    + apply sanitize_filename_safe.
    + apply strip_first.
    + apply strip_last.
  - intros [Hsafe [Hfirst Hlast]]. unfold sanitize_filename.
    rewrite re_sub_unsafe_map, (replace_unsafe_fixed _ Hsafe).
    unfold strip. rewrite (lstrip_fixed _ Hfirst). now apply rstrip_fixed.
Qed.

(** The directory name is never longer than the handle. *)
Theorem sanitize_filename_length : forall name : pystr,
  (List.length (sanitize_filename name) <= List.length name)%nat.
Proof.
  intros name. unfold sanitize_filename. rewrite re_sub_unsafe_map.
  destruct (strip_decomp (List.map replace_unsafe name))
    as [pre [post [Hs _]]].
  apply (f_equal (@List.length char)) in Hs.
  rewrite length_map, !length_app in Hs. lia.
Qed.

(** Directory names collide: a handle with an unsafe character and the
    different handle with an underscore in its place get the same name. *)
Theorem sanitize_filename_collides : forall (pre post : pystr) (c : char),
  is_unsafe c = true ->
  pre ++ c :: post <> pre ++ underscore :: post
  /\ sanitize_filename (pre ++ c :: post)
     = sanitize_filename (pre ++ underscore :: post).
Proof.
  intros pre post c Hc. split.
  - intros H. apply app_inv_head in H. injection H as ->. discriminate Hc.
  - unfold sanitize_filename. rewrite !re_sub_unsafe_map, !map_app.
    cbn [List.map]. unfold replace_unsafe at 2 4. rewrite Hc. reflexivity.
Qed.

Lemma sanitize_filename_collides_witness :
  lit "a/b" <> lit "a_b"
  /\ sanitize_filename (lit "a/b") = sanitize_filename (lit "a_b").
Proof.
  exact (@sanitize_filename_collides (lit "a") (lit "b") 47%N eq_refl).
Defined.

(** ** The calls of the downloader *)


Section DownloaderFacts.

Context {Post W : Type}.
Variable cl : Client Post W.
Variable safe_name : pystr.
Variables (min_delay max_delay : float).
Variables (per_post_retries : Z) (backoff_base : float).

Local Abbreviation loop_run :=
  (loop_run cl).
Local Abbreviation posts_run :=
  (posts_run cl safe_name min_delay max_delay per_post_retries backoff_base).

(** What one run of the retry loop calls. *)
Lemma loop_run_calls post attempt total w r w' evs :
  loop_run post safe_name per_post_retries backoff_base
    attempt total w r w' evs ->
  forallb is_downloader_call evs = true
  /\ Forall (fun n => n = safe_name) (targets evs)
  /\ paced true evs = true
  /\ (attempts evs <= Z.to_nat (per_post_retries + 1 - attempt))%nat
  /\ subseq (downloaded evs) [post].
Proof.
  induction 1;
    [ | | | | | | destruct IHloop_run as [Hc [Ht [Hp [Ha Hd]]]] ];
    (split; [|split; [|split; [|split]]]);
    unfold attempts in *; simpl; auto;
    try lia;
    try apply subseq_nil_l.
  - apply subseq_keep, subseq_nil.
Qed.

(** The download calls of one run of the retry loop are all for its
    post. *)
Lemma loop_run_attempted post attempt total w r w' evs :
  loop_run post safe_name per_post_retries backoff_base
    attempt total w r w' evs ->
  attempted evs = repeat post (attempts evs).
Proof.
  induction 1; try reflexivity.
  rewrite attempted_app, attempts_app, IHloop_run. reflexivity.
Qed.

Lemma loop_run_negative post attempt total w r w' evs :
  loop_run post safe_name per_post_retries backoff_base
    attempt total w r w' evs ->
  per_post_retries < attempt ->
  r = Ok (LoopEnd total) /\ evs = [].
Proof. inversion 1; subst; intros Hneg; auto; lia. Qed.

(** What the loop over the posts calls. *)
Lemma posts_run_calls it total w r w' evs :
  posts_run it total w r w' evs ->
  forallb is_downloader_call evs = true
  /\ Forall (fun n => n = safe_name) (targets evs)
  /\ paced true evs = true
  /\ (attempts evs
      <= Z.to_nat (per_post_retries + 1) * List.length (iter_posts it))%nat
  /\ subseq (downloaded evs) (iter_posts it).
Proof.
  induction 1 as
    [ total w | e total w
    | post rest total w t w1 evs Hloop
    | post rest total w e w1 evs Hloop
    | post rest total w t w1 evs u1 w2 u2 w3 x w4 Hloop Hu1 Hu2 Hs
    | post rest total w t w1 evs u1 w2 u2 w3 a w4 r w' evs' Hloop Hu1 Hu2 Hs
        Hrest IH ].
  - split; [|split; [|split; [|split]]]; simpl; auto.
    + unfold attempts. simpl. lia.
    + apply subseq_nil.
  - split; [|split; [|split; [|split]]]; simpl; auto.
    + unfold attempts. simpl. lia.
    + apply subseq_nil.
  - destruct (loop_run_calls Hloop) as [Hc [Ht [Hp [Ha Hd]]]].
    rewrite Z.sub_0_r in Ha.
    split; [|split; [|split; [|split]]]; auto.
    + simpl. lia.
    + exact (subseq_extend (iter_posts rest) Hd).
  - destruct (loop_run_calls Hloop) as [Hc [Ht [Hp [Ha Hd]]]].
    rewrite Z.sub_0_r in Ha.
    split; [|split; [|split; [|split]]]; auto.
    + simpl. lia.
    + exact (subseq_extend (iter_posts rest) Hd).
  - destruct (loop_run_calls Hloop) as [Hc [Ht [Hp [Ha Hd]]]].
    rewrite Z.sub_0_r in Ha.
    split; [|split; [|split; [|split]]].
    + rewrite forallb_app, Hc. reflexivity.
    + rewrite targets_app. simpl. now rewrite app_nil_r.
    + now rewrite paced_quiet.
    + rewrite attempts_app. unfold attempts at 2. simpl. lia.
    + rewrite downloaded_app. simpl. rewrite app_nil_r.
      exact (subseq_extend (iter_posts rest) Hd).
  - destruct (loop_run_calls Hloop) as [Hc [Ht [Hp [Ha Hd]]]].
    rewrite Z.sub_0_r in Ha.
    destruct IH as [Hc' [Ht' [Hp' [Ha' Hd']]]].
    split; [|split; [|split; [|split]]].
    + rewrite !forallb_app, Hc, Hc'. reflexivity.
    + rewrite !targets_app. simpl. now apply Forall_app.
    + unfold pacing_events. cbn [app].
      change (evs ++ ?a :: ?b :: ?c :: ?d :: evs')
        with (evs ++ [a; b; c] ++ d :: evs').
      rewrite app_assoc, paced_sleep, paced_quiet by reflexivity.
      now rewrite Hp, Hp'.
    + rewrite !attempts_app. unfold attempts at 2. simpl.
      unfold attempts in *. lia.
    + rewrite !downloaded_app. simpl.
      exact (subseq_app Hd Hd').
Qed.

(** The download calls of the loop over the posts, post by post. *)
Lemma posts_run_attempted it total w r w' evs :
  posts_run it total w r w' evs ->
  exists counts : list nat,
    attempted evs = calls_per_post (iter_posts it) counts
    /\ Forall (fun k => (k <= Z.to_nat (per_post_retries + 1))%nat) counts
    /\ (List.length counts <= List.length (iter_posts it))%nat.
Proof.
  assert (Hone : forall post rest evs0 a t w0 r0 w1,
            loop_run post safe_name per_post_retries backoff_base
              a t w0 r0 w1 evs0 ->
            a = 0 ->
            attempted evs0
            = calls_per_post (post :: iter_posts rest) [attempts evs0]
            /\ (attempts evs0 <= Z.to_nat (per_post_retries + 1))%nat).
  { intros post rest evs0 a t w0 r0 w1 Hloop ->.
    destruct (loop_run_calls Hloop) as [_ [_ [_ [Ha _]]]].
    rewrite Z.sub_0_r in Ha. split; [|exact Ha].
    rewrite (loop_run_attempted Hloop). unfold calls_per_post.
    cbn [combine flat_map fst snd]. destruct (iter_posts rest); simpl;
      now rewrite app_nil_r. }
  induction 1 as
    [ total w | e total w
    | post rest total w t w1 evs Hloop
    | post rest total w e w1 evs Hloop
    | post rest total w t w1 evs u1 w2 u2 w3 x w4 Hloop Hu1 Hu2 Hs
    | post rest total w t w1 evs u1 w2 u2 w3 a w4 r w' evs' Hloop Hu1 Hu2 Hs
        Hrest IH ].
  - exists []. repeat split; simpl; auto.
  - exists []. repeat split; simpl; auto.
  - destruct (Hone post rest _ _ _ _ _ _ Hloop eq_refl) as [Hq Hb].
    exists [attempts evs]. repeat split; simpl; auto; lia.
  - destruct (Hone post rest _ _ _ _ _ _ Hloop eq_refl) as [Hq Hb].
    exists [attempts evs]. repeat split; simpl; auto; lia.
  - destruct (Hone post rest _ _ _ _ _ _ Hloop eq_refl) as [Hq Hb].
    exists [attempts evs]. split; [|split; [auto | simpl; lia]].
    rewrite attempted_app. simpl. now rewrite app_nil_r.
  - destruct IH as [counts [Hq [Hb Hl]]].
    destruct (loop_run_calls Hloop) as [_ [_ [_ [Ha _]]]].
    rewrite Z.sub_0_r in Ha.
    exists (attempts evs :: counts). split; [|split; [auto | simpl; lia]].
    rewrite !attempted_app, (loop_run_attempted Hloop), Hq. simpl.
    reflexivity.
Qed.

(** With a negative retry count the loop over the posts never calls the
    download: it only waits once for each post. *)
Lemma posts_run_negative it total w r w' evs :
  posts_run it total w r w' evs ->
  per_post_retries < 0 ->
  attempts evs = 0%nat
  /\ forall n, r = Ok n ->
       n = total /\ List.length (waits evs) = List.length (iter_posts it).
Proof.
  intros Hrun Hneg.
  induction Hrun as
    [ total w | e total w
    | post rest total w t w1 evs Hloop
    | post rest total w e w1 evs Hloop
    | post rest total w t w1 evs u1 w2 u2 w3 x w4 Hloop Hu1 Hu2 Hs
    | post rest total w t w1 evs u1 w2 u2 w3 a w4 r w' evs' Hloop Hu1 Hu2 Hs
        Hrest IH ];
    try (destruct (loop_run_negative Hloop Hneg) as [Hr ->]).
  - split; [reflexivity|]. intros n Hn. injection Hn as <-. auto.
  - split; [reflexivity|]. discriminate.
  - discriminate Hr.
  - discriminate Hr.
  - split; [reflexivity|]. discriminate.
  - injection Hr as ->. destruct IH as [Ha Hn].
    split.
    + simpl. exact Ha.
    + intros n Hr. destruct (Hn n Hr) as [-> Hw]. split; [reflexivity|].
      simpl. now rewrite Hw.
Qed.

(** The count a run returns is the number of download calls that
    succeeded. *)
Lemma ending_count (total : Z) n (evs : list (event Post)) :
  ending total (Ok n) evs -> n = total + successes evs.
Proof.
  inversion 1; subst; [reflexivity|].
  rewrite successes_app. unfold successes at 3. simpl. lia.
Qed.

End DownloaderFacts.

Section DownloaderRuns.

Context {Post W : Type}.
Variable cl : Client Post W.
Variable prof : profile.
Variables (min_delay max_delay : float).
Variables (per_post_retries : Z) (backoff_base : float).

Local Abbreviation safe_name := (sanitize_filename (username prof)).
Local Abbreviation run :=
  (download_posts_with_delays cl prof min_delay max_delay per_post_retries
     backoff_base).

(** Everything the run relations say about the calls of one run of the
    downloader. *)
Lemma downloader_calls (s : state Post W) :
  (exists tl, calls run s = EvMakedirs safe_name :: tl)
  /\ forallb is_downloader_call (calls run s) = true
  /\ Forall (fun n => n = safe_name) (targets (calls run s))
  /\ paced true (calls run s) = true
  /\ (attempts (calls run s)
      <= Z.to_nat (per_post_retries + 1)
         * List.length (listed_posts cl prof s))%nat
  /\ subseq (downloaded (calls run s)) (listed_posts cl prof s)
  /\ (forall n, fst (run s) = Ok n -> n = successes (calls run s))
  /\ (per_post_retries < 0 ->
      attempts (calls run s) = 0%nat
      /\ forall n, fst (run s) = Ok n ->
           n = 0
           /\ List.length (waits (calls run s))
              = List.length (listed_posts cl prof s)).
Proof.
  destruct (download_posts_with_delays_run cl prof min_delay max_delay
              per_post_retries backoff_base s) as [r [w' [evs [Hrun Hrel]]]].
  rewrite (calls_log run Hrun), Hrun. cbn [fst].
  pose proof (download_run_ending Hrel) as Hend.
  unfold listed_posts.
  inversion Hrel as
    [ w x w1 Hm | w a w1 x w2 Hm Hg | w a w1 it w2 r0 w0 evs0 Hm Hg Hposts ];
    subst; rewrite Hm; try rewrite Hg.
  - split; [eexists; reflexivity|]. split; [reflexivity|].
    split; [simpl; constructor|]. split; [reflexivity|].
    split; [unfold attempts; simpl; lia|]. split; [apply subseq_nil|].
    split; [discriminate|]. intros _. split; [reflexivity | discriminate].
  - split; [eexists; reflexivity|]. split; [reflexivity|].
    split; [simpl; constructor|]. split; [reflexivity|].
    split; [unfold attempts; simpl; lia|]. split; [apply subseq_nil|].
    split; [discriminate|]. intros _. split; [reflexivity | discriminate].
  - destruct (posts_run_calls Hposts) as [Hc [Ht [Hp [Ha Hd]]]].
    split; [|split; [|split; [|split; [|split; [|split; [|split]]]]]].
    + eexists. reflexivity.
    + simpl. exact Hc.
    + simpl. exact Ht.
    + simpl. exact Hp.
    + exact Ha.
    + exact Hd.
    + intros n ->. apply ending_count in Hend. lia.
    + intros Hneg. destruct (posts_run_negative Hposts Hneg) as [Hz Hn].
      split; [exact Hz|]. intros n ->. destruct (Hn n eq_refl) as [-> Hw].
      split; [reflexivity | exact Hw].
Qed.

End DownloaderRuns.

(** Every download is directed into the directory that was created first,
    whose name is the sanitized handle and so holds no unsafe character:
    the first call of the downloader is [os.makedirs] on that name, and it
    is the target of every [download_post] call. *)
Theorem downloads_target_the_created_directory :
  forall (Post W : Type) (cl : Client Post W) (prof : profile)
    (min_delay max_delay : float) (per_post_retries : Z)
    (backoff_base : float) (s : state Post W),
  let safe_name := sanitize_filename (username prof) in
  let evs :=
    calls (download_posts_with_delays cl prof min_delay max_delay
             per_post_retries backoff_base) s in
  (exists tl, evs = EvMakedirs safe_name :: tl)
  /\ Forall (fun n => n = safe_name) (targets evs)
  /\ forallb (fun c => negb (is_unsafe c)) safe_name = true.
Proof.
  intros Post W cl prof mn mx R b s safe_name evs.
  destruct (downloader_calls cl prof mn mx R b s) as [H1 [_ [H3 _]]].
  repeat split; [exact H1 | exact H3 | apply sanitize_filename_safe].
Qed.

(** The downloader never prompts the user, never touches the session or
    the login and never looks a profile up: it only creates the
    directory, lists the posts, downloads, draws random numbers, prints
    and sleeps. *)
Theorem downloader_makes_no_other_call :
  forall (Post W : Type) (cl : Client Post W) (prof : profile)
    (min_delay max_delay : float) (per_post_retries : Z)
    (backoff_base : float) (s : state Post W),
  forallb is_downloader_call
    (calls (download_posts_with_delays cl prof min_delay max_delay
              per_post_retries backoff_base) s) = true.
Proof.
  intros Post W cl prof mn mx R b s.
  apply (downloader_calls cl prof mn mx R b s).
Qed.

(** Two download calls are never made back to back: between any download
    call and the next one, for the same post or for the next post, a
    [time.sleep] has completed. *)
Theorem a_wait_separates_download_calls :
  forall (Post W : Type) (cl : Client Post W) (prof : profile)
    (min_delay max_delay : float) (per_post_retries : Z)
    (backoff_base : float) (s : state Post W)
    (before between after : list (event Post))
    (p1 p2 : Post) (n1 n2 : pystr) (o1 o2 : result unit),
  calls (download_posts_with_delays cl prof min_delay max_delay
           per_post_retries backoff_base) s
  = before ++ EvDownloadPost p1 n1 o1
           :: between ++ EvDownloadPost p2 n2 o2 :: after ->
  exists d a, In (EvSleep d (Ok a)) between.
Proof.
  intros Post W cl prof mn mx R b s l1 mid l2 p1 p2 n1 n2 o1 o2 Heq.
  destruct (downloader_calls cl prof mn mx R b s) as [_ [_ [_ [Hp _]]]].
  rewrite Heq in Hp. apply paced_suffix in Hp as [b' Hp].
  simpl in Hp. apply andb_true_iff in Hp as [_ Hp].
  exact (paced_between _ _ _ _ _ Hp).
Qed.

Lemma a_wait_separates_download_calls_witness :
  exists d a,
    In (EvSleep d (Ok a))
      (firstn 3
         (skipn 4
            (calls (download_posts_with_delays
                      (Scripted.steady Runs.failing (lit "") 0.5)
                      {| username := lit "a" |} 4 9 1 2)
               Scripted.begin))).
Proof.
  pose (evs :=
          calls (download_posts_with_delays
                   (Scripted.steady Runs.failing (lit "") 0.5)
                   {| username := lit "a" |} 4 9 1 2)
            Scripted.begin).
  apply (@a_wait_separates_download_calls nat unit
           (Scripted.steady Runs.failing (lit "") 0.5)
           {| username := lit "a" |} 4 9 1 2 Scripted.begin
           (firstn 3 evs) (firstn 3 (skipn 4 evs)) (skipn 8 evs)
           1%nat 1%nat (lit "a") (lit "a")
           (Raise (ConnectionException (lit "timed out")))
           (Raise (ConnectionException (lit "timed out")))).
  vm_compute. reflexivity.
Defined.

(** The downloader makes at most [per_post_retries + 1] download calls
    for each post of the listing: its download calls are, in the order of
    the listing, some number of consecutive calls for the first post, then
    for the second, and so on, each number being at most
    [per_post_retries + 1] (a run that ends early leaves the last posts
    without any).  So they are at most that many times the number of
    listed posts in all, and none when the creation of the directory or
    the listing fails. *)
Theorem download_calls_are_bounded :
  forall (Post W : Type) (cl : Client Post W) (prof : profile)
    (min_delay max_delay : float) (per_post_retries : Z)
    (backoff_base : float) (s : state Post W),
  let evs :=
    calls (download_posts_with_delays cl prof min_delay max_delay
             per_post_retries backoff_base) s in
  (exists counts : list nat,
      attempted evs = calls_per_post (listed_posts cl prof s) counts
      /\ Forall (fun k => (k <= Z.to_nat (per_post_retries + 1))%nat) counts
      /\ (List.length counts <= List.length (listed_posts cl prof s))%nat)
  /\ (attempts evs
      <= Z.to_nat (per_post_retries + 1)
         * List.length (listed_posts cl prof s))%nat.
Proof.
  intros Post W cl prof mn mx R b s evs. subst evs.
  split; [|apply (downloader_calls cl prof mn mx R b s)].
  destruct (download_posts_with_delays_run cl prof mn mx R b s)
    as [r [w' [evs [Hrun Hrel]]]].
  rewrite (calls_log _ Hrun). unfold listed_posts.
  inversion Hrel as
    [ w x w1 Hm | w a w1 x w2 Hm Hg | w a w1 it w2 r0 w0 evs0 Hm Hg Hposts ];
    subst; rewrite Hm; try rewrite Hg.
  - exists []. repeat split; simpl; auto.
  - exists []. repeat split; simpl; auto.
  - destruct (posts_run_attempted Hposts) as [counts [Hq [Hb Hl]]].
    exists counts. rewrite attempted_app. simpl. auto.
Qed.

(** The posts downloaded successfully are listed posts, in the order of
    the listing and each at most once per occurrence in it; the count the
    downloader returns is their number. *)
Theorem returned_count_is_the_downloaded_posts :
  forall (Post W : Type) (cl : Client Post W) (prof : profile)
    (min_delay max_delay : float) (per_post_retries : Z)
    (backoff_base : float) (s : state Post W),
  let run :=
    download_posts_with_delays cl prof min_delay max_delay per_post_retries
      backoff_base in
  subseq (downloaded (calls run s)) (listed_posts cl prof s)
  /\ forall n, fst (run s) = Ok n ->
       n = Z.of_nat (List.length (downloaded (calls run s)))
       /\ 0 <= n <= Z.of_nat (List.length (listed_posts cl prof s)).
Proof.
  intros Post W cl prof mn mx R b s run. subst run.
  destruct (downloader_calls cl prof mn mx R b s)
    as [_ [_ [_ [_ [_ [Hd [Hn _]]]]]]].
  split; [exact Hd|]. intros n Hr. apply Hn in Hr.
  rewrite successes_downloaded in Hr. split; [exact Hr|].
  apply subseq_length in Hd. rewrite Hr. lia.
Qed.

(** With a negative retry count the [while] condition is false at once
    for every post: no download is ever called, and a run that returns
    returns 0 after one pacing sleep for each listed post. *)
Theorem negative_retries_download_nothing :
  forall (Post W : Type) (cl : Client Post W) (prof : profile)
    (min_delay max_delay : float) (per_post_retries : Z)
    (backoff_base : float) (s : state Post W),
  per_post_retries < 0 ->
  let run :=
    download_posts_with_delays cl prof min_delay max_delay per_post_retries
      backoff_base in
  attempts (calls run s) = 0%nat
  /\ forall n, fst (run s) = Ok n ->
       n = 0
       /\ List.length (waits (calls run s))
          = List.length (listed_posts cl prof s).
Proof.
  intros Post W cl prof mn mx R b s Hneg run.
  apply (downloader_calls cl prof mn mx R b s). exact Hneg.
Qed.

Lemma negative_retries_download_nothing_witness :
  let run :=
    download_posts_with_delays (Scripted.steady Runs.failing (lit "") 0.5)
      {| username := lit "a" |} 4 9 (-1) 2 in
  attempts (calls run Scripted.begin) = 0%nat
  /\ forall n, fst (run Scripted.begin) = Ok n ->
       n = 0
       /\ List.length (waits (calls run Scripted.begin))
          = List.length
              (listed_posts (Scripted.steady Runs.failing (lit "") 0.5)
                 {| username := lit "a" |} Scripted.begin).
Proof.
  apply (@negative_retries_download_nothing nat unit
           (Scripted.steady Runs.failing (lit "") 0.5)
           {| username := lit "a" |} 4 9 (-1) 2 Scripted.begin).
  reflexivity.
Defined.

(** ** Credentials and the interactive login *)

Section Credentials.

Context {Post W : Type}.
Variable cl : Client Post W.

Lemma get_credentials_cases (s : state Post W) :
  match fst (get_credentials cl s) with
  | Ok (u, p) =>
      strip u = u /\ strip p = p
      /\ (calls (get_credentials cl) s
          = [EvInput prompt_username;
             EvGetpass (lit "Enter your Instagram password: ")]
          \/ calls (get_credentials cl) s
             = [EvInput prompt_username;
                EvGetpass (lit "Enter your Instagram password: ");
                EvInput (lit "Enter your Instagram password (visible): ")]
             /\ exists w e w1,
                  getpass cl (lit "Enter your Instagram password: ") w
                  = (Raise e, w1)
                  /\ is_Exception e = true)
  | Raise _ => True
  end.
Proof.
  unfold calls.
  unfold get_credentials, py_input, bind, try_except, call, ret, raise.
  destruct (input cl prompt_username (world s)) as [[u|e] w1];
    cbn [fst snd world trace]; [|exact I].
  destruct (getpass cl (lit "Enter your Instagram password: ") w1)
    as [[p|e] w2] eqn:Hg; cbn [fst snd world trace].
  - rewrite !strip_idem. repeat split. left.
    rewrite <- app_assoc, skipn_app, skipn_all, Nat.sub_diag. reflexivity.
  - destruct (is_Exception e) eqn:He; cbn [fst snd world trace]; [|exact I].
    destruct (input cl (lit "Enter your Instagram password (visible): ") w2)
      as [[p|e'] w3]; cbn [fst snd world trace]; [|exact I].
    rewrite !strip_idem. repeat split. right. split.
    + rewrite <- !app_assoc, skipn_app, skipn_all, Nat.sub_diag. reflexivity.
    + eauto.
Qed.

End Credentials.

(** The credentials [get_credentials] returns carry no surrounding white
    space.  It asks for the user name and then for the password without
    echo; it asks for the password a second time, with echo, only after
    [getpass] raised an Exception. *)
Theorem credentials_are_stripped :
  forall (Post W : Type) (cl : Client Post W) (s s' : state Post W)
    (u p : pystr),
  get_credentials cl s = (Ok (u, p), s') ->
  strip u = u /\ strip p = p
  /\ (calls (get_credentials cl) s
      = [EvInput prompt_username;
         EvGetpass (lit "Enter your Instagram password: ")]
      \/ calls (get_credentials cl) s
         = [EvInput prompt_username;
            EvGetpass (lit "Enter your Instagram password: ");
            EvInput (lit "Enter your Instagram password (visible): ")]
         /\ exists w e w1,
              getpass cl (lit "Enter your Instagram password: ") w
              = (Raise e, w1)
              /\ is_Exception e = true).
Proof.
  intros Post W cl s s' u p H.
  pose proof (get_credentials_cases cl s) as Hc. rewrite H in Hc.
  exact Hc.
Qed.

Lemma credentials_are_stripped_witness :
  strip (lit "alice") = lit "alice" /\ strip (lit "secret") = lit "secret"
  /\ (calls (get_credentials EchoedPassword.cl)
        (Scripted.start EchoedPassword.answers)
      = [EvInput prompt_username;
         EvGetpass (lit "Enter your Instagram password: ")]
      \/ calls (get_credentials EchoedPassword.cl)
           (Scripted.start EchoedPassword.answers)
         = [EvInput prompt_username;
            EvGetpass (lit "Enter your Instagram password: ");
            EvInput (lit "Enter your Instagram password (visible): ")]
         /\ exists w e w1,
              getpass EchoedPassword.cl
                (lit "Enter your Instagram password: ") w
              = (Raise e, w1)
              /\ is_Exception e = true).
Proof.
  exact (@credentials_are_stripped nat Scripted.tape EchoedPassword.cl
           (Scripted.start EchoedPassword.answers)
           (snd (get_credentials EchoedPassword.cl
                   (Scripted.start EchoedPassword.answers)))
           (lit "alice") (lit "secret") eq_refl).
Defined.

Section LoginErrors.

Context {Post W : Type}.
Variable cl : Client Post W.
Variable Q : exn -> Prop.

Hypothesis load_raises : forall u w x w1,
  load_session_from_file cl u w = (Raise x, w1) ->
  is_FileNotFoundError x = false -> Q x.
Hypothesis input_raises : forall p w x w1,
  input cl p w = (Raise x, w1) -> Q x.
Hypothesis getpass_raises : forall p w x w1,
  getpass cl p w = (Raise x, w1) -> is_Exception x = false -> Q x.
Hypothesis sleep_raises : forall d w x w1,
  sleep cl d w = (Raise x, w1) -> Q x.
Hypothesis login_raises : forall u p w x w1,
  login cl u p w = (Raise x, w1) ->
  is_LoginException x = false -> is_ConnectionException x = false -> Q x.
Hypothesis two_factor_raises : forall c w x w1,
  two_factor_login cl c w = (Raise x, w1) -> is_Exception x = false -> Q x.
Hypothesis save_raises : forall w x w1,
  save_session_to_file cl w = (Raise x, w1) -> is_Exception x = false -> Q x.

Local Abbreviation wrapped :=
  (raises_only (fun e => is_RuntimeError e = true \/ Q e)).

Lemma two_factor_path_raises user (s : state Post W) :
  wrapped (fst (two_factor_path cl user s)).
Proof.
  unfold two_factor_path, py_input, print, emit, bind, try_except, call,
    ret, raise.
  cbn [world trace].
  destruct (input cl (lit "Enter 2FA code (from your authenticator/SMS): ")
              (world s)) as [[c|e] w1] eqn:Hi; cbn [fst snd world trace].
  2:{ right. eauto. }
  destruct (two_factor_login cl (strip c) w1) as [[a|e] w2] eqn:Ht;
    cbn [fst snd world trace].
  - destruct (save_session_to_file cl w2) as [[a'|e] w3] eqn:Hs;
      cbn [fst snd world trace]; [exact I|].
    destruct (is_Exception e) eqn:He; cbn [fst snd world trace]; [exact I|].
    rewrite He. right. eauto.
  - destruct (is_Exception e) eqn:He; cbn [fst snd world trace].
    + left. reflexivity.
    + right. eauto.
Qed.

Lemma not_exception_not_login e :
  is_Exception e = false ->
  is_TwoFactorAuthRequiredException e = false
  /\ is_LoginException e = false /\ is_ConnectionException e = false.
Proof. destruct e; simpl; intros H; auto; discriminate H. Qed.

(** The flow from the pause before the login on, which follows the
    credentials whichever way the password was read. *)
Local Ltac pause_and_login :=
  match goal with
  | |- context [random cl ?w] => destruct (random cl w) as [? ?]
  end;
  cbn [fst snd world trace];
  match goal with
  | |- context [sleep cl ?x ?w] => destruct (sleep cl x w) as [[?|?] ?] eqn:?
  end;
  cbn [fst snd world trace]; [|right; eauto];
  match goal with
  | |- context [login cl ?u ?p ?w] =>
      destruct (login cl u p w) as [[?|?] ?] eqn:?
  end;
  cbn [fst snd world trace];
  [ match goal with
    | |- context [save_session_to_file cl ?w] =>
        destruct (save_session_to_file cl w) as [[?|?] ?] eqn:?
    end;
    cbn [fst snd world trace]; [exact I|];
    match goal with
    | |- context [is_Exception ?x] =>
        let He := fresh "He" in
        destruct (is_Exception x) eqn:He; cbn [fst snd world trace];
        [ exact I
        | destruct (not_exception_not_login x He) as [-> [-> ->]];
          right; eauto ]
    end
  | match goal with
    | |- context [is_TwoFactorAuthRequiredException ?x] =>
        destruct (is_TwoFactorAuthRequiredException x) eqn:?;
        [ apply two_factor_path_raises
        | destruct (is_LoginException x) eqn:?; cbn [fst];
          [ left; reflexivity
          | destruct (is_ConnectionException x) eqn:?; cbn [fst];
            [ left; reflexivity | right; eauto ] ] ]
    end ].

Lemma interactive_login_raises (s : state Post W) :
  wrapped (fst (interactive_login cl s)).
Proof.
  unfold interactive_login, get_credentials, uniform, py_sleep, py_input,
    save_after_login, print, emit, bind, try_except, call, call_r, ret,
    raise.
  destruct (input cl prompt_username (world s)) as [[u|e] w1] eqn:Hi;
    cbn [fst snd world trace].
  2:{ right. eauto. }
  destruct (getpass cl (lit "Enter your Instagram password: ") w1)
    as [[p|e] w2] eqn:Hg; cbn [fst snd world trace].
  - pause_and_login.
  - destruct (is_Exception e) eqn:He; cbn [fst snd world trace].
    + destruct (input cl (lit "Enter your Instagram password (visible): ")
                  w2) as [[p|e'] w3] eqn:Hi2; cbn [fst snd world trace].
      * pause_and_login.
      * right. eauto.
    + right. eauto.
Qed.

Lemma login_with_session_raises username allow (s : state Post W) :
  wrapped (fst (login_with_session cl username allow s)).
Proof.
  unfold login_with_session. unfold bind.
  destruct username as [[|c u]|]; cbn [try_saved_session ret].
  - destruct allow; cbn [negb]; [apply interactive_login_raises|].
    left. reflexivity.
  - unfold try_except, bind, call, print, emit, ret, raise.
    destruct (load_session_from_file cl (c :: u) (world s))
      as [[a|e] w1] eqn:Hl; cbn [fst snd world trace]; [exact I|].
    destruct (is_FileNotFoundError e) eqn:He; cbn [fst snd world trace].
    + destruct allow; cbn [negb]; [apply interactive_login_raises|].
      left. reflexivity.
    + right. eauto.
  - destruct allow; cbn [negb]; [apply interactive_login_raises|].
    left. reflexivity.
Qed.

End LoginErrors.

(** An error of the login never leaves [login_with_session] as it is:
    a LoginException or ConnectionException raised by [loader.login], and
    any Exception raised by [loader.two_factor_login], is raised again as
    RuntimeError, which is what [main] catches.  Whatever else the
    resolver raises was raised by a prompt, by the pause, by the load of
    the session (not FileNotFoundError), by the login (neither of the two
    classes), or is a non-Exception raised by [getpass], by the two-factor
    login or by the saving of the session: for any property Q of all
    those, the resolver returns or raises a RuntimeError or an exception
    with Q. *)
Theorem login_errors_are_wrapped :
  forall (Post W : Type) (cl : Client Post W) (Q : exn -> Prop)
    (username : option pystr) (allow_interactive : bool)
    (s : state Post W),
  (forall u w x w1,
      load_session_from_file cl u w = (Raise x, w1) ->
      is_FileNotFoundError x = false -> Q x) ->
  (forall p w x w1, input cl p w = (Raise x, w1) -> Q x) ->
  (forall p w x w1,
      getpass cl p w = (Raise x, w1) -> is_Exception x = false -> Q x) ->
  (forall d w x w1, sleep cl d w = (Raise x, w1) -> Q x) ->
  (forall u p w x w1,
      login cl u p w = (Raise x, w1) ->
      is_LoginException x = false -> is_ConnectionException x = false ->
      Q x) ->
  (forall c w x w1,
      two_factor_login cl c w = (Raise x, w1) ->
      is_Exception x = false -> Q x) ->
  (forall w x w1,
      save_session_to_file cl w = (Raise x, w1) ->
      is_Exception x = false -> Q x) ->
  raises_only (fun e => is_RuntimeError e = true \/ Q e)
    (fst (login_with_session cl username allow_interactive s)).
Proof.
  intros Post W cl Q username allow s H1 H2 H3 H4 H5 H6 H7.
  now apply login_with_session_raises.
Qed.

Lemma login_errors_are_wrapped_witness :
  raises_only (fun e => is_RuntimeError e = true \/ False)
    (fst (login_with_session RejectedLogin.cl None true Scripted.begin)).
Proof.
  apply (@login_errors_are_wrapped nat unit RejectedLogin.cl
           (fun _ => False) None true Scripted.begin).
  - intros u w x w1 H. discriminate H.
  - intros p w x w1 H. discriminate H.
  - intros p w x w1 H. discriminate H.
  - intros d w x w1 H. discriminate H.
  - intros u p w x w1 H. injection H as <- _. discriminate.
  - intros c w x w1 H. discriminate H.
  - intros w x w1 H. discriminate H.
Defined.

(** A rejected login, run: the resolver raises
    RuntimeError with the text of the LoginException after its prefix. *)
Example rejected_login_raises_runtime_error :
  fst (login_with_session RejectedLogin.cl None true Scripted.begin)
  = Raise (RuntimeError (lit "Login failed: bad password")).
Proof. vm_compute. reflexivity. Qed.

Section EmptyIdentifier.

Context {Post W : Type}.
Variable cl : Client Post W.

Lemma interactive_login_no_load :
  emits (fun ev : event Post => negb (is_load_session ev))
    (interactive_login cl).
Proof.
  unfold interactive_login, get_credentials, save_after_login,
    two_factor_path, py_input, py_sleep, print, sys_exit.
  repeat emits_step.
Qed.

End EmptyIdentifier.

(** Without an identifier, or with the empty string for one, the session
    file is never looked for: the resolver makes no call to
    [load_session_from_file], and with interactive login disallowed it
    raises RuntimeError without having called anything. *)
Theorem empty_identifier_skips_the_session_file :
  forall (Post W : Type) (cl : Client Post W) (username : option pystr)
    (allow_interactive : bool) (s : state Post W),
  truthy username = false ->
  forallb (fun ev => negb (is_load_session ev))
    (calls (login_with_session cl username allow_interactive) s) = true
  /\ (allow_interactive = false ->
      login_with_session cl username allow_interactive s
      = (Raise (RuntimeError msg_no_session), s)).
Proof.
  intros Post W cl username allow s Hu.
  assert (Heq : login_with_session cl username allow s
                = if allow then interactive_login cl s
                  else (Raise (RuntimeError msg_no_session), s)).
  { destruct username as [[|c u]|]; [| discriminate Hu |];
      destruct allow; reflexivity. }
  split.
  - unfold calls. rewrite Heq. destruct allow.
    + apply (calls_emits s (interactive_login_no_load cl)).
    + simpl. now rewrite skipn_all.
  - intros ->. exact Heq.
Qed.

Lemma empty_identifier_skips_the_session_file_witness :
  forallb (fun ev => negb (is_load_session ev))
    (calls (login_with_session MissingSession.cl (Some []) false)
       Scripted.begin) = true
  /\ (false = false ->
      login_with_session MissingSession.cl (Some []) false Scripted.begin
      = (Raise (RuntimeError msg_no_session), Scripted.begin)).
Proof.
  exact (@empty_identifier_skips_the_session_file nat unit MissingSession.cl
           (Some []) false Scripted.begin eq_refl).
Defined.

(** ** [main] before the download phase *)

Section MainCalls.

Context {Post W : Type}.
Variable cl : Client Post W.

Lemma downloader_emits P prof mn mx R b :
  (forall ev : event Post, is_downloader_call ev = true -> P ev = true) ->
  emits P (download_posts_with_delays cl prof mn mx R b).
Proof.
  intros HP s.
  destruct (download_posts_with_delays_run cl prof mn mx R b s)
    as [r [w' [evs [Hrun Hrel]]]].
  exists evs. split; [now rewrite Hrun|].
  destruct (downloader_calls cl prof mn mx R b s) as [_ [Hc _]].
  rewrite (calls_log _ Hrun) in Hc.
  rewrite forallb_forall in *. auto.
Qed.

Lemma download_phase_emits P prof :
  (forall ev : event Post, is_downloader_call ev = true -> P ev = true) ->
  emits P (download_phase cl prof).
Proof.
  intros HP. unfold download_phase, print.
  repeat first
    [ apply downloader_emits; assumption
    | apply emits_emit; apply HP; reflexivity
    | emits_step ].
Qed.

Lemma download_phase_appends prof :
  emits (fun _ : event Post => true) (download_phase cl prof).
Proof. now apply download_phase_emits. Qed.

Lemma login_with_session_appends username allow :
  emits (fun _ : event Post => true) (login_with_session cl username allow).
Proof.
  unfold login_with_session, try_saved_session, interactive_login,
    get_credentials, save_after_login, two_factor_path, py_input, py_sleep,
    print, sys_exit.
  repeat emits_step.
Qed.

End MainCalls.

(** When the preflight lookup of the site's name raises an Exception,
    [check_dns] reports it and returns False, and [main] stops with
    [sys.exit(1)] having made no other call than the lookup and the two
    messages: nobody is prompted and nothing is requested. *)
Theorem failed_preflight_stops_main :
  forall (Post W : Type) (cl : Client Post W) (s : state Post W)
    (e : exn) (w1 : W),
  gethostbyname cl (lit "www.instagram.com") (world s) = (Raise e, w1) ->
  is_Exception e = true ->
  let report :=
    EvPrint (cross_mark ++ lit " DNS/Network check failed: " ++ exn_str e) in
  check_dns cl (lit "www.instagram.com") s
  = (Ok false, log s w1 [EvGethostbyname (lit "www.instagram.com"); report])
  /\ main cl s
     = (Raise (SystemExit 1),
        log s w1 [EvGethostbyname (lit "www.instagram.com"); report;
                  EvPrint msg_check_connection]).
Proof.
  intros Post W cl s e w1 Hdns He report.
  assert (Hc : check_dns cl (lit "www.instagram.com") s
               = (Ok false,
                  log s w1 [EvGethostbyname (lit "www.instagram.com");
                            report])).
  { unfold check_dns, try_except, bind, call, print, emit, ret.
    rewrite Hdns, He. unfold log. cbn [world trace].
    now rewrite <- app_assoc. }
  split; [exact Hc|].
  unfold main, upto_profile. unfold bind at 1 2. rewrite Hc.
  unfold bind, print, emit, sys_exit, raise, log. cbn.
  now rewrite <- app_assoc.
Qed.

Lemma failed_preflight_stops_main_witness :
  let report :=
    EvPrint (cross_mark ++ lit " DNS/Network check failed: "
             ++ lit "Name or service not known") in
  check_dns FailedPreflight.cl (lit "www.instagram.com") Scripted.begin
  = (Ok false,
     log Scripted.begin tt
       [EvGethostbyname (lit "www.instagram.com"); report])
  /\ main FailedPreflight.cl Scripted.begin
     = (Raise (SystemExit 1),
        log Scripted.begin tt
          [EvGethostbyname (lit "www.instagram.com"); report;
           EvPrint msg_check_connection]).
Proof.
  exact (@failed_preflight_stops_main nat unit FailedPreflight.cl
           Scripted.begin
           (OtherException (lit "Name or service not known")) tt
           eq_refl eq_refl).
Defined.

Lemma is_empty_strip (t : pystr) : is_empty (strip t) = forallb isspace t.
Proof.
  destruct (forallb isspace t) eqn:Hsp.
  - apply strip_nil_iff in Hsp. now rewrite Hsp.
  - destruct (strip t) eqn:Hst; [|reflexivity].
    apply strip_nil_iff in Hst. congruence.
Qed.

(** Runs [main] up to the answer to the first prompt, given the outcomes
    of the preflight lookup and of the prompt. *)
Ltac run_to_target Hdns Hin :=
  unfold main, upto_profile; rewrite !bind_assoc;
  unfold bind at 1; unfold check_dns, try_except, bind at 1, call, ret;
  rewrite Hdns; cbn [negb world trace];
  rewrite !bind_assoc; unfold bind at 1, py_input at 1, call;
  cbn [world trace]; rewrite Hin, is_empty_strip.

(** An answer to the first prompt that is empty or made of white space
    only is no target: [main] stops with [sys.exit(1)] right after it.
    With any other answer [main] goes on to the prompt for the saved
    session. *)
Theorem blank_target_stops_main :
  forall (Post W : Type) (cl : Client Post W) (s : state Post W)
    (w1 w2 : W) (t : pystr),
  gethostbyname cl (lit "www.instagram.com") (world s) = (Ok tt, w1) ->
  input cl prompt_target w1 = (Ok t, w2) ->
  if forallb isspace t then
    main cl s
    = (Raise (SystemExit 1),
       log s w2 [EvGethostbyname (lit "www.instagram.com");
                 EvInput prompt_target;
                 EvPrint (lit "No username provided. Exiting.")])
  else
    exists evs,
      calls (main cl) s
      = EvGethostbyname (lit "www.instagram.com") :: EvInput prompt_target
        :: EvInput prompt_session :: evs.
Proof.
  intros Post W cl s w1 w2 t Hdns Hin.
  destruct (forallb isspace t) eqn:Hsp.
  - run_to_target Hdns Hin. rewrite Hsp.
    unfold bind, print, emit, sys_exit, raise, log. cbn.
    now rewrite <- !app_assoc.
  - enough (exists evs,
              trace (snd (main cl s))
              = trace s
                ++ EvGethostbyname (lit "www.instagram.com")
                   :: EvInput prompt_target :: EvInput prompt_session :: evs)
      as [evs Hevs] by (exists evs; now apply calls_trace).
    run_to_target Hdns Hin. rewrite Hsp.
    rewrite !bind_assoc. unfold py_input at 1.
    match goal with
    | |- context [bind (call ?ev ?f) ?k ?st] =>
        destruct (@first_call Post W _ _ ev f k st) as [evs Hevs]
    end.
    { intros a. unfold login_phase, resolve_profile, private_check,
        py_input, py_sleep, print, sys_exit.
      repeat first [ apply login_with_session_appends
                   | apply download_phase_appends | emits_step ]. }
    exists evs. rewrite Hevs. cbn [trace].
    now rewrite <- !app_assoc.
Qed.

Lemma blank_target_stops_main_witness :
  if forallb isspace (lit "  ") then
    main BlankAnswers.cl Scripted.begin
    = (Raise (SystemExit 1),
       log Scripted.begin tt
         [EvGethostbyname (lit "www.instagram.com");
          EvInput prompt_target;
          EvPrint (lit "No username provided. Exiting.")])
  else
    exists evs,
      calls (main BlankAnswers.cl) Scripted.begin
      = EvGethostbyname (lit "www.instagram.com") :: EvInput prompt_target
        :: EvInput prompt_session :: evs.
Proof.
  exact (@blank_target_stops_main nat unit BlankAnswers.cl Scripted.begin
           tt tt (lit "  ") eq_refl eq_refl).
Defined.

(** ** The exits of [main] come before the download phase *)

Section ExitsEarly.

Context {Post W : Type}.
Variable cl : Client Post W.

Lemma exits_early_emits (c : M Post W verdict) :
  emits (@before_download Post) c -> exits_early c.
Proof.
  intros H s. destruct (H s) as [evs [Ht Hp]]. exists evs. auto.
Qed.

Lemma exits_early_bind {A} (c : M Post W A) (k : A -> M Post W verdict) :
  emits (@before_download Post) c -> (forall x, exits_early (k x)) ->
  exits_early (bind c k).
Proof.
  intros Hc Hk s. unfold bind. destruct (Hc s) as [evs [Ht Hp]].
  destruct (c s) as [[x|e] s1]; simpl in Ht.
  - destruct (Hk x s1) as [evs' [Ht' Hp']].
    exists (evs ++ evs'). split.
    + now rewrite Ht', Ht, app_assoc.
    + intros why Hw. rewrite forallb_app, Hp, (Hp' why Hw). reflexivity.
  - exists evs. split; [assumption|]. discriminate.
Qed.

Lemma exits_early_completes {A} (c : M Post W A) :
  emits (fun _ : event Post => true) c ->
  exits_early (bind c (fun _ => ret Completes)).
Proof.
  intros Hc s. unfold bind, ret. destruct (Hc s) as [evs [Ht _]].
  exists evs. destruct (c s) as [[x|e] s1]; simpl in *;
    (split; [assumption | discriminate]).
Qed.

Lemma main_verdict_exits_early : exits_early (main_verdict cl).
Proof.
  unfold main_verdict.
  apply exits_early_bind.
  { unfold check_dns, print. repeat emits_step. }
  intros [|]; cbn [negb].
  2:{ apply exits_early_emits. unfold print. repeat emits_step. }
  apply exits_early_bind; [unfold py_input; repeat emits_step|].
  intros t. destruct (is_empty (strip t)).
  { apply exits_early_emits. unfold print. repeat emits_step. }
  apply exits_early_bind; [unfold py_input; repeat emits_step|].
  intros su. apply exits_early_bind.
  { unfold login_verdict, py_input, print.
    repeat first [apply login_with_session_emits | emits_step]. }
  intros [why|]; [apply exits_early_emits; emits_step|].
  apply exits_early_bind; [emits_step|]. intros pause.
  apply exits_early_bind; [unfold py_sleep; emits_step|]. intros _.
  apply exits_early_bind.
  { unfold resolve_verdict, print. repeat emits_step. }
  intros [why|prof]; [apply exits_early_emits; emits_step|].
  apply exits_early_bind.
  { unfold private_verdict, print. repeat emits_step. }
  intros [why|]; [apply exits_early_emits; emits_step|].
  apply exits_early_completes, download_phase_appends.
Qed.

End ExitsEarly.

(** Whenever [main] ends with one of its own calls of [sys.exit(1)],
    whichever of the eight, nothing of the download phase has happened:
    no directory was created, no listing was requested and no post was
    downloaded. *)
Theorem exits_of_main_precede_the_download_phase :
  forall (Post W : Type) (cl : Client Post W) (s s' : state Post W)
    (why : exit_reason),
  main_verdict cl s = (Ok (Exits why), s') ->
  fst (main cl s) = Raise (SystemExit 1)
  /\ forallb before_download (calls (main cl) s) = true.
Proof.
  intros Post W cl s s' why Hv.
  destruct (main_ends_as_verdict cl s) as [Hstate Hres].
  rewrite Hv in Hres. cbn [fst] in Hres. split; [exact Hres|].
  destruct (main_verdict_exits_early cl s) as [evs [Ht Hp]].
  rewrite <- Hstate in Ht. rewrite (@calls_trace _ _ _ (main cl) s evs Ht).
  apply (Hp why). now rewrite Hv.
Qed.

Lemma exits_of_main_precede_the_download_phase_witness :
  fst (main FailedPreflight.cl Scripted.begin) = Raise (SystemExit 1)
  /\ forallb before_download (calls (main FailedPreflight.cl) Scripted.begin)
     = true.
Proof.
  exact (@exits_of_main_precede_the_download_phase nat unit
           FailedPreflight.cl Scripted.begin
           (snd (main_verdict FailedPreflight.cl Scripted.begin))
           DnsCheckFailed eq_refl).
Defined.

(** ** The pauses before the login and before the profile query *)

Section StartsWith.

Context {Post W : Type}.
Variable P : event Post -> bool.

Lemma starts_with_call {A} ev (f : W -> result A * W) :
  starts_with [ev] P (call ev f).
Proof.
  intros s. exists []. unfold call. destruct (f (world s)). auto.
Qed.

Lemma starts_with_emit {A} ev pre (c : M Post W A) :
  starts_with pre P c -> starts_with (ev :: pre) P (bind (emit ev) (fun _ => c)).
Proof.
  intros H s. unfold bind, emit.
  destruct (H {| world := world s; trace := trace s ++ [ev] |})
    as [evs [Ht Hp]].
  exists evs. rewrite Ht. simpl. now rewrite <- app_assoc.
Qed.

Lemma starts_with_bind {A B} pre (c : M Post W A) (k : A -> M Post W B) :
  starts_with pre P c -> (forall x, emits P (k x)) ->
  starts_with pre P (bind c k).
Proof.
  intros Hc Hk s. unfold bind. destruct (Hc s) as [evs [Ht Hp]].
  destruct (c s) as [[x|e] s1]; simpl in Ht.
  - destruct (Hk x s1) as [evs' [Ht' Hp']].
    exists (evs ++ evs'). rewrite Ht', Ht, forallb_app, Hp, Hp'.
    now rewrite <- !app_assoc.
  - exists evs. auto.
Qed.

Lemma starts_with_try_except {A} pre (c : M Post W A)
    (h : exn -> M Post W A) :
  starts_with pre P c -> (forall e, emits P (h e)) ->
  starts_with pre P (try_except c h).
Proof.
  intros Hc Hh s. unfold try_except. destruct (Hc s) as [evs [Ht Hp]].
  destruct (c s) as [[x|e] s1]; simpl in Ht.
  - exists evs. auto.
  - destruct (Hh e s1) as [evs' [Ht' Hp']].
    exists (evs ++ evs'). rewrite Ht', Ht, forallb_app, Hp, Hp'.
    now rewrite <- !app_assoc.
Qed.

End StartsWith.

Section PausedCalls.

Context {Post W : Type}.
Variable cl : Client Post W.
Variable target : event Post -> bool.
Variables a b : float.
Variable between : list (event Post).

Local Abbreviation quiet := (fun ev : event Post => negb (target ev)).
Local Abbreviation paused_once := (paused_once target a b between).
Local Abbreviation pauses_once := (pauses_once (W := W) target a b between).

Hypothesis random_is_quiet : forall u, target (EvRandom u) = false.
Hypothesis sleep_is_quiet : forall d r, target (EvSleep d r) = false.
Hypothesis between_is_quiet : forallb quiet between = true.

Lemma paused_once_prepend pre evs :
  forallb quiet pre = true -> paused_once evs -> paused_once (pre ++ evs).
Proof.
  intros Hpre [evs1 [H1 [-> | [u [r [ev [evs2 [Hev [H2 ->]]]]]]]]].
  - exists (pre ++ evs1). rewrite forallb_app, Hpre, H1. auto.
  - exists (pre ++ evs1). rewrite forallb_app, Hpre, H1.
    split; [reflexivity|]. right. exists u, r, ev, evs2.
    now rewrite <- app_assoc.
Qed.

Lemma pauses_once_emits {A} (c : M Post W A) :
  emits quiet c -> pauses_once c.
Proof.
  intros H s. destruct (H s) as [evs [Ht Hp]].
  exists evs. split; [assumption|]. exists evs. auto.
Qed.

Lemma pauses_once_bind {A B} (c : M Post W A) (k : A -> M Post W B) :
  emits quiet c -> (forall x, pauses_once (k x)) -> pauses_once (bind c k).
Proof.
  intros Hc Hk s. unfold bind. destruct (Hc s) as [evs [Ht Hp]].
  destruct (c s) as [[x|e] s1]; simpl in Ht.
  - destruct (Hk x s1) as [evs' [Ht' Hp']].
    exists (evs ++ evs'). split; [now rewrite Ht', Ht, app_assoc|].
    now apply paused_once_prepend.
  - exists evs. split; [assumption|]. exists evs. auto.
Qed.

Lemma pauses_once_ext {A} (c c' : M Post W A) :
  (forall s, c s = c' s) -> pauses_once c' -> pauses_once c.
Proof. intros H Hc s. rewrite H. apply Hc. Qed.

(** The pause and the call it is for. *)
Lemma pauses_once_pause {A} ev (rest : M Post W A) :
  target ev = true ->
  starts_with (between ++ [ev]) quiet rest ->
  pauses_once
    (bind (uniform cl a b)
       (fun pause => bind (py_sleep cl pause) (fun _ => rest))).
Proof.
  intros Hev Hrest s.
  unfold uniform, py_sleep, bind, call_r, ret. cbn [world trace].
  destruct (random cl (world s)) as [u w1]. cbn [world trace].
  destruct (sleep cl (uniform_of a b u) w1) as [[r|e] w2].
  - match goal with
    | |- context [rest ?st] => destruct (Hrest st) as [evs2 [Ht H2]]
    end.
    exists ([EvRandom u; EvSleep (uniform_of a b u) (Ok r)]
            ++ between ++ ev :: evs2).
    split.
    + rewrite Ht. cbn [trace]. rewrite <- !app_assoc. reflexivity.
    + exists []. split; [reflexivity|]. right.
      exists u, r, ev, evs2. auto.
  - exists [EvRandom u; EvSleep (uniform_of a b u) (Raise e)].
    split; [cbn [snd trace]; now rewrite <- app_assoc|].
    eexists. split; [|left; reflexivity].
    simpl. now rewrite random_is_quiet, sleep_is_quiet.
Qed.

(** Where the one target of a paused trace is. *)
Lemma paused_once_split evs before ev after :
  paused_once evs -> evs = before ++ ev :: after -> target ev = true ->
  exists pre u r,
    before
    = pre ++ [EvRandom u; EvSleep (uniform_of a b u) (Ok r)] ++ between
    /\ forallb quiet pre = true /\ forallb quiet after = true.
Proof.
  intros [evs1 [H1 [-> | [u [r [ev' [evs2 [Hev' [H2 ->]]]]]]]]] Heq Hev.
  - exfalso. rewrite Heq, forallb_app in H1.
    apply andb_true_iff in H1 as [_ H1]. simpl in H1. now rewrite Hev in H1.
  - exists evs1, u, r.
    assert (Hl : forallb quiet
                   (evs1 ++ [EvRandom u; EvSleep (uniform_of a b u) (Ok r)]
                    ++ between) = true).
    { rewrite !forallb_app, H1, between_is_quiet. simpl.
      now rewrite random_is_quiet, sleep_is_quiet. }
    replace (evs1 ++ [EvRandom u; EvSleep (uniform_of a b u) (Ok r)]
             ++ between ++ ev' :: evs2)
      with ((evs1 ++ [EvRandom u; EvSleep (uniform_of a b u) (Ok r)]
             ++ between) ++ ev' :: evs2) in Heq
      by (now rewrite <- !app_assoc).
    revert Heq Hl.
    generalize (evs1 ++ [EvRandom u; EvSleep (uniform_of a b u) (Ok r)]
                ++ between) as l.
    intros l Heq Hl.
    assert (Hsplit : l = before /\ evs2 = after).
    { clear H1. revert before Heq.
      induction l as [|x l IH]; intros [|y before] Heq;
        simpl in Heq; injection Heq as Hh Ht; subst.
      - auto.
      - exfalso. rewrite forallb_app in H2.
        apply andb_true_iff in H2 as [_ H2]. simpl in H2.
        now rewrite Hev in H2.
      - exfalso. simpl in Hl. now rewrite Hev in Hl.
      - simpl in Hl. apply andb_true_iff in Hl as [_ Hl].
        destruct (IH Hl before Ht) as [-> ->]. auto. }
    destruct Hsplit as [<- <-]. auto.
Qed.

End PausedCalls.

Section PausedRequests.

Context {Post W : Type}.
Variable cl : Client Post W.

Local Abbreviation no_lookup := (fun ev : event Post => negb (is_lookup ev)).
Local Abbreviation no_login := (fun ev : event Post => negb (is_login ev)).

Lemma login_with_session_no_lookup username allow :
  emits no_lookup (login_with_session cl username allow).
Proof.
  unfold login_with_session, try_saved_session, interactive_login,
    get_credentials, save_after_login, two_factor_path, py_input, py_sleep,
    print, sys_exit.
  repeat emits_step.
Qed.

Lemma after_lookup_no_lookup (tp : pystr * profile) :
  emits no_lookup
    (let (target_profile, prof) := tp in
     bind (private_check cl prof target_profile)
       (fun _ => download_phase cl prof)).
Proof.
  destruct tp as [t prof]. unfold private_check, print, sys_exit.
  repeat first
    [ apply download_phase_emits; intros [] H; (reflexivity || discriminate H)
    | emits_step ].
Qed.

(** [main] looks the profile up at most once, right after its pause. *)
Lemma main_pauses_once : pauses_once is_lookup 1 3 [] (main cl).
Proof.
  unfold main, upto_profile.
  eapply pauses_once_ext; [intros; apply bind_assoc|].
  apply pauses_once_bind.
  { unfold check_dns, print. repeat emits_step. }
  intros [|]; cbn [negb].
  2:{ apply pauses_once_emits. unfold print, sys_exit.
      repeat first [apply after_lookup_no_lookup | emits_step]. }
  eapply pauses_once_ext; [intros; apply bind_assoc|].
  apply pauses_once_bind; [unfold py_input; repeat emits_step|].
  intros t. destruct (is_empty (strip t)).
  { apply pauses_once_emits. unfold print, sys_exit.
    repeat first [apply after_lookup_no_lookup | emits_step]. }
  eapply pauses_once_ext; [intros; apply bind_assoc|].
  apply pauses_once_bind; [unfold py_input; repeat emits_step|].
  intros su.
  eapply pauses_once_ext; [intros; apply bind_assoc|].
  apply pauses_once_bind.
  { unfold login_phase, py_input, print, sys_exit.
    repeat first [apply login_with_session_no_lookup | emits_step]. }
  intros _.
  apply pauses_once_ext
    with (c' := bind (uniform cl 1 3)
                  (fun pause =>
                     bind (py_sleep cl pause)
                       (fun _ =>
                          bind (resolve_profile cl (strip t))
                            (fun prof =>
                               bind (private_check cl prof (strip t))
                                 (fun _ => download_phase cl prof))))).
  { intros s. unfold bind, ret.
    destruct (uniform cl 1 3 s) as [[p|e] s1]; [|reflexivity].
    destruct (py_sleep cl p s1) as [[[]|e] s2]; [|reflexivity].
    destruct (resolve_profile cl (strip t) s2) as [[prof|e] s3];
      reflexivity. }
  apply pauses_once_pause with (ev := EvFromUsername (strip t));
    try reflexivity.
  apply starts_with_bind.
  - unfold resolve_profile. apply starts_with_try_except.
    + apply starts_with_call.
    + intros e. unfold print, sys_exit. repeat emits_step.
  - intros prof. apply (after_lookup_no_lookup (strip t, prof)).
Qed.

(** The resolver logs in at most once, right after its pause and the
    log line. *)
Lemma login_with_session_pauses_once username allow :
  pauses_once is_login 1.5 4 [EvLog (lit "Attempting login...")]
    (login_with_session cl username allow).
Proof.
  unfold login_with_session.
  apply pauses_once_bind.
  { unfold try_saved_session, print. repeat emits_step. }
  intros [u|]; [apply pauses_once_emits; emits_step|].
  destruct allow; cbn [negb]; [|apply pauses_once_emits; emits_step].
  unfold interactive_login.
  apply pauses_once_bind.
  { unfold get_credentials, py_input. repeat emits_step. }
  intros [user passwd].
  apply pauses_once_pause with (ev := EvLogin user passwd);
    try reflexivity.
  apply starts_with_try_except.
  - apply (@starts_with_emit Post W no_login pystr
             (EvLog (lit "Attempting login...")) [EvLogin user passwd]).
    apply starts_with_bind; [apply starts_with_call|].
    intros _. unfold save_after_login, print. repeat emits_step.
  - intros e. unfold two_factor_path, py_input, print.
    repeat emits_step.
Qed.

End PausedRequests.

(** [main] queries the profile at most once, and never without the pause
    before it: the call of [Profile.from_username] comes right after a
    draw [u] and a completed [time.sleep] of [1.0 + (3.0 - 1.0) * u]
    seconds. *)
Theorem profile_query_follows_a_pause :
  forall (Post W : Type) (cl : Client Post W) (s : state Post W)
    (before after : list (event Post)) (h : pystr),
  calls (main cl) s = before ++ EvFromUsername h :: after ->
  exists pre u r,
    before = pre ++ [EvRandom u; EvSleep (uniform_of 1 3 u) (Ok r)]
    /\ forallb (fun ev => negb (is_lookup ev)) pre = true
    /\ forallb (fun ev => negb (is_lookup ev)) after = true.
Proof.
  intros Post W cl s before after h Heq.
  destruct (main_pauses_once cl s) as [evs [Ht Hp]].
  rewrite (@calls_trace _ _ _ (main cl) s evs Ht) in Heq.
  destruct (@paused_once_split Post is_lookup 1 3 []
              (fun _ => eq_refl) (fun _ _ => eq_refl) eq_refl
              evs before (EvFromUsername h) after Hp Heq eq_refl)
    as [pre [u [r [Hb [Hpre Hafter]]]]].
  exists pre, u, r. rewrite app_nil_r in Hb. auto.
Qed.

Lemma profile_query_follows_a_pause_witness :
  exists pre u r,
    firstn 15 (calls (main MissingSession.cl) Scripted.begin)
    = pre ++ [EvRandom u; EvSleep (uniform_of 1 3 u) (Ok r)]
    /\ forallb (fun ev => negb (is_lookup ev)) pre = true
    /\ forallb (fun ev => negb (is_lookup ev))
         (skipn 16 (calls (main MissingSession.cl) Scripted.begin)) = true.
Proof.
  apply (@profile_query_follows_a_pause nat unit MissingSession.cl
           Scripted.begin
           (firstn 15 (calls (main MissingSession.cl) Scripted.begin))
           (skipn 16 (calls (main MissingSession.cl) Scripted.begin))
           (lit "bob")).
  vm_compute. reflexivity.
Defined.

(** The resolver calls [loader.login] at most once, and never without
    the pause before it: the call comes right after a draw [u], a
    completed [time.sleep] of [1.5 + (4.0 - 1.5) * u] seconds and the log
    line. *)
Theorem login_follows_a_pause :
  forall (Post W : Type) (cl : Client Post W) (username : option pystr)
    (allow_interactive : bool) (s : state Post W)
    (before after : list (event Post)) (user passwd : pystr),
  calls (login_with_session cl username allow_interactive) s
  = before ++ EvLogin user passwd :: after ->
  exists pre u r,
    before
    = pre ++ [EvRandom u; EvSleep (uniform_of 1.5 4 u) (Ok r);
              EvLog (lit "Attempting login...")]
    /\ forallb (fun ev => negb (is_login ev)) pre = true
    /\ forallb (fun ev => negb (is_login ev)) after = true.
Proof.
  intros Post W cl username allow s before after user passwd Heq.
  destruct (login_with_session_pauses_once cl username allow s)
    as [evs [Ht Hp]].
  rewrite (@calls_trace _ _ _ (login_with_session cl username allow) s evs Ht)
    in Heq.
  exact (@paused_once_split Post is_login 1.5 4
           [EvLog (lit "Attempting login...")]
           (fun _ => eq_refl) (fun _ _ => eq_refl) eq_refl
           evs before (EvLogin user passwd) after Hp Heq eq_refl).
Qed.

Lemma login_follows_a_pause_witness :
  let evs :=
    calls (login_with_session MissingSession.cl (Some (lit "bob")) true)
      Scripted.begin in
  exists pre u r,
    firstn 7 evs
    = pre ++ [EvRandom u; EvSleep (uniform_of 1.5 4 u) (Ok r);
              EvLog (lit "Attempting login...")]
    /\ forallb (fun ev => negb (is_login ev)) pre = true
    /\ forallb (fun ev => negb (is_login ev)) (skipn 8 evs) = true.
Proof.
  intros evs.
  apply (@login_follows_a_pause nat unit MissingSession.cl
           (Some (lit "bob")) true Scripted.begin
           (firstn 7 evs) (skipn 8 evs) (lit "bob") (lit "bob")).
  vm_compute. reflexivity.
Defined.

(** ** The waits and the last message of a completed run *)

Section CompletedRuns.

Context {Post W : Type}.
Variable cl : Client Post W.
Variable safe_name : pystr.
Variables (min_delay max_delay : float).
Variables (per_post_retries : Z) (backoff_base : float).

(** A loop that runs out or breaks has waited once for every download
    call that failed; a loop the function returns from has seen an
    interrupted download. *)
Lemma loop_run_wait_count post attempt total w r w' evs :
  loop_run cl post safe_name per_post_retries backoff_base
    attempt total w r w' evs ->
  match r with
  | Ok (LoopEnd _) =>
      (List.length (waits evs) + List.length (downloaded evs))%nat
      = attempts evs
  | Ok (FnReturn _) => existsb is_interrupted_download evs = true
  | Raise _ => True
  end.
Proof.
  induction 1; try reflexivity; try exact I.
  destruct r as [[t|t]|x]; [| |exact I].
  - rewrite waits_app, downloaded_app, attempts_app, !length_app.
    unfold attempts in *. simpl. lia.
  - rewrite existsb_app, IHloop_run. apply orb_true_r.
Qed.

Lemma posts_run_completed it total w r w' evs :
  posts_run cl safe_name min_delay max_delay per_post_retries backoff_base
    it total w r w' evs ->
  forall n, r = Ok n ->
  existsb is_interrupted_download evs = false ->
  (List.length (waits evs) + List.length (downloaded evs))%nat
  = (attempts evs + List.length (iter_posts it))%nat
  /\ exists pre, evs = pre ++ [EvPrint (finished_message cl n)].
Proof.
  induction 1 as
    [ total w | e total w
    | post rest total w t w1 evs Hloop
    | post rest total w e w1 evs Hloop
    | post rest total w t w1 evs u1 w2 u2 w3 x w4 Hloop Hu1 Hu2 Hs
    | post rest total w t w1 evs u1 w2 u2 w3 a w4 r w' evs' Hloop Hu1 Hu2 Hs
        Hrest IH ];
    intros n Hn Hcalm; try discriminate Hn.
  - injection Hn as <-. split; [reflexivity|]. now exists [].
  - apply loop_run_wait_count in Hloop. congruence.
  - apply loop_run_wait_count in Hloop.
    rewrite !existsb_app in Hcalm.
    apply orb_false_iff in Hcalm as [_ Hcalm].
    apply orb_false_iff in Hcalm as [_ Hcalm].
    destruct (IH n Hn Hcalm) as [Hw [pre Hpre]]. split.
    + rewrite !waits_app, !downloaded_app, !attempts_app, !length_app.
      unfold attempts in *. simpl. lia.
    + exists (evs ++ pacing_events cl min_delay max_delay u1 u2 (Ok a) ++ pre).
      rewrite Hpre. now rewrite <- !app_assoc.
Qed.

End CompletedRuns.

(** A run of the downloader that returns without an interrupted download
    has slept once for every download call that failed, also for the last
    one of a post it gave up, and once more for every listed post: its
    [time.sleep] calls are as many as the failed download calls and the
    listed posts together. *)
Theorem completed_run_waits_for_failures_and_posts :
  forall (Post W : Type) (cl : Client Post W) (prof : profile)
    (min_delay max_delay : float) (per_post_retries : Z)
    (backoff_base : float) (s : state Post W) (n : Z),
  let run :=
    download_posts_with_delays cl prof min_delay max_delay per_post_retries
      backoff_base in
  fst (run s) = Ok n ->
  existsb is_interrupted_download (calls run s) = false ->
  (List.length (waits (calls run s)) + List.length (downloaded (calls run s)))%nat
  = (attempts (calls run s) + List.length (listed_posts cl prof s))%nat.
Proof.
  intros Post W cl prof mn mx R b s n run. subst run.
  destruct (download_posts_with_delays_run cl prof mn mx R b s)
    as [r [w' [evs [Hrun Hrel]]]].
  rewrite (calls_log _ Hrun), Hrun. cbn [fst]. intros -> Hcalm.
  unfold listed_posts.
  inversion Hrel as [ | | w a w1 it w2 r0 w0 evs0 Hm Hg Hposts ]; subst.
  rewrite Hm, Hg.
  destruct (posts_run_completed Hposts eq_refl) as [Hw _].
  { rewrite existsb_app in Hcalm. now apply orb_false_iff in Hcalm. }
  rewrite waits_app, downloaded_app, attempts_app, !length_app.
  unfold attempts at 1. simpl. exact Hw.
Qed.

Lemma completed_run_waits_for_failures_and_posts_witness :
  let run :=
    download_posts_with_delays (Scripted.steady Runs.failing (lit "") 0.5)
      {| username := lit "a" |} 4 9 1 2 in
  (List.length (waits (calls run Scripted.begin))
   + List.length (downloaded (calls run Scripted.begin)))%nat
  = (attempts (calls run Scripted.begin)
     + List.length
         (listed_posts (Scripted.steady Runs.failing (lit "") 0.5)
            {| username := lit "a" |} Scripted.begin))%nat.
Proof.
  exact (@completed_run_waits_for_failures_and_posts nat unit
           (Scripted.steady Runs.failing (lit "") 0.5)
           {| username := lit "a" |} 4 9 1 2 Scripted.begin 0
           eq_refl eq_refl).
Defined.

(** A run of the downloader that returns without an interrupted download
    ends with the message that reports the count it returns, which is the
    number of download calls that succeeded. *)
Theorem finished_message_reports_the_count :
  forall (Post W : Type) (cl : Client Post W) (prof : profile)
    (min_delay max_delay : float) (per_post_retries : Z)
    (backoff_base : float) (s : state Post W) (n : Z),
  let run :=
    download_posts_with_delays cl prof min_delay max_delay per_post_retries
      backoff_base in
  fst (run s) = Ok n ->
  existsb is_interrupted_download (calls run s) = false ->
  exists pre,
    calls run s = pre ++ [EvPrint (finished_message cl n)]
    /\ n = successes pre.
Proof.
  intros Post W cl prof mn mx R b s n run. subst run.
  destruct (downloader_calls cl prof mn mx R b s)
    as [_ [_ [_ [_ [_ [_ [Hn _]]]]]]].
  destruct (download_posts_with_delays_run cl prof mn mx R b s)
    as [r [w' [evs [Hrun Hrel]]]].
  rewrite (calls_log _ Hrun), Hrun in *. cbn [fst] in *. intros -> Hcalm.
  inversion Hrel as [ | | w a w1 it w2 r0 w0 evs0 Hm Hg Hposts ]; subst.
  destruct (posts_run_completed Hposts eq_refl) as [_ [pre Hpre]].
  { rewrite existsb_app in Hcalm. now apply orb_false_iff in Hcalm. }
  exists (setup_events prof ++ pre). split.
  - now rewrite Hpre, app_assoc.
  - rewrite (Hn n eq_refl), Hpre, app_assoc, successes_app.
    unfold successes at 2. simpl. lia.
Qed.

Lemma finished_message_reports_the_count_witness :
  let cl := Scripted.steady Runs.failing (lit "") 0.5 in
  let run := download_posts_with_delays cl {| username := lit "a" |} 4 9 1 2 in
  exists pre,
    calls run Scripted.begin = pre ++ [EvPrint (finished_message cl 0)]
    /\ 0 = successes pre.
Proof.
  exact (@finished_message_reports_the_count nat unit
           (Scripted.steady Runs.failing (lit "") 0.5)
           {| username := lit "a" |} 4 9 1 2 Scripted.begin 0
           eq_refl eq_refl).
Defined.
